(** * Tick-stream feature pipeline: window engine, temporal features, labels

    A shallow embedding of
      - [utils/clean_data_csv_to_ticks_per_second.py] ([process_historical_file]),
      - [train_initiation_model.py] ([load_data], [engineer_features],
        [define_labels], the feature list of [train_model], the script),
      - [visualize_ai_signals.py] and [forward_test_virgin_data.py] (the
        column check, the signals, the names of the files),
    together with the pandas operations they call.

    Conventions.
      - A float64 cell is an [option Q]: [None] is NaN (a null cell), [Some q]
        an exact rational.  Arithmetic on cells is exact: the rounding of a
        float sum, product or quotient is not part of this model.
      - A timestamp is the int64 nanosecond count pandas keeps in a
        [DatetimeIndex], as a [Z].  Where the code turns timestamps into
        float64 (the rolling minimum and the duration) the cast is modelled:
        it rounds to 53 significant bits.
      - A table (DataFrame) is the list of its rows in positional order. *)

From Stdlib Require Import ZArith QArith Qround Qminmax Qabs Lia Lqa.
From Stdlib Require Import Ascii String Sorted.
From stdpp Require Import base list option.

(* ===================================================================== *)
(** ** float64 cells *)
(* ===================================================================== *)

Module Float.

Abbreviation float64 := (option Q) (only parsing).

Definition nan : float64 := None.
Definition of_Z (z : Z) : float64 := Some (inject_Z z).

(** The float64 nearest to a non-negative integer: integers below [2^53]
    are floats; from there on a float has 53 significant bits, and a tie
    goes to the even one. *)
Definition round_magnitude (n : Z) : Z :=
  let e := Z.log2 n in
  if (e <? 53)%Z then n
  else
    let ulp := (2 ^ (e - 52))%Z in
    let q := (n / ulp)%Z in
    match (2 * (n mod ulp) ?= ulp)%Z with
    | Lt => (q * ulp)%Z
    | Gt => ((q + 1) * ulp)%Z
    | Eq => if Z.even q then (q * ulp)%Z else ((q + 1) * ulp)%Z
    end.

(** numpy's cast of an int64 to float64. *)
Definition float64_of_int64 (z : Z) : Z :=
  (Z.sgn z * round_magnitude (Z.abs z))%Z.

(** [astype(float64)] on an integer cell. *)
Definition astype_float64 (z : Z) : float64 := of_Z (float64_of_int64 z).

(** Comparisons: any comparison with NaN is false. *)
Definition leb (a b : float64) : bool :=
  match a, b with
  | Some x, Some y => Qle_bool x y
  | _, _ => false
  end.

Definition gtb (a b : float64) : bool :=
  match a, b with
  | Some x, Some y => negb (Qle_bool x y)
  | _, _ => false
  end.

Definition geb (a b : float64) : bool := leb b a.

(** Propositional readings of [>] and [>=] on cells. *)
Definition gt (a b : float64) : Prop :=
  exists x y, a = Some x /\ b = Some y /\ (y < x)%Q.
Definition ge (a b : float64) : Prop :=
  exists x y, a = Some x /\ b = Some y /\ (y <= x)%Q.

(** Arithmetic propagates NaN. *)
Definition lift2 (f : Q -> Q -> Q) (a b : float64) : float64 :=
  match a, b with
  | Some x, Some y => Some (f x y)
  | _, _ => None
  end.

Definition add := lift2 Qplus.
Definition sub := lift2 Qminus.
Definition mul := lift2 Qmult.

(** Division; a zero divisor (inf or NaN in numpy) is outside the model and
    rendered as NaN.  No call site of the pipeline reaches it. *)
Definition div (a b : float64) : float64 :=
  match a, b with
  | Some x, Some y => if Qeq_bool y 0 then None else Some (x / y)%Q
  | _, _ => None
  end.

(** [Series.fillna(v)]. *)
Definition fillna (v : Q) (a : float64) : float64 :=
  match a with
  | Some x => Some x
  | None => Some v
  end.

Definition notna {A} (a : option A) : bool :=
  match a with Some _ => true | None => false end.

(** numpy's [rint]: round to the nearest integer, ties to even. *)
Definition rint (q : Q) : Z :=
  let f := Qfloor q in
  match (q - inject_Z f ?= 1 # 2)%Q with
  | Lt => f
  | Gt => (f + 1)%Z
  | Eq => if Z.even f then f else (f + 1)%Z
  end.

(** [np.round(x, 2)]: scale by 100, [rint], scale back. *)
Definition round2 (q : Q) : Q := (rint (q * 100) # 100)%Q.

(** [Series.round(2)]: NaN stays NaN. *)
Definition round_2 (a : float64) : float64 := round2 <$> a.

(** Row-wise [max(axis=1)] over two columns with the default [skipna=True]. *)
Definition nanmax2 (a b : float64) : float64 :=
  match a, b with
  | Some x, Some y => Some (Qmax x y)
  | Some x, None => Some x
  | None, Some y => Some y
  | None, None => None
  end.

End Float.

(* ===================================================================== *)
(** ** pandas rolling windows *)
(* ===================================================================== *)

Module Rolling.
Import Float.

(** Positions [s, e) of a column. *)
Definition slice {A} (s e : nat) (l : list A) : list A := drop s (take e l).

(** *** Window bounds *)

(** [DatetimeIndex.is_monotonic_increasing]. *)
Fixpoint is_monotonic_increasing (idx : list Z) : bool :=
  match idx with
  | [] => true
  | t :: rest =>
      match rest with
      | [] => true
      | t' :: _ => (t <=? t')%Z && is_monotonic_increasing rest
      end
  end.

(** The inner loop of the variable-window bounds: scanning positions
    [j, j + fuel), the first one whose index value is strictly above
    [bound]; [j + fuel] when there is none. *)
Fixpoint first_inside (idx : list Z) (bound : Z) (j fuel : nat) : nat :=
  match fuel with
  | O => j
  | S fuel' =>
      match idx !! j with
      | Some t =>
          if (bound <? t)%Z then j
          else first_inside idx bound (S j) fuel'
      | None => j + fuel
      end
  end.

(** The outer loop, for rows [i, i+1, ...] holding the index values [todo]:
    every start resumes from the previous row's start. *)
Fixpoint starts_from (idx : list Z) (window : Z) (prev i : nat)
    (todo : list Z) : list nat :=
  match todo with
  | [] => []
  | t :: todo' =>
      let s := first_inside idx (t - window) prev (i - prev) in
      s :: starts_from idx window s (S i) todo'
  end.

(** Window starts of [rolling(window=<offset>, closed='right')] over a
    monotonic index: row 0 starts at 0. *)
Definition variable_window_starts (idx : list Z) (window : Z) : list nat :=
  match idx with
  | [] => []
  | _ :: todo => 0 :: starts_from idx window 0 1 todo
  end.

(** With the right end closed, the window of row [i] ends after row [i]. *)
Definition closed_right_ends (n : nat) : list nat := S <$> seq 0 n.

(** [rolling(window=n)]: the trailing [n] rows, the current one included. *)
Definition fixed_window_starts (n len : nat) : list nat :=
  (fun i => S i - n) <$> seq 0 len.

(** [FixedForwardWindowIndexer(window_size)]: start at the current row,
    end [window_size] rows later, clipped to the table. *)
Definition forward_window_starts (len : nat) : list nat := seq 0 len.
Definition forward_window_ends (window_size len : nat) : list nat :=
  (fun i => (i + window_size) `min` len) <$> seq 0 len.

(** *** Aggregations over one window *)

(** The values of a window that are not NaN. *)
Definition observations (w : list float64) : list Q := omap id w.

Definition Qsum (l : list Q) : Q := foldr Qplus 0%Q l.

Definition Qmaximum (x : Q) (l : list Q) : Q := foldr Qmax x l.
Definition Qminimum (x : Q) (l : list Q) : Q := foldr Qmin x l.

(** [sum]: NaN is skipped; fewer than [minp] observations give NaN. *)
Definition roll_sum (minp : nat) (w : list float64) : float64 :=
  let obs := observations w in
  if decide (minp <= length obs) then Some (Qsum obs) else None.

(** [count]: the column is first replaced by its [notna] indicator, whose
    cells are never NaN, and then summed. *)
Definition roll_count (minp : nat) (w : list float64) : float64 :=
  roll_sum minp ((fun c => Some (if notna c then 1%Q else 0%Q)) <$> w).

Definition roll_max (minp : nat) (w : list float64) : float64 :=
  match observations w with
  | [] => None
  | x :: obs =>
      if decide (minp <= S (length obs)) then Some (Qmaximum x obs) else None
  end.

Definition roll_min (minp : nat) (w : list float64) : float64 :=
  match observations w with
  | [] => None
  | x :: obs =>
      if decide (minp <= S (length obs)) then Some (Qminimum x obs) else None
  end.

Definition roll_mean (minp : nat) (w : list float64) : float64 :=
  match observations w with
  | [] => None
  | x :: obs =>
      if decide (minp <= S (length obs))
      then Some (Qsum (x :: obs) / inject_Z (Z.of_nat (S (length obs))))%Q
      else None
  end.

(** Sample variance ([ddof = 1]): needs at least two observations. *)
Definition roll_var (minp : nat) (w : list float64) : float64 :=
  let obs := observations w in
  let n := length obs in
  if decide (minp <= n /\ 2 <= n) then
    let mean := (Qsum obs / inject_Z (Z.of_nat n))%Q in
    Some (Qsum ((fun x => (x - mean) * (x - mean))%Q <$> obs)
          / inject_Z (Z.of_nat (n - 1)))%Q
  else None.

(** One aggregate per row, over its window. *)
Definition rolling_apply {A B} (starts ends : list nat)
    (agg : list A -> B) (values : list A) : list B :=
  zip_with (fun s e => agg (slice s e values)) starts ends.

(** [Series.shift(k)] for [k >= 0]. *)
Definition shift {A} (k : nat) (col : list (option A)) : list (option A) :=
  replicate (k `min` length col) None ++ take (length col - k) col.

(** [Series.diff(k)]. *)
Definition diff (k : nat) (col : list float64) : list float64 :=
  zip_with sub col (shift k col).

End Rolling.

(* ===================================================================== *)
(** ** utils/clean_data_csv_to_ticks_per_second.py *)
(* ===================================================================== *)

Module CleanData.
Import Float Rolling.

(** A record of the input file once its cells are parsed with
    [errors='coerce']: an unparsable timestamp is NaT, an unparsable number
    NaN. *)
Record raw_row := {
  raw_Timestamp : option Z;
  raw_Precio : float64;
  raw_Volumen : float64;
  raw_Lado : option string;
  raw_Bid : float64;
  raw_Ask : float64
}.

(** A row whose timestamp is known. *)
Record tick := {
  Timestamp : Z;
  Precio : float64;
  Volumen : float64;
  Lado : option string;
  Bid : float64;
  Ask : float64
}.

(** [df.dropna(subset=['Timestamp'])]. *)
Definition dropna_Timestamp (df : list raw_row) : list tick :=
  omap (fun r =>
          t ← raw_Timestamp r;
          Some {| Timestamp := t; Precio := raw_Precio r;
                  Volumen := raw_Volumen r; Lado := raw_Lado r;
                  Bid := raw_Bid r; Ask := raw_Ask r |}) df.

(** The rows of [df_indexed] after line 116. *)
Record indexed_row := {
  tick_of : tick;
  window_vol : float64;
  window_duration : float64;
  window_count : float64;
  tps_window : float64;
  factor_tps : float64
}.

(** The columns written to the output file. *)
Record out_row := {
  out_tick : tick;
  out_window_vol : float64;
  out_tps_window : float64;
  out_factor_tps : float64
}.

Definition ns_of_ms (ms : Z) : Z := (ms * 1000000)%Z.
Definition ns_of_sec (s : Z) : Z := (s * 1000000000)%Z.

(** [calc_tps(row)], on the row's [window_count] and [window_duration].
    The second [return 0] of the source sits behind [return cnt] and is
    never reached. *)
Definition calc_tps (cnt dur : float64) : float64 :=
  if leb cnt (of_Z 1) then of_Z 0
  else if leb dur (Some (1 # 1000)%Q) then cnt
  else div cnt dur.

(** Lines 39-116: the window columns over the time-indexed table. *)
Section WindowColumns.
Variable df : list tick.
Variables window_ms tps_window_sec : Z.

Let idx : list Z := Timestamp <$> df.
Let ends : list nat := closed_right_ends (length df).

Definition window_vol_col : list float64 :=
  rolling_apply (variable_window_starts idx (ns_of_ms window_ms)) ends
    (roll_sum 1) (Volumen <$> df).

Definition window_count_col : list float64 :=
  rolling_apply (variable_window_starts idx (ns_of_sec tps_window_sec)) ends
    (roll_count 1) (Volumen <$> df).

(** Lines 63-64: the index as int64 nanoseconds. *)
Definition ts_series : list Z := idx.

(** Line 66: [rolling] works on float64 values, so the minimum is taken
    over the timestamps cast to float64 and is a float64. *)
Definition min_ts_in_window : list float64 :=
  rolling_apply (variable_window_starts idx (ns_of_sec tps_window_sec)) ends
    (roll_min 1) (astype_float64 <$> ts_series).

(** Line 73: an int64 series minus a float64 series is computed on the
    int64 cast to float64.  Timestamps of this century lie above [2^53] ns
    and are rounded to multiples of 256 ns by the cast. *)
Definition duration_sec : list float64 :=
  zip_with (fun cur mn => div (sub (astype_float64 cur) mn)
                            (of_Z 1000000000))
    ts_series min_ts_in_window.

Definition tps_window_col : list float64 :=
  round_2 <$> zip_with calc_tps window_count_col duration_sec.

Definition factor_tps_col : list float64 :=
  round_2 <$> zip_with mul window_vol_col tps_window_col.

Definition window_features : list indexed_row :=
  zip_with
    (fun '(t, wv, dur) '(cnt, tps, fac) =>
       {| tick_of := t; window_vol := wv; window_duration := dur;
          window_count := cnt; tps_window := tps; factor_tps := fac |})
    (zip (zip df window_vol_col) duration_sec)
    (zip (zip window_count_col tps_window_col) factor_tps_col).
End WindowColumns.

Definition cols_to_keep (r : indexed_row) : out_row :=
  {| out_tick := tick_of r; out_window_vol := window_vol r;
     out_tps_window := tps_window r; out_factor_tps := factor_tps r |}.

Section Pipeline.
(** [sort_values('Timestamp')] with the default [kind]: some sort by
    timestamp, whose order among equal timestamps pandas leaves open. *)
Variable sort_values : list tick -> list tick.

(** [sort_index()] returns an already monotonic frame as it is. *)
Definition sort_index (df : list tick) : list tick :=
  if is_monotonic_increasing (Timestamp <$> df) then df else sort_values df.

(** Lines 17-35: the ordered tick table. *)
Definition ordered_ticks (raw : list raw_row) : list tick :=
  sort_index (sort_values (dropna_Timestamp raw)).

Definition df_indexed (raw : list raw_row) (window_ms tps_window_sec : Z)
    : list indexed_row :=
  window_features (ordered_ticks raw) window_ms tps_window_sec.

Definition process_historical_file (raw : list raw_row)
    (window_ms tps_window_sec : Z) : list out_row :=
  cols_to_keep <$> df_indexed raw window_ms tps_window_sec.
End Pipeline.

(** Defaults of [process_historical_file]. *)
Definition default_window_ms : Z := 500.
Definition default_tps_window_sec : Z := 10.

(** *** Column names *)

(** [c in df.columns]. *)
Definition has_column (c : string) (columns : list string) : bool :=
  existsb (String.eqb c) columns.

(** Line 122, before the filter. *)
Definition cols_to_keep_names : list string :=
  [ "Timestamp"; "Precio"; "Volumen"; "Lado"; "Bid"; "Ask";
    "window_vol"; "tps_window"; "factor_tps" ]%string.

(** The names among which line 124 looks: the columns of the input and the
    columns assigned on lines 39, 91, 92, 109 and 116. *)
Definition df_result_columns (input_columns : list string) : list string :=
  input_columns
  ++ [ "window_vol"; "window_duration"; "window_count"; "tps_window";
       "factor_tps" ]%string.

(** The header of the file written at line 129, from the column names
    [read_csv] gave the raw file (it makes them distinct).  Without a
    [Timestamp] column line 17 raises, without a [Volumen] column line 39
    does: [None] is that exception. *)
Definition written_columns (input_columns : list string)
    : option (list string) :=
  if has_column "Timestamp" input_columns
     && has_column "Volumen" input_columns
  then Some (List.filter
               (fun c => has_column c (df_result_columns input_columns))
               cols_to_keep_names)
  else None.

End CleanData.

(* ===================================================================== *)
(** ** train_initiation_model.py *)
(* ===================================================================== *)

Module Train.
Import Float Rolling.

(** A row of the frame returned by [load_data]: the nine columns of the
    processed file, any cell of which may be null. *)
Record sample := {
  timestamp : option Z;
  price : float64;
  volume : float64;
  side : option string;
  bid : float64;
  ask : float64;
  window_vol : float64;
  tps_window : float64;
  factor_tps : float64
}.

(** A row after [engineer_features] has added its columns.  [index_label]
    is the label the row keeps in the frame's index (its position in the
    input); [factor_tps_lag] holds [factor_tps_lag_1 .. factor_tps_lag_5]. *)
Record feature_row := {
  index_label : nat;
  source : sample;
  factor_tps_lag : list float64;
  factor_tps_mean_5 : float64;
  factor_tps_std_5 : float64;
  price_velocity_5 : float64
}.

(** [df[col].iloc[i]]. *)
Definition cell (col : list float64) (i : nat) : float64 := mjoin (col !! i).

Definition set_factor_tps (v : float64) (s : sample) : sample :=
  {| timestamp := timestamp s; price := price s; volume := volume s;
     side := side s; bid := bid s; ask := ask s;
     window_vol := window_vol s; tps_window := tps_window s;
     factor_tps := v |}.

(** No cell of the loaded columns is null. *)
Definition sample_notna (s : sample) : bool :=
  notna (timestamp s) && notna (price s) && notna (volume s)
  && notna (side s) && notna (bid s) && notna (ask s)
  && notna (window_vol s) && notna (tps_window s) && notna (factor_tps s).

(** No cell of the whole row is null: the rows [df.dropna()] keeps. *)
Definition row_notna (r : feature_row) : bool :=
  sample_notna (source r)
  && forallb notna (factor_tps_lag r)
  && notna (factor_tps_mean_5 r)
  && notna (factor_tps_std_5 r)
  && notna (price_velocity_5 r).

Section Features.
(** numpy's square root on non-negative floats. *)
Variable sqrt : Q -> Q.

Section Columns.
Variable df : list sample.

(** Line 63: [factor_tps] coerced, nulls filled with 0. *)
Definition factor_tps_col : list float64 :=
  (fun s => fillna 0 (factor_tps s)) <$> df.

Definition price_col : list float64 := price <$> df.

(** Lines 69-70. *)
Definition lag_col (k : nat) : list float64 := shift k factor_tps_col.

Let starts5 : list nat := fixed_window_starts 5 (length df).
Let ends5 : list nat := closed_right_ends (length df).

(** Lines 73-74. *)
Definition mean_5_col : list float64 :=
  rolling_apply starts5 ends5 (roll_mean 5) factor_tps_col.

Definition std_5_col : list float64 :=
  (fun v => fillna 0 (sqrt <$> v))
    <$> rolling_apply starts5 ends5 (roll_var 5) factor_tps_col.

(** Line 78. *)
Definition price_velocity_5_col : list float64 := diff 5 price_col.

(** The frame with all feature columns, before the drop. *)
Definition feature_frame : list feature_row :=
  imap (fun i s =>
          {| index_label := i;
             source := set_factor_tps (cell factor_tps_col i) s;
             factor_tps_lag := (fun k => cell (lag_col k) i) <$> seq 1 5;
             factor_tps_mean_5 := cell mean_5_col i;
             factor_tps_std_5 := cell std_5_col i;
             price_velocity_5 := cell price_velocity_5_col i |}) df.
End Columns.

(** Line 82: [df.dropna()]. *)
Definition dropna (rows : list feature_row) : list feature_row :=
  filter (fun r => Is_true (row_notna r)) rows.

Definition engineer_features (df : list sample) : list feature_row :=
  dropna (feature_frame df).
End Features.

(** A row after [define_labels]. *)
Record labeled_row := {
  features : feature_row;
  future_price_max : float64;
  future_price_min : float64;
  price_move_up : float64;
  price_move_down : float64;
  max_future_move : float64;
  is_initiation : Z
}.

Definition row_price (r : feature_row) : float64 := price (source r).
Definition row_factor_tps (r : feature_row) : float64 := factor_tps (source r).

Section Labels.
Variable df : list feature_row.
Variables tps_threshold price_move_threshold : Q.
Variable future_window : nat.

Let prices : list float64 := row_price <$> df.
Let starts : list nat := forward_window_starts (length df).
Let ends : list nat := forward_window_ends future_window (length df).

(** Lines 97-99: with no [min_periods] given, a [BaseIndexer] window asks
    for [window_size] observations. *)
Definition future_price_max_col : list float64 :=
  rolling_apply starts ends (roll_max future_window) prices.
Definition future_price_min_col : list float64 :=
  rolling_apply starts ends (roll_min future_window) prices.

(** [(a & b).astype(int)]. *)
Definition int_of_bool (b : bool) : Z := if b then 1%Z else 0%Z.

Definition define_labels : list labeled_row :=
  imap (fun i r =>
          let fmax := cell future_price_max_col i in
          let fmin := cell future_price_min_col i in
          let up := sub fmax (row_price r) in
          let down := sub (row_price r) fmin in
          let move := nanmax2 up down in
          {| features := r;
             future_price_max := fmax;
             future_price_min := fmin;
             price_move_up := up;
             price_move_down := down;
             max_future_move := move;
             is_initiation :=
               int_of_bool (gtb (row_factor_tps r) (Some tps_threshold)
                            && geb move (Some price_move_threshold)) |}) df.
End Labels.

(** Defaults of [define_labels]. *)
Definition default_tps_threshold : Q := 4000.
Definition default_price_move_threshold : Q := 35 # 10.
Definition default_future_window : nat := 10.

(** *** [load_data]: the header *)

(** Whitespace for [str.strip()], among the ASCII characters; column and
    file names are taken to be ASCII throughout. *)
Definition is_space (c : ascii) : bool :=
  let n := nat_of_ascii c in
  ((9 <=? n) && (n <=? 13)) || ((28 <=? n) && (n <=? 32)).

Fixpoint lstrip (s : list ascii) : list ascii :=
  match s with
  | [] => []
  | c :: rest => if is_space c then lstrip rest else s
  end.

(** [str.strip()]. *)
Definition strip (s : string) : string :=
  string_of_list_ascii
    (rev (lstrip (rev (lstrip (list_ascii_of_string s))))).

(** Lines 25-35. *)
Definition column_mapping : list (string * string) :=
  [ ("Timestamp", "timestamp"); ("Precio", "price"); ("Volumen", "volume");
    ("Lado", "side"); ("Bid", "bid"); ("Ask", "ask");
    ("window_vol", "window_vol"); ("tps_window", "tps_window");
    ("factor_tps", "factor_tps") ]%string.

(** [df.rename(columns=column_mapping)] on one name. *)
Definition rename_column (c : string) : string :=
  match List.find (fun kv => String.eqb (fst kv) c) column_mapping with
  | Some kv => snd kv
  | None => c
  end.

Definition count_column (c : string) (columns : list string) : nat :=
  length (List.filter (String.eqb c) columns).

(** Lines 22-41 on [df_columns], the column names of the frame [read_csv]
    returned at line 19: the names of the file's header, except that
    [read_csv] has made repeated names distinct ([price], [price.1]) and has
    named an empty one itself; for a header of distinct non-empty names they
    are the header's names.  The result is the column names of the loaded
    frame; [None] is the exception the indexing [df['timestamp']] and the
    parse of it raise when the name is missing or not unique, which
    [load_data] answers by returning [None]. *)
Definition load_columns (df_columns : list string) : option (list string) :=
  let columns := (fun c => rename_column (strip c)) <$> df_columns in
  if Nat.eqb (count_column "timestamp" columns) 1
  then Some columns else None.

(** *** Column names through [engineer_features] and [define_labels] *)

(** [df[name] = ...]: a new name is appended, an old one keeps its
    place. *)
Definition assign (columns : list string) (name : string) : list string :=
  if existsb (String.eqb name) columns then columns else columns ++ [name].

Definition engineered_names : list string :=
  [ "factor_tps"; "price";
    "factor_tps_lag_1"; "factor_tps_lag_2"; "factor_tps_lag_3";
    "factor_tps_lag_4"; "factor_tps_lag_5";
    "factor_tps_mean_5"; "factor_tps_std_5"; "price_velocity_5" ]%string.

Definition label_names : list string :=
  [ "future_price_max"; "future_price_min"; "price_move_up";
    "price_move_down"; "max_future_move"; "is_initiation" ]%string.

(** The columns of the frame [define_labels (engineer_features df)], for a
    frame that has a [factor_tps] and a [price] column (without them line 63
    or 64 raises). *)
Definition labeled_columns (columns : list string) : list string :=
  foldl assign (foldl assign columns engineered_names) label_names.

(** *** [train_model]: the feature columns *)

(** Python's [needle in hay] on strings. *)
Fixpoint contains (needle hay : string) : bool :=
  String.prefix needle hay
  || match hay with
     | EmptyString => false
     | String _ rest => contains needle rest
     end.

(** Line 127. *)
Definition is_feature (c : string) : bool :=
  contains "lag" c || contains "mean" c || contains "std" c
  || String.eqb c "factor_tps".

Definition feature_columns (columns : list string) : list string :=
  List.filter is_feature columns.

(** *** The script: lines 169-179 *)

(** Where the script ends up: the load failed and nothing more is done;
    line 179 reports that no initiation was found; or control reaches the
    call [train_model(df)] of line 174.  What [train_model] then does is not
    part of this model: its stratified split raises when a class has too few
    rows (a single row labeled 1, for one), and no model is saved then. *)
Inductive outcome := LoadFailed | NoInitiation | CallsTrainModel.

(** [df['is_initiation'].sum()]. *)
Definition label_sum (df : list labeled_row) : Z :=
  foldr Z.add 0%Z (is_initiation <$> df).

(** The branch the script takes on the frame [load_data] returned ([None]
    when loading failed). *)
Definition main (sqrt : Q -> Q) (loaded : option (list sample)) : outcome :=
  match loaded with
  | None => LoadFailed
  | Some df =>
      let labeled :=
        define_labels (engineer_features sqrt df) default_tps_threshold
          default_price_move_threshold default_future_window in
      if (0 <? label_sum labeled)%Z then CallsTrainModel else NoInitiation
  end.

End Train.

(* ===================================================================== *)
(** ** visualize_ai_signals.py, forward_test_virgin_data.py *)
(* ===================================================================== *)

Module Visualize.
Import Float Rolling Train.

(** Line 28. *)
Definition required_cols : list string :=
  [ "factor_tps"; "price"; "timestamp" ]%string.

(** Line 29. *)
Definition missing_cols (columns : list string) : list string :=
  List.filter (fun c => negb (CleanData.has_column c columns)) required_cols.

(** A row with the model's answer, lines 59-60. *)
Record scored_row := {
  labeled : labeled_row;
  prob_initiation : Q;
  pred_initiation : Z
}.

(** The cells [train_model] and line 57 select from a row, in the order of
    the columns. *)
Definition feature_vector (r : feature_row) : list float64 :=
  row_factor_tps r :: factor_tps_lag r
  ++ [factor_tps_mean_5 r; factor_tps_std_5 r].

Definition velocity (s : scored_row) : float64 :=
  price_velocity_5 (features (labeled s)).

Section Signals.
(** [model.predict_proba(X)[:, 1]] for one row of [X]. *)
Variable predict_proba : list float64 -> Q.

Definition score (df : list labeled_row) : list scored_row :=
  (fun r =>
     let p := predict_proba (feature_vector (features r)) in
     {| labeled := r; prob_initiation := p;
        pred_initiation := int_of_bool (negb (Qle_bool p (1 # 2))) |})
    <$> df.

(** Line 81. *)
Definition signals (df : list labeled_row) : list scored_row :=
  filter (fun s => pred_initiation s = 1%Z) (score df).

(** Lines 88-89. *)
Definition signals_up (df : list labeled_row) : list scored_row :=
  filter (fun s => Is_true (gtb (velocity s) (Some 0%Q))) (signals df).
Definition signals_down (df : list labeled_row) : list scored_row :=
  filter (fun s => Is_true (leb (velocity s) (Some 0%Q))) (signals df).
End Signals.

(** *** The name of the chart, lines 131-140 *)

Definition is_digit (c : ascii) : bool :=
  let n := nat_of_ascii c in (48 <=? n) && (n <=? 57).

(** The first [n] characters when there are that many and all are digits. *)
Fixpoint leading_digits (n : nat) (s : list ascii) : option (list ascii) :=
  match n with
  | O => Some []
  | S n' =>
      match s with
      | c :: rest =>
          if is_digit c then (c ::.) <$> leading_digits n' rest else None
      | [] => None
      end
  end.

(** [re.search(r'(\d{8})', s)] on an ASCII name: the leftmost run of [n]
    digits. *)
Fixpoint search_digits (n : nat) (s : list ascii) : option (list ascii) :=
  match leading_digits n s with
  | Some d => Some d
  | None =>
      match s with
      | [] => None
      | _ :: rest => search_digits n rest
      end
  end.

(** [base_name], from the file name of [csv_path]; [None] when no path was
    given. *)
Definition chart_base_name (csv_filename : option string) : string :=
  match csv_filename with
  | None => "ai_signals_chart"
  | Some f =>
      match search_digits 8 (list_ascii_of_string f) with
      | Some d => "ai_signals_" ++ string_of_list_ascii d
      | None => "ai_signals_chart"
      end
  end%string.

(** The file name of [tps_csv] in [forward_test_with_auto_process],
    line 29. *)
Definition tps_file_name (csv_file_name : string) : string :=
  ("tps_" ++ csv_file_name ++ ".csv")%string.

(** The file name of [raw_csv], line 28. *)
Definition raw_file_name (csv_file_name : string) : string :=
  (csv_file_name ++ ".csv")%string.

End Visualize.

(* ===================================================================== *)
(** ** Properties the statements below are phrased with *)
(* ===================================================================== *)

Module WindowSpec.
Import Float Rolling CleanData.

(** The index read as a sorted sequence. *)
Definition nondecreasing (idx : list Z) : Prop :=
  forall i j ti tj, i <= j -> idx !! i = Some ti -> idx !! j = Some tj ->
    (ti <= tj)%Z.

(** What the bounds loop establishes for row [i]: [s] is the first position
    whose index value lies strictly above [idx[i] - window]. *)
Definition window_start_ok (idx : list Z) (window : Z) (i s : nat) : Prop :=
  exists ti, idx !! i = Some ti
    /\ s <= i
    /\ (forall k t, k < s -> idx !! k = Some t -> (t <= ti - window)%Z)
    /\ (exists ts, idx !! s = Some ts /\ (ti - window < ts)%Z).

(** The ticks of a table whose timestamp lies in the interval (lo, hi]. *)
Definition ticks_in (lo hi : Z) (df : list tick) : list tick :=
  filter (fun t => (lo < Timestamp t <= hi)%Z) df.

(** Sum of the volumes of some ticks, a null volume adding nothing. *)
Definition total_volume (l : list tick) : Q := Qsum (omap Volumen l).

(** The same sum, written with a null volume counted as 0. *)
Definition total_volume_zero_filled (l : list tick) : Q :=
  Qsum ((fun t => default 0%Q (Volumen t)) <$> l).

Definition of_nat (n : nat) : float64 := Some (inject_Z (Z.of_nat n)).

(** [window_vol] read over every tick of the table in (T - window_ms, T]. *)
Definition window_vol_over_interval (df : list tick) (window_ms : Z)
    (r : indexed_row) : Prop :=
  let T := Timestamp (tick_of r) in
  exists v, window_vol r = Some v
    /\ (v == total_volume (ticks_in (T - ns_of_ms window_ms) T df))%Q.

(** [window_count] read over every tick of the table in
    (T - tps_window_sec, T]. *)
Definition window_count_over_interval (df : list tick) (tps_window_sec : Z)
    (r : indexed_row) : Prop :=
  let T := Timestamp (tick_of r) in
  exists c, window_count r = Some c
    /\ (c == inject_Z (Z.of_nat
               (length (ticks_in (T - ns_of_sec tps_window_sec) T df))))%Q.

(** A reference sort by timestamp that is stable, as [kind='stable'] would
    be: insertion from the right, each row placed before the first row that
    is not earlier.  It stands in for [sort_values] where an input is
    evaluated. *)
Fixpoint insert_by_Timestamp (t : tick) (l : list tick) : list tick :=
  match l with
  | [] => [t]
  | u :: l' =>
      if (Timestamp t <=? Timestamp u)%Z then t :: l
      else u :: insert_by_Timestamp t l'
  end.

Definition stable_sort (l : list tick) : list tick :=
  foldr insert_by_Timestamp [] l.

(** The rate [calc_tps] returns for a window of [k] counted ticks lasting
    [d] seconds, before rounding. *)
Definition unrounded_rate (k : nat) (d : Q) : Q :=
  if decide (k <= 1) then 0%Q
  else if Qle_bool d (1 # 1000) then inject_Z (Z.of_nat k)
  else (inject_Z (Z.of_nat k) / d)%Q.

(** *** Sample inputs *)

Definition raw_tick (t : Z) (p v : float64) : raw_row :=
  {| raw_Timestamp := Some t; raw_Precio := p; raw_Volumen := v;
     raw_Lado := Some "BUY"%string; raw_Bid := None; raw_Ask := None |}.

Definition a_tick (t : Z) (p v : float64) : tick :=
  {| Timestamp := t; Precio := p; Volumen := v;
     Lado := Some "BUY"%string; Bid := None; Ask := None |}.

(** Two ticks of one and the same timestamp. *)
Definition simultaneous_pair : list raw_row :=
  [ raw_tick 0 (Some 100%Q) (Some 1%Q); raw_tick 0 (Some 100%Q) (Some 2%Q) ].

(** One tick whose volume did not parse. *)
Definition lone_null_volume : list raw_row :=
  [ raw_tick 0 (Some 100%Q) None ].

(** Five ticks out of order, one without a timestamp, one without a
    volume; times in nanoseconds. *)
Definition mixed_ticks : list raw_row :=
  [ raw_tick 900000000 (Some 101%Q) (Some 4%Q);
    {| raw_Timestamp := None; raw_Precio := Some 100%Q;
       raw_Volumen := Some 9%Q; raw_Lado := None;
       raw_Bid := None; raw_Ask := None |};
    raw_tick 0 (Some 100%Q) (Some 1%Q);
    raw_tick 400000000 (Some 100%Q) None;
    raw_tick 500000000 (Some 102%Q) (Some 2%Q);
    raw_tick 900000000 (Some 103%Q) (Some 8%Q) ].

(** Two ticks one millisecond apart on 4 November 2025, at 00:00:00.021
    and 00:00:00.022 UTC, in nanoseconds since 1970. *)
Definition ticks_of_2025 : list raw_row :=
  [ raw_tick 1762214400021000000 (Some 100%Q) (Some 1%Q);
    raw_tick 1762214400022000000 (Some 100%Q) (Some 2%Q) ].

(** Four ticks, all with a volume. *)
Definition plain_ticks : list raw_row :=
  [ raw_tick 0 (Some 100%Q) (Some 1%Q);
    raw_tick 2000000000 (Some 100%Q) (Some 3%Q);
    raw_tick 12000000000 (Some 102%Q) (Some 2%Q);
    raw_tick 12500000000 (Some 103%Q) (Some 8%Q) ].

End WindowSpec.

Module LabelSpec.
Import Float Rolling Train.

(** Every column but [factor_tps] holds a value. *)
Definition others_notna (s : sample) : bool :=
  sample_notna (set_factor_tps (Some 0%Q) s).

(** The sample with a null [factor_tps] replaced by 0. *)
Definition zero_filled (s : sample) : sample :=
  set_factor_tps (fillna 0 (factor_tps s)) s.

(** [m] is the largest (smallest) price of a window. *)
Definition is_maximum_of (m : Q) (w : list float64) : Prop :=
  Some m ∈ w /\ forall q, Some q ∈ w -> (q <= m)%Q.
Definition is_minimum_of (m : Q) (w : list float64) : Prop :=
  Some m ∈ w /\ forall q, Some q ∈ w -> (m <= q)%Q.

(** The prices of the [future_window] rows after row [i]. *)
Definition following_prices (df : list feature_row) (i future_window : nat)
    : list float64 :=
  slice (S i) (S i + future_window) (row_price <$> df).

(** The prices of the [future_window] rows from row [i] on. *)
Definition forward_prices (df : list feature_row) (i future_window : nat)
    : list float64 :=
  slice i (i + future_window) (row_price <$> df).

(** The extrema of a labeled row read over the rows after it. *)
Definition extrema_of_following_rows (df : list feature_row)
    (future_window i : nat) (r : labeled_row) : Prop :=
  exists hi lo,
    future_price_max r = Some hi /\ future_price_min r = Some lo
    /\ is_maximum_of hi (following_prices df i future_window)
    /\ is_minimum_of lo (following_prices df i future_window).

(** A row without a definite label. *)
Definition unlabeled (r : labeled_row) : Prop :=
  is_initiation r <> 0%Z /\ is_initiation r <> 1%Z.

(** The final [future_window] rows are dropped or carry no label. *)
Definition final_rows_unlabeled (df : list feature_row)
    (tps_threshold price_move_threshold : Q) (future_window : nat) : Prop :=
  forall i r,
    length df - future_window <= i ->
    define_labels df tps_threshold price_move_threshold future_window !! i
      = Some r ->
    unlabeled r.

(** *** Sample inputs *)

Definition a_sample (p f : float64) : sample :=
  {| timestamp := Some 0%Z; price := p; volume := Some 1%Q;
     side := Some "BUY"%string; bid := Some 1%Q; ask := Some 1%Q;
     window_vol := Some 1%Q; tps_window := Some 1%Q; factor_tps := f |}.

(** A feature row of price [p] and burst factor [f]. *)
Definition a_row (i : nat) (p f : Q) : feature_row :=
  {| index_label := i; source := a_sample (Some p) (Some f);
     factor_tps_lag := replicate 5 (Some 0%Q);
     factor_tps_mean_5 := Some 0%Q; factor_tps_std_5 := Some 0%Q;
     price_velocity_5 := Some 0%Q |}.

(** Seven complete samples. *)
Definition seven_samples : list sample :=
  [ a_sample (Some 100%Q) (Some 10%Q); a_sample (Some 101%Q) (Some 20%Q);
    a_sample (Some 102%Q) (Some 30%Q); a_sample (Some 103%Q) (Some 40%Q);
    a_sample (Some 104%Q) (Some 50%Q); a_sample (Some 105%Q) (Some 60%Q);
    a_sample (Some 106%Q) (Some 70%Q) ].

(** Eight samples, one without a burst factor, one without a price. *)
Definition holed_samples : list sample :=
  [ a_sample (Some 100%Q) (Some 10%Q); a_sample (Some 101%Q) None;
    a_sample (Some 102%Q) (Some 30%Q); a_sample (Some 103%Q) (Some 40%Q);
    a_sample (Some 104%Q) (Some 50%Q); a_sample (Some 105%Q) None;
    a_sample None (Some 70%Q); a_sample (Some 107%Q) (Some 80%Q) ].

(** A high first price followed by lower ones. *)
Definition falling_prices : list feature_row :=
  [ a_row 5 10 5000; a_row 6 1 5000; a_row 7 1 5000 ].

(** A move of 4 points under a burst factor of 5000. *)
Definition short_table : list feature_row :=
  [ a_row 5 100 5000; a_row 6 104 5000; a_row 7 100 5000 ].

(** A rise of 4 points two rows after the first row, under a burst factor
    of 5000. *)
Definition stepped_prices : list feature_row :=
  [ a_row 5 100 5000; a_row 6 100 5000; a_row 7 104 5000; a_row 8 104 5000 ].

(** Rows on and around the two thresholds. *)
Definition boundary_table : list feature_row :=
  [ a_row 5 100 4000; a_row 6 (1035 # 10) 4001; a_row 7 100 4001;
    a_row 8 100 3999 ].

(** The identity in place of the square root, for evaluating examples. *)
Definition no_sqrt (q : Q) : Q := q.

End LabelSpec.


(* ===================================================================== *)
(** ** Names and sample inputs for the scripts as a whole *)
(* ===================================================================== *)

Module PipelineSpec.
Import Float Rolling Train Visualize LabelSpec.

(** The eight columns the model is fitted on and asked about. *)
Definition model_features : list string :=
  [ "factor_tps";
    "factor_tps_lag_1"; "factor_tps_lag_2"; "factor_tps_lag_3";
    "factor_tps_lag_4"; "factor_tps_lag_5";
    "factor_tps_mean_5"; "factor_tps_std_5" ]%string.

(** The columns [process_historical_file] adds and keeps. *)
Definition computed_names : list string :=
  [ "window_vol"; "tps_window"; "factor_tps" ]%string.

(** The names [load_data] replaces by other names. *)
Definition replaced_names : list string :=
  [ "Timestamp"; "Precio"; "Volumen"; "Lado"; "Bid"; "Ask" ]%string.

(** No name occurs twice. *)
Fixpoint distinct (names : list string) : bool :=
  match names with
  | [] => true
  | n :: rest => negb (CleanData.has_column n rest) && distinct rest
  end.

(** No window of [n] consecutive digits in [s]. *)
Definition no_digit_run (n : nat) (s : list ascii) : Prop :=
  forall pre d post,
    s = pre ++ d ++ post -> length d = n -> forallb is_digit d = false.

(** [d] is the leftmost window of [n] consecutive digits of [s]. *)
Definition leftmost_digit_run (n : nat) (s d : list ascii) : Prop :=
  exists pre post,
    s = pre ++ d ++ post /\ length d = n /\ forallb is_digit d = true
    /\ forall pre' d' post',
         s = pre' ++ d' ++ post' -> length d' = n ->
         forallb is_digit d' = true -> length pre <= length pre'.

(** *** Sample inputs *)

(** The header of a raw time-and-sales file. *)
Definition raw_header : list string :=
  [ "Timestamp"; "Precio"; "Volumen"; "Lado"; "Bid"; "Ask" ]%string.

(** A raw file with an extra column and no quotes. *)
Definition bare_header : list string :=
  [ "Id"; "Timestamp"; "Volumen" ]%string.

(** Column names with blanks around them, as the note in [load_data]
    expects. *)
Definition padded_header : list string :=
  [ " Timestamp"; "Precio "; " factor_tps " ]%string.

(** A loaded header with a column of the user's own. *)
Definition flagged_header : list string :=
  [ "timestamp"; "price"; "Flag"; "factor_tps" ]%string.

(** A model that is sure of every row. *)
Definition eager_model (x : list float64) : Q := 1.

(** Sixteen complete samples: a burst at row 5 followed by a rise of
    4 points within the next nine rows. *)
Definition bursting_samples : list sample :=
  replicate 5 (a_sample (Some 100%Q) (Some 10%Q))
  ++ [ a_sample (Some 100%Q) (Some 5000%Q) ]
  ++ replicate 5 (a_sample (Some 101%Q) (Some 10%Q))
  ++ [ a_sample (Some 104%Q) (Some 10%Q) ]
  ++ replicate 4 (a_sample (Some 104%Q) (Some 10%Q)).

End PipelineSpec.
(* ===================================================================== *)
(** ** Facts about cells and windows *)
(* ===================================================================== *)

Module FloatFacts.
Import Float.

Lemma gtb_gt a b : gtb a b = true <-> gt a b.
Proof.
  unfold gtb, gt. destruct a as [x|], b as [y|]; split;
    try discriminate;
    try (intros (? & ? & Hx & Hy & _); discriminate).
  - intros H. exists x, y. repeat split.
    apply negb_true_iff in H. apply Qnot_le_lt. intros Hle.
    apply Qle_bool_iff in Hle. congruence.
  - intros (x' & y' & Hx & Hy & Hlt). inversion Hx; inversion Hy; subst.
    apply negb_true_iff. destruct (Qle_bool x' y') eqn:E; [|reflexivity].
    apply Qle_bool_iff in E. exfalso. exact (Qlt_not_le _ _ Hlt E).
Qed.

Lemma geb_ge a b : geb a b = true <-> ge a b.
Proof.
  unfold geb, leb, ge. destruct a as [x|], b as [y|]; split;
    try discriminate;
    try (intros (? & ? & Hx & Hy & _); discriminate).
  - intros H. exists x, y. repeat split. by apply Qle_bool_iff.
  - intros (x' & y' & Hx & Hy & Hle). inversion Hx; inversion Hy; subst.
    by apply Qle_bool_iff.
Qed.

Lemma Qmax_cases x y : Qmax x y = x \/ Qmax x y = y.
Proof.
  unfold Qmax, GenericMinMax.gmax. destruct (x ?= y)%Q; auto.
Qed.

Lemma Qmin_cases x y : Qmin x y = x \/ Qmin x y = y.
Proof.
  unfold Qmin, GenericMinMax.gmin. destruct (x ?= y)%Q; auto.
Qed.

End FloatFacts.

Module RollingFacts.
Import Float Rolling WindowSpec.

Lemma monotonic_head t rest :
  is_monotonic_increasing (t :: rest) = true ->
  Forall (fun u => (t <= u)%Z) rest /\ is_monotonic_increasing rest = true.
Proof.
  revert t. induction rest as [|u rest IH]; intros t H.
  - split; [constructor | reflexivity].
  - cbn [is_monotonic_increasing] in H.
    apply andb_true_iff in H as [Htu Hrest].
    apply Z.leb_le in Htu.
    destruct (IH u Hrest) as [Hall Hmono].
    split; [|exact Hrest].
    constructor; [exact Htu|].
    eapply Forall_impl; [|exact Hall]. intros v Hv. simpl in Hv. lia.
Qed.

Lemma monotonic_nondecreasing idx :
  is_monotonic_increasing idx = true -> nondecreasing idx.
Proof.
  induction idx as [|t rest IH]; intros H i j ti tj Hij Hi Hj.
  - by rewrite lookup_nil in Hi.
  - destruct (monotonic_head _ _ H) as [Hall Hrest].
    destruct i as [|i], j as [|j]; simpl in Hi, Hj.
    + simplify_eq. lia.
    + simplify_eq. exact (Forall_lookup_1 _ _ _ _ Hall Hj).
    + lia.
    + eapply (IH Hrest i j); [lia | done | done].
Qed.

Lemma first_inside_spec idx bound fuel : forall j,
  j + fuel <= length idx ->
  let s := first_inside idx bound j fuel in
  j <= s <= j + fuel
  /\ (forall k t, j <= k < s -> idx !! k = Some t -> (t <= bound)%Z)
  /\ (s < j + fuel -> exists t, idx !! s = Some t /\ (bound < t)%Z).
Proof.
  induction fuel as [|fuel IH]; intros j Hlen; simpl.
  - repeat split; intros; lia.
  - destruct (idx !! j) as [t|] eqn:Hj.
    + destruct (bound <? t)%Z eqn:Hb.
      * apply Z.ltb_lt in Hb.
        split; [lia|]. split; [intros k u Hk; lia|].
        intros _. by exists t.
      * apply Z.ltb_ge in Hb.
        destruct (IH (S j) ltac:(lia)) as (Hr & Hbelow & Hfound).
        split; [lia|]. split.
        -- intros k u Hk Hu.
           destruct (decide (k = j)) as [->|Hne].
           ++ simplify_eq. exact Hb.
           ++ apply (Hbelow k u); [lia | done].
        -- intros Hs. apply Hfound. lia.
    + apply lookup_ge_None in Hj. lia.
Qed.

Lemma starts_from_spec idx window :
  nondecreasing idx -> (0 < window)%Z ->
  forall todo prev i,
    drop i idx = todo ->
    prev <= i ->
    (forall k t ti, k < prev -> idx !! k = Some t -> idx !! i = Some ti ->
       (t <= ti - window)%Z) ->
    forall m s, starts_from idx window prev i todo !! m = Some s ->
      window_start_ok idx window (i + m) s.
Proof.
  intros Hsorted Hw.
  induction todo as [|t todo IH]; intros prev i Hdrop Hprev Hbelow m s Hs.
  - simpl in Hs. by destruct m.
  - assert (Hi : idx !! i = Some t).
    { rewrite <- (Nat.add_0_r i), <- lookup_drop, Hdrop. reflexivity. }
    assert (Hdrop' : drop (S i) idx = todo).
    { erewrite drop_S in Hdrop by exact Hi. by simplify_eq. }
    assert (Hilen : i < length idx) by (eapply lookup_lt_Some; exact Hi).
    cbn [starts_from] in Hs.
    pose proof (first_inside_spec idx (t - window) (i - prev) prev
                  ltac:(lia)) as Hspec.
    cbv zeta in Hspec.
    set (s0 := first_inside idx (t - window) prev (i - prev)) in *.
    destruct Hspec as (Hrange & Hlow & Hfound).
    assert (Hall : forall k u, k < s0 -> idx !! k = Some u ->
                     (u <= t - window)%Z).
    { intros k u Hk Hu. destruct (decide (k < prev)) as [Hlt|Hge].
      - by apply (Hbelow k u t).
      - apply (Hlow k u); [lia | done]. }
    destruct m as [|m]; simpl in Hs.
    + assert (s = s0) as -> by congruence.
      rewrite Nat.add_0_r. exists t.
      split; [done|]. split; [lia|]. split; [exact Hall|].
      destruct (decide (s0 < i)) as [Hlt|Hge].
      * apply Hfound. lia.
      * assert (s0 = i) as -> by lia. exists t. split; [done | lia].
    + replace (i + S m) with (S i + m) by lia.
      apply (IH s0 (S i)); [done | lia | | done].
      intros k u ti' Hk Hu Hti'.
      pose proof (Hall k u Hk Hu).
      pose proof (Hsorted i (S i) t ti' ltac:(lia) Hi Hti'). lia.
Qed.

Lemma variable_window_starts_spec idx window i s :
  nondecreasing idx -> (0 < window)%Z ->
  variable_window_starts idx window !! i = Some s ->
  window_start_ok idx window i s.
Proof.
  intros Hsorted Hw Hs. destruct idx as [|t0 todo]; [done|].
  cbn [variable_window_starts] in Hs.
  destruct i as [|i]; simpl in Hs.
  - simplify_eq. exists t0. split; [done|]. split; [lia|].
    split; [intros k t Hk; lia|]. exists t0. split; [done | lia].
  - replace (S i) with (1 + i) by lia.
    eapply (starts_from_spec _ _ Hsorted Hw todo 0 1); [done | lia | | done].
    intros k t ti Hk. lia.
Qed.

Lemma length_starts_from idx window todo : forall prev i,
  length (starts_from idx window prev i todo) = length todo.
Proof. induction todo as [|t todo IH]; intros; simpl; [done | by rewrite IH]. Qed.

Lemma length_variable_window_starts idx window :
  length (variable_window_starts idx window) = length idx.
Proof.
  destruct idx; simpl; [done|]. by rewrite length_starts_from.
Qed.

Lemma lookup_closed_right_ends n i e :
  closed_right_ends n !! i = Some e <-> e = S i /\ i < n.
Proof.
  unfold closed_right_ends. rewrite list_lookup_fmap_Some. split.
  - intros (k & -> & Hk). apply lookup_seq in Hk as [-> ?]. done.
  - intros [-> Hi]. exists i. split; [done|]. by apply lookup_seq.
Qed.

Lemma lookup_rolling_apply {A B} starts ends (agg : list A -> B) values i v :
  rolling_apply starts ends agg values !! i = Some v <->
  exists s e, starts !! i = Some s /\ ends !! i = Some e
              /\ v = agg (slice s e values).
Proof.
  unfold rolling_apply. rewrite lookup_zip_with_Some. split.
  - intros (s & e & -> & Hs & He). by exists s, e.
  - intros (s & e & Hs & He & ->). by exists s, e.
Qed.

Lemma length_rolling_apply {A B} starts ends (agg : list A -> B) values :
  length (rolling_apply starts ends agg values)
  = length starts `min` length ends.
Proof. unfold rolling_apply. apply length_zip_with. Qed.

Lemma filter_none {A} (P : A -> Prop) `{forall x, Decision (P x)} (l : list A) :
  Forall (fun x => ~ P x) l -> filter P l = [].
Proof.
  induction 1 as [|x l Hx _ IH]; [done|].
  by rewrite filter_cons_False.
Qed.

Lemma filter_all {A} (P : A -> Prop) `{forall x, Decision (P x)} (l : list A) :
  Forall P l -> filter P l = l.
Proof.
  induction 1 as [|x l Hx _ IH]; [done|].
  rewrite filter_cons_True by done. by rewrite IH.
Qed.

Lemma length_observations_all (w : list float64) :
  forallb notna w = true -> length (observations w) = length w.
Proof.
  unfold observations. induction w as [|c w IH]; [done|]. csimpl.
  intros H. apply andb_true_iff in H as [Hc Hw].
  destruct c; [|done]. csimpl. by rewrite IH.
Qed.

Lemma length_observations_le (w : list float64) :
  length (observations w) <= length w.
Proof.
  unfold observations. induction w as [|c w IH]; [done|]. csimpl.
  destruct c; csimpl; lia.
Qed.

(** A window without nulls is the list of its observations. *)
Lemma observations_full (w : list float64) :
  length w <= length (observations w) -> w = Some <$> observations w.
Proof.
  unfold observations. induction w as [|c w IH]; [done|]. csimpl.
  pose proof (length_observations_le w) as Hle. unfold observations in Hle.
  destruct c; csimpl; intros H.
  - f_equal. apply IH. lia.
  - lia.
Qed.

Lemma elem_of_observations (w : list float64) q :
  q ∈ observations w <-> Some q ∈ w.
Proof.
  unfold observations. rewrite list_elem_of_omap. split.
  - intros (c & Hc & Hq). simpl in Hq. by subst.
  - intros H. by exists (Some q).
Qed.

Lemma length_slice {A} s e (l : list A) :
  length (slice s e l) = (e `min` length l) - s.
Proof. unfold slice. by rewrite length_drop, length_take. Qed.

Lemma lookup_slice {A} s e (l : list A) k :
  s + k < e -> slice s e l !! k = l !! (s + k).
Proof. intros H. unfold slice. by rewrite lookup_drop, lookup_take_lt. Qed.

Lemma slice_clip {A} s e (l : list A) :
  slice s (e `min` length l) l = slice s e l.
Proof.
  unfold slice. f_equal.
  destruct (decide (e <= length l)) as [Hle|Hgt].
  - by rewrite Nat.min_l.
  - rewrite Nat.min_r by lia. rewrite !take_ge by lia. done.
Qed.

Lemma lookup_fixed_window_starts n len i :
  i < len -> fixed_window_starts n len !! i = Some (S i - n).
Proof.
  intros Hi. unfold fixed_window_starts.
  by rewrite list_lookup_fmap, lookup_seq_lt.
Qed.

Lemma lookup_forward_window_ends ws len i :
  i < len -> forward_window_ends ws len !! i = Some ((i + ws) `min` len).
Proof.
  intros Hi. unfold forward_window_ends.
  by rewrite list_lookup_fmap, lookup_seq_lt.
Qed.

Lemma lookup_forward_window_starts len i :
  i < len -> forward_window_starts len !! i = Some i.
Proof. intros Hi. unfold forward_window_starts. by rewrite lookup_seq_lt. Qed.

End RollingFacts.

(* ===================================================================== *)
(** ** Facts about the cast of int64 to float64 *)
(* ===================================================================== *)

Module CastFacts.
Import Float.
Local Open Scope Z_scope.

Lemma round_magnitude_small n :
  0 <= n < 2 ^ 53 -> round_magnitude n = n.
Proof.
  intros [Hlo Hhi]. unfold round_magnitude.
  destruct (Z.ltb_spec (Z.log2 n) 53) as [|Hge]; [done|].
  exfalso. assert (0 < n) as Hpos.
  { destruct (Z.eq_dec n 0) as [->|]; [|lia]. by compute in Hge. }
  apply (Z.log2_lt_pow2 n 53 Hpos) in Hhi. lia.
Qed.

(** From [2^53] on, the cast picks one of the two neighbouring multiples of
    the unit in the last place. *)
Lemma round_magnitude_cases n :
  53 <= Z.log2 n ->
  exists ulp q r,
    ulp = 2 ^ (Z.log2 n - 52) /\ 0 < ulp
    /\ n = q * ulp + r /\ 0 <= r < ulp
    /\ 2 ^ 52 <= q < 2 ^ 53
    /\ 2 ^ Z.log2 n = 2 ^ 52 * ulp
    /\ ((round_magnitude n = q * ulp
         /\ (2 * r < ulp \/ (2 * r = ulp /\ Z.even q = true)))
        \/ (round_magnitude n = (q + 1) * ulp
            /\ (ulp < 2 * r \/ (2 * r = ulp /\ Z.even q = false)))).
Proof.
  intros He.
  assert (Hpos : 0 < n).
  { destruct (Z_lt_le_dec 0 n) as [|Hle]; [done|].
    rewrite (Z.log2_nonpos n Hle) in He. lia. }
  destruct (Z.log2_spec n Hpos) as [Hlow Hhigh].
  set (e := Z.log2 n) in *.
  set (ulp := 2 ^ (e - 52)).
  assert (Hulp : 0 < ulp) by (apply Z.pow_pos_nonneg; lia).
  assert (Hpow : 2 ^ e = 2 ^ 52 * ulp).
  { unfold ulp. rewrite <- Z.pow_add_r by lia. f_equal. lia. }
  assert (Hpow' : 2 ^ Z.succ e = 2 ^ 53 * ulp).
  { unfold ulp. rewrite <- Z.pow_add_r by lia. f_equal. lia. }
  pose proof (Z.div_mod n ulp ltac:(lia)) as Hdm.
  pose proof (Z.mod_pos_bound n ulp Hulp) as Hr.
  set (q := n / ulp) in *. set (r := n mod ulp) in *.
  assert (Hq : 2 ^ 52 <= q < 2 ^ 53).
  { rewrite Hpow in Hlow. rewrite Hpow' in Hhigh.
    generalize dependent (2 ^ 52). generalize dependent (2 ^ 53).
    intros. nia. }
  exists ulp, q, r.
  split; [done|]. split; [done|]. split; [lia|]. split; [done|].
  split; [done|]. split; [done|].
  unfold round_magnitude. fold e.
  destruct (Z.ltb_spec e 53) as [|_]; [lia|].
  fold ulp. fold q. fold r.
  destruct (Z.compare_spec (2 * r) ulp) as [Heq|Hlt|Hgt].
  - destruct (Z.even q) eqn:Hev; [left | right]; (split; [done|]);
      right; by split.
  - left. split; [done|]. by left.
  - right. split; [done|]. by left.
Qed.

Lemma round_magnitude_bounds n :
  53 <= Z.log2 n ->
  2 ^ Z.log2 n <= round_magnitude n <= 2 ^ (Z.log2 n + 1).
Proof.
  intros He.
  destruct (round_magnitude_cases n He)
    as (ulp & q & r & Hu & Hulp & Hn & Hr & Hq & Hpow & Hcases).
  assert (Hpow' : 2 ^ (Z.log2 n + 1) = 2 ^ 53 * ulp).
  { rewrite Hu, <- Z.pow_add_r by lia. f_equal. lia. }
  rewrite Hpow, Hpow'.
  generalize dependent (2 ^ 52). generalize dependent (2 ^ 53).
  intros. destruct Hcases as [[-> _]|[-> _]]; nia.
Qed.

Lemma round_magnitude_nonneg n : 0 <= n -> 0 <= round_magnitude n.
Proof.
  intros Hn. destruct (Z_lt_le_dec (Z.log2 n) 53) as [Hlt|Hge].
  - unfold round_magnitude. by destruct (Z.ltb_spec (Z.log2 n) 53); [|lia].
  - pose proof (round_magnitude_bounds n Hge) as [Hlo _].
    pose proof (Z.pow_pos_nonneg 2 (Z.log2 n) ltac:(lia) ltac:(lia)). lia.
Qed.

Lemma round_magnitude_mono x y :
  0 <= x <= y -> round_magnitude x <= round_magnitude y.
Proof.
  intros [Hx Hxy].
  pose proof (Z.log2_le_mono x y Hxy) as Hlog.
  destruct (Z_lt_le_dec (Z.log2 y) 53) as [Hy|Hy].
  - unfold round_magnitude.
    destruct (Z.ltb_spec (Z.log2 x) 53); [|lia].
    by destruct (Z.ltb_spec (Z.log2 y) 53); [|lia].
  - pose proof (round_magnitude_bounds y Hy) as [Hylo _].
    destruct (Z_lt_le_dec (Z.log2 x) 53) as [Hsmall|Hbig].
    + assert (round_magnitude x = x) as ->.
      { unfold round_magnitude.
        by destruct (Z.ltb_spec (Z.log2 x) 53); [|lia]. }
      pose proof (Z.pow_pos_nonneg 2 (Z.log2 y) ltac:(lia) ltac:(lia)).
      destruct (Z.eq_dec x 0) as [->|Hx0]; [lia|].
      destruct (Z.log2_spec x ltac:(lia)) as [_ Hhigh].
      pose proof (Z.pow_le_mono_r 2 (Z.succ (Z.log2 x)) (Z.log2 y)
                    ltac:(lia) ltac:(lia)).
      lia.
    + pose proof (round_magnitude_bounds x Hbig) as [_ Hxhi].
      destruct (Z.eq_dec (Z.log2 x) (Z.log2 y)) as [Heq|Hne].
      * destruct (round_magnitude_cases x Hbig)
          as (ulp & q & r & Hu & Hulp & Hn & Hr & _ & _ & Hcx).
        destruct (round_magnitude_cases y Hy)
          as (ulp' & q' & r' & Hu' & _ & Hn' & Hr' & _ & _ & Hcy).
        rewrite <- Heq, <- Hu in Hu'. subst ulp'.
        assert (q <= q') as Hqq by nia.
        destruct (Z.eq_dec q q') as [<-|Hqne].
        -- assert (r <= r') by nia.
           destruct Hcx as [[-> _]|[-> Hup]],
             Hcy as [[-> Hdown]|[-> _]]; try nia.
           destruct Hup as [|[? Hodd]], Hdown as [|[? Heven]];
             try lia. congruence.
        -- assert (q + 1 <= q') by lia.
           destruct Hcx as [[-> _]|[-> _]], Hcy as [[-> _]|[-> _]]; nia.
      * assert (Z.log2 x + 1 <= Z.log2 y) as Hstep by lia.
        pose proof (Z.pow_le_mono_r 2 _ _ ltac:(lia) Hstep). lia.
Qed.

(** Within the int64 range the cast moves a number by at most 512. *)
Lemma round_magnitude_error n :
  0 <= n <= 2 ^ 63 -> Z.abs (round_magnitude n - n) <= 512.
Proof.
  intros [Hlo Hhi].
  destruct (Z_lt_le_dec (Z.log2 n) 53) as [Hsmall|Hbig].
  - unfold round_magnitude.
    destruct (Z.ltb_spec (Z.log2 n) 53); [|lia]. lia.
  - destruct (Z.eq_dec n (2 ^ 63)) as [->|Hne]; [by vm_compute|].
    assert (0 < n) as Hpos.
    { destruct (Z_lt_le_dec 0 n) as [|Hle]; [done|].
      rewrite (Z.log2_nonpos n Hle) in Hbig. lia. }
    assert (Z.log2 n < 63) as He by (apply Z.log2_lt_pow2; lia).
    destruct (round_magnitude_cases n Hbig)
      as (ulp & q & r & Hu & Hulp & Hn & Hr & _ & _ & Hcases).
    assert (ulp <= 2 ^ 10) as Hsize.
    { rewrite Hu. apply Z.pow_le_mono_r; lia. }
    change (2 ^ 10) with 1024 in Hsize.
    destruct Hcases as [[-> Hc]|[-> Hc]]; lia.
Qed.

Lemma float64_of_int64_small z :
  Z.abs z < 2 ^ 53 -> float64_of_int64 z = z.
Proof.
  intros Hz. unfold float64_of_int64.
  rewrite round_magnitude_small by lia. lia.
Qed.

Lemma float64_of_int64_mono x y :
  x <= y -> float64_of_int64 x <= float64_of_int64 y.
Proof.
  intros Hxy. unfold float64_of_int64.
  pose proof (round_magnitude_nonneg (Z.abs x) ltac:(lia)) as Hx.
  pose proof (round_magnitude_nonneg (Z.abs y) ltac:(lia)) as Hy.
  destruct (Z_lt_le_dec x 0) as [Hxn|Hxp], (Z_lt_le_dec y 0) as [Hyn|Hyp].
  - pose proof (round_magnitude_mono (Z.abs y) (Z.abs x) ltac:(lia)).
    rewrite !Z.sgn_neg by lia. lia.
  - rewrite (Z.sgn_neg x) by lia.
    destruct (Z.sgn_spec y) as [[? ->]|[[? ->]|[? ->]]]; lia.
  - lia.
  - pose proof (round_magnitude_mono (Z.abs x) (Z.abs y) ltac:(lia)).
    destruct (Z.eq_dec x 0) as [->|Hx0].
    + simpl. destruct (Z.sgn_spec y) as [[? ->]|[[? ->]|[? ->]]]; lia.
    + rewrite !Z.sgn_pos by lia. lia.
Qed.

Lemma float64_of_int64_error z :
  - 2 ^ 63 <= z <= 2 ^ 63 -> Z.abs (float64_of_int64 z - z) <= 512.
Proof.
  intros Hz. unfold float64_of_int64.
  pose proof (round_magnitude_error (Z.abs z) ltac:(lia)) as Herr.
  destruct (Z.sgn_spec z) as [[? ->]|[[? ->]|[? ->]]]; lia.
Qed.

End CastFacts.

(* ===================================================================== *)
(** ** Ingestion: dropping and ordering *)
(* ===================================================================== *)

Module Ingestion.
Import Float Rolling CleanData WindowSpec RollingFacts.

(** Exactly the rows with a timestamp survive, in their order. *)
Lemma dropna_Timestamp_timestamps (raw : list raw_row) :
  Some <$> (Timestamp <$> dropna_Timestamp raw)
  = filter (fun c => is_Some c) (raw_Timestamp <$> raw).
Proof.
  unfold dropna_Timestamp. induction raw as [|r raw IH]; [done|].
  csimpl. destruct (raw_Timestamp r) as [t|] eqn:Ht; csimpl.
  - rewrite filter_cons_True by (by eexists). by rewrite IH.
  - rewrite filter_cons_False by (by intros [? ?]). exact IH.
Qed.

Lemma monotonic_cons t idx :
  Forall (fun u => (t <= u)%Z) idx ->
  is_monotonic_increasing idx = true ->
  is_monotonic_increasing (t :: idx) = true.
Proof.
  intros Hall Hmono. destruct idx as [|u idx]; [done|].
  cbn [is_monotonic_increasing]. apply andb_true_iff. split; [|exact Hmono].
  apply Z.leb_le. by inversion Hall.
Qed.

Lemma insert_by_Timestamp_perm t l : insert_by_Timestamp t l ≡ₚ t :: l.
Proof.
  induction l as [|u l IH]; simpl; [done|].
  destruct (Timestamp t <=? Timestamp u)%Z; [done|].
  rewrite IH. apply Permutation_swap.
Qed.

Lemma insert_by_Timestamp_monotonic t l :
  is_monotonic_increasing (Timestamp <$> l) = true ->
  is_monotonic_increasing (Timestamp <$> insert_by_Timestamp t l) = true.
Proof.
  induction l as [|u l IH]; intros Hmono; [done|]. simpl.
  destruct (Timestamp t <=? Timestamp u)%Z eqn:Hle.
  - csimpl. cbn [is_monotonic_increasing]. by rewrite Hle.
  - apply Z.leb_gt in Hle. csimpl in *.
    destruct (monotonic_head _ _ Hmono) as [Hall Hrest].
    apply monotonic_cons; [|by apply IH].
    rewrite insert_by_Timestamp_perm. csimpl.
    constructor; [lia | exact Hall].
Qed.

(** The reference sort orders the table, keeps all rows, and leaves rows of
    equal time in their order of arrival. *)
Lemma stable_sort_perm l : stable_sort l ≡ₚ l.
Proof.
  induction l as [|t l IH]; simpl; [done|].
  by rewrite insert_by_Timestamp_perm, IH.
Qed.

Lemma stable_sort_monotonic l :
  is_monotonic_increasing (Timestamp <$> stable_sort l) = true.
Proof.
  induction l as [|t l IH]; simpl; [done|].
  by apply insert_by_Timestamp_monotonic.
Qed.

Lemma insert_by_Timestamp_ties T t l :
  filter (fun u => Timestamp u = T) (insert_by_Timestamp t l)
  = filter (fun u => Timestamp u = T) (t :: l).
Proof.
  set (P := fun u : tick => Timestamp u = T).
  induction l as [|u l IH]; [done|]. cbn [insert_by_Timestamp].
  destruct (Timestamp t <=? Timestamp u)%Z eqn:Hle; [done|].
  apply Z.leb_gt in Hle.
  destruct (decide (P u)) as [Hu|Hu]; unfold P in Hu.
  - rewrite (filter_cons_True P u) by done. rewrite IH.
    rewrite !(filter_cons_False P t) by (unfold P; lia).
    by rewrite (filter_cons_True P u) by done.
  - rewrite (filter_cons_False P u) by done. rewrite IH.
    destruct (decide (P t)) as [Ht|Ht].
    + rewrite !(filter_cons_True P t) by done.
      by rewrite (filter_cons_False P u) by done.
    + rewrite !(filter_cons_False P t) by done.
      by rewrite (filter_cons_False P u) by done.
Qed.

Lemma stable_sort_keeps_ties T l :
  filter (fun u => Timestamp u = T) (stable_sort l)
  = filter (fun u => Timestamp u = T) l.
Proof.
  induction l as [|t l IH]; [done|].
  change (stable_sort (t :: l)) with (insert_by_Timestamp t (stable_sort l)).
  rewrite insert_by_Timestamp_ties.
  set (P := fun u : tick => Timestamp u = T) in *.
  destruct (decide (P t)) as [Ht|Ht].
  - rewrite !(filter_cons_True P t) by done. by rewrite IH.
  - rewrite !(filter_cons_False P t) by done. exact IH.
Qed.

(** Whatever the sort does with ties, a sort that orders its input yields
    an ordered tick table. *)
Lemma ordered_ticks_monotonic sort_values raw :
  (forall l, is_monotonic_increasing (Timestamp <$> sort_values l) = true) ->
  is_monotonic_increasing (Timestamp <$> ordered_ticks sort_values raw) = true.
Proof.
  intros Hsort. unfold ordered_ticks, sort_index.
  destruct (is_monotonic_increasing
              (Timestamp <$> sort_values (dropna_Timestamp raw))) eqn:E.
  - exact E.
  - apply Hsort.
Qed.

End Ingestion.

(* ===================================================================== *)
(** ** The window engine *)
(* ===================================================================== *)

Module WindowEngine.
Import Float Rolling CleanData WindowSpec RollingFacts.

Lemma slice_fmap {A B} (f : A -> B) s e (l : list A) :
  slice s e (f <$> l) = f <$> slice s e l.
Proof. unfold slice. by rewrite fmap_drop, fmap_take. Qed.

(** Over a sorted table the rows between the window start and the current
    row are the rows, up to the current one, whose time lies in the
    interval. *)
Lemma slice_trailing_window (df : list tick) window i s ti :
  nondecreasing (Timestamp <$> df) ->
  window_start_ok (Timestamp <$> df) window i s ->
  (Timestamp <$> df) !! i = Some ti ->
  slice s (S i) df = ticks_in (ti - window) ti (take (S i) df).
Proof.
  intros Hsorted (ti' & Hi' & Hsi & Hbelow & ts & Hs & Hts) Hi.
  assert (ti' = ti) as -> by congruence.
  unfold ticks_in, slice.
  rewrite <- (take_drop s (take (S i) df)) at 2.
  rewrite take_take, (Nat.min_l s (S i)) by lia.
  rewrite list.filter_app, filter_none, filter_all; [done | |].
  - apply Forall_lookup. intros k x Hk.
    rewrite lookup_drop in Hk. apply lookup_take_Some in Hk as [Hk Hlt].
    assert (Hkx : (Timestamp <$> df) !! (s + k) = Some (Timestamp x)).
    { by rewrite list_lookup_fmap, Hk. }
    pose proof (Hsorted s (s + k) _ _ ltac:(lia) Hs Hkx).
    pose proof (Hsorted (s + k) i _ _ ltac:(lia) Hkx Hi). lia.
  - apply Forall_lookup. intros k x Hk.
    apply lookup_take_Some in Hk as [Hk Hlt].
    assert (Hkx : (Timestamp <$> df) !! k = Some (Timestamp x)).
    { by rewrite list_lookup_fmap, Hk. }
    pose proof (Hbelow k _ Hlt Hkx). lia.
Qed.

(** The cells of one row of the window frame, column by column. *)
Lemma lookup_window_features df window_ms tps_window_sec i r :
  window_features df window_ms tps_window_sec !! i = Some r ->
  df !! i = Some (tick_of r)
  /\ window_vol_col df window_ms !! i = Some (window_vol r)
  /\ duration_sec df tps_window_sec !! i = Some (window_duration r)
  /\ window_count_col df tps_window_sec !! i = Some (window_count r)
  /\ tps_window_col df tps_window_sec !! i = Some (tps_window r)
  /\ factor_tps_col df window_ms tps_window_sec !! i = Some (factor_tps r).
Proof.
  unfold window_features. intros H.
  apply lookup_zip_with_Some in H as ([[t wv] dur] & [[cnt tps] fac] & -> & H1 & H2).
  apply lookup_zip_with_Some in H1 as ([t' wv'] & dur' & E1 & H1 & Hdur).
  apply lookup_zip_with_Some in H1 as (t'' & wv'' & E1' & Ht & Hwv).
  apply lookup_zip_with_Some in H2 as ([cnt' tps'] & fac' & E2 & H2 & Hfac).
  apply lookup_zip_with_Some in H2 as (cnt'' & tps'' & E2' & Hcnt & Htps).
  simplify_eq. simpl. done.
Qed.

(** The window of row [i] of a rolling column over a sorted table. *)
Lemma variable_window_slice (df : list tick) window i s t :
  is_monotonic_increasing (Timestamp <$> df) = true ->
  (0 < window)%Z ->
  df !! i = Some t ->
  variable_window_starts (Timestamp <$> df) window !! i = Some s ->
  slice s (S i) df
  = ticks_in (Timestamp t - window) (Timestamp t) (take (S i) df).
Proof.
  intros Hmono Hw Ht Hs.
  apply monotonic_nondecreasing in Hmono.
  eapply slice_trailing_window; [done | | by rewrite list_lookup_fmap, Ht].
  by apply variable_window_starts_spec.
Qed.

(** A rolling column over the time index, read at row [i]. *)
Lemma lookup_time_rolling {B} (df : list tick) window
    (agg : list float64 -> B) (col : tick -> float64) i t v :
  is_monotonic_increasing (Timestamp <$> df) = true ->
  (0 < window)%Z ->
  df !! i = Some t ->
  rolling_apply (variable_window_starts (Timestamp <$> df) window)
    (closed_right_ends (length df)) agg (col <$> df) !! i = Some v ->
  v = agg (col <$> ticks_in (Timestamp t - window) (Timestamp t)
                     (take (S i) df)).
Proof.
  intros Hmono Hw Ht Hv.
  apply lookup_rolling_apply in Hv as (s & e & Hs & He & ->).
  apply lookup_closed_right_ends in He as [-> _].
  rewrite slice_fmap. f_equal. f_equal.
  by apply variable_window_slice.
Qed.

Lemma observations_fmap {A} (col : A -> float64) (l : list A) :
  observations (col <$> l) = omap col l.
Proof.
  unfold observations. induction l as [|x l IH]; [done|].
  csimpl. destruct (col x); csimpl; by rewrite IH.
Qed.

Lemma roll_sum_volumes (l : list tick) :
  roll_sum 1 (Volumen <$> l)
  = match omap Volumen l with
    | [] => None
    | _ :: _ => Some (total_volume l)
    end.
Proof.
  unfold roll_sum, total_volume. rewrite observations_fmap.
  destruct (omap Volumen l) as [|v vs].
  - done.
  - by rewrite decide_True by (simpl; lia).
Qed.

Lemma total_volume_zero_fill (l : list tick) :
  (total_volume l == total_volume_zero_filled l)%Q.
Proof.
  unfold total_volume, total_volume_zero_filled.
  induction l as [|t l IH]; simpl; [reflexivity|].
  destruct (Volumen t) as [v|]; simpl.
  - by rewrite IH.
  - rewrite IH. by rewrite Qplus_0_l.
Qed.

Lemma Qsum_indicator (w : list float64) :
  Qsum (observations ((fun c => Some (if notna c then 1%Q else 0%Q)) <$> w))
  = inject_Z (Z.of_nat (length (observations w))).
Proof.
  unfold observations. induction w as [|c w IH]; [done|].
  cbn [fmap list_fmap omap list_omap id Qsum foldr].
  fold (Qsum (omap id ((fun c => Some (if notna c then 1%Q else 0%Q)) <$> w))).
  rewrite IH. destruct c as [x|]; simpl notna; cbv iota.
  - cbn [length]. unfold Qplus, inject_Z. simpl Qden. simpl Qnum.
    f_equal. lia.
  - unfold Qplus, inject_Z. simpl Qden. simpl Qnum. f_equal. lia.
Qed.

Lemma length_indicator_observations (w : list float64) :
  length (observations
            ((fun c => Some (if notna c then 1%Q else 0%Q)) <$> w))
  = length w.
Proof.
  unfold observations. induction w as [|c w IH]; [done|].
  csimpl. by rewrite IH.
Qed.

(** [count] over a window that holds at least one row: the number of its
    cells that are not null. *)
Lemma roll_count_volumes (l : list tick) :
  l <> [] ->
  roll_count 1 (Volumen <$> l) = of_nat (length (omap Volumen l)).
Proof.
  intros Hne. unfold roll_count, roll_sum.
  rewrite length_indicator_observations, Qsum_indicator, observations_fmap.
  rewrite length_fmap. destruct l; [done|].
  by rewrite decide_True by (simpl; lia).
Qed.

Lemma length_window_features df window_ms tps_window_sec :
  length (window_features df window_ms tps_window_sec) = length df.
Proof.
  unfold window_features, factor_tps_col, tps_window_col, duration_sec,
    min_ts_in_window, window_count_col, window_vol_col, ts_series.
  repeat first
    [ rewrite length_zip_with | rewrite length_fmap
    | rewrite length_rolling_apply
    | rewrite length_variable_window_starts ].
  unfold closed_right_ends. rewrite length_fmap, length_seq. lia.
Qed.

Lemma window_features_total df window_ms tps_window_sec i t :
  df !! i = Some t ->
  exists r, window_features df window_ms tps_window_sec !! i = Some r
            /\ tick_of r = t.
Proof.
  intros Ht.
  destruct (lookup_lt_is_Some_2 (window_features df window_ms tps_window_sec) i)
    as [r Hr].
  { rewrite length_window_features. by eapply lookup_lt_Some. }
  exists r. split; [done|].
  apply lookup_window_features in Hr as (Ht' & _). congruence.
Qed.

(** The current tick lies in its own trailing window. *)
Lemma current_tick_in_window (df : list tick) window i t :
  (0 < window)%Z -> df !! i = Some t ->
  t ∈ ticks_in (Timestamp t - window) (Timestamp t) (take (S i) df).
Proof.
  intros Hw Ht. unfold ticks_in. apply list_elem_of_filter. split; [lia|].
  apply list_elem_of_lookup. exists i. rewrite lookup_take_lt by lia. done.
Qed.

(** Over an already ordered table [sort_index] changes nothing, so the
    window columns are computed on the ordered ticks themselves. *)
Lemma monotonic_ordered_index sort_values raw :
  is_monotonic_increasing (Timestamp <$> ordered_ticks sort_values raw) = true ->
  nondecreasing (Timestamp <$> ordered_ticks sort_values raw).
Proof. apply monotonic_nondecreasing. Qed.

(** In the branch of [calc_tps] for a window of more than one tick lasting
    at most a millisecond, the count itself is returned. *)
Lemma calc_tps_short_window (cnt dur : Q) :
  (1 < cnt)%Q -> (dur <= 1 # 1000)%Q ->
  calc_tps (Some cnt) (Some dur) = Some cnt.
Proof.
  intros Hcnt Hdur. unfold calc_tps, leb, of_Z.
  destruct (Qle_bool cnt (inject_Z 1)) eqn:E.
  - apply Qle_bool_iff in E. exfalso. apply (Qlt_not_le _ _ Hcnt). exact E.
  - apply Qle_bool_iff in Hdur. by rewrite Hdur.
Qed.

Lemma calc_tps_single (cnt : Q) dur :
  (cnt <= 1)%Q -> calc_tps (Some cnt) dur = of_Z 0.
Proof.
  intros Hcnt. unfold calc_tps, leb, of_Z.
  change (inject_Z 1) with 1%Q.
  apply Qle_bool_iff in Hcnt. by rewrite Hcnt.
Qed.

Lemma calc_tps_rate (cnt dur : Q) :
  (1 < cnt)%Q -> (1 # 1000 < dur)%Q ->
  calc_tps (Some cnt) (Some dur) = Some (cnt / dur)%Q.
Proof.
  intros Hcnt Hdur. unfold calc_tps, leb, of_Z, div.
  destruct (Qle_bool cnt (inject_Z 1)) eqn:E.
  { apply Qle_bool_iff in E. exfalso. apply (Qlt_not_le _ _ Hcnt). exact E. }
  destruct (Qle_bool dur (1 # 1000)) eqn:E'.
  { apply Qle_bool_iff in E'. exfalso. apply (Qlt_not_le _ _ Hdur). exact E'. }
  destruct (Qeq_bool dur 0) eqn:E0; [|done].
  apply Qeq_bool_iff in E0. rewrite E0 in Hdur. done.
Qed.

(** C1, at two ticks of one timestamp: the second tick's window holds 2
    ticks over a duration of 0 seconds, and [tps_window] is 2.00, the tick
    count, where the policy of the claim gives 0. *)
Theorem tps_window_of_simultaneous_pair :
  exists r,
    df_indexed stable_sort simultaneous_pair
      default_window_ms default_tps_window_sec !! 1 = Some r
    /\ window_count r = Some (2 # 1)%Q
    /\ window_duration r = Some (0 # 1000000000)%Q
    /\ tps_window r = Some (200 # 100)%Q
    /\ ~ (200 # 100 == 0)%Q.
Proof.
  eexists. split; [reflexivity|].
  repeat split. intros H. discriminate H.
Qed.

(** C5 as stated fails twice over.  For the first of two ticks of one
    timestamp the sum over every tick of the interval is 3, while
    [window_vol] is 1: the later tick of the same time is not part of the
    window.  And for a tick whose window holds no volume at all,
    [window_vol] is null where the claim gives the sum 0. *)
Lemma window_vol_interval_counterexample :
  (exists r,
     df_indexed stable_sort simultaneous_pair
       default_window_ms default_tps_window_sec !! 0 = Some r
     /\ window_vol r = Some 1%Q
     /\ ~ window_vol_over_interval
            (ordered_ticks stable_sort simultaneous_pair) default_window_ms r)
  /\ (exists r,
        df_indexed stable_sort lone_null_volume
          default_window_ms default_tps_window_sec !! 0 = Some r
        /\ window_vol r = None
        /\ ~ window_vol_over_interval
               (ordered_ticks stable_sort lone_null_volume)
               default_window_ms r).
Proof.
  split.
  - eexists. split; [reflexivity|]. split; [reflexivity|].
    intros (v & Hv & Heq). vm_compute in Hv. injection Hv as <-.
    vm_compute in Heq. discriminate Heq.
  - eexists. split; [reflexivity|]. split; [reflexivity|].
    intros (v & Hv & _). vm_compute in Hv. discriminate Hv.
Qed.

(** C5, amended: every tick of the ordered table gets a row, and the row's
    [window_vol] is the sum of the volumes that are not null over the ticks
    at positions up to and including its own whose time lies in
    (T - window_ms, T]; it is null when none of those ticks has a volume.
    Summing the volumes that are not null is summing with nulls as 0. *)
Theorem window_vol_trailing_sum sort_values raw window_ms tps_window_sec i t :
  (0 < window_ms)%Z ->
  is_monotonic_increasing
    (Timestamp <$> ordered_ticks sort_values raw) = true ->
  ordered_ticks sort_values raw !! i = Some t ->
  let trailing :=
    ticks_in (Timestamp t - ns_of_ms window_ms) (Timestamp t)
      (take (S i) (ordered_ticks sort_values raw)) in
  exists r,
    df_indexed sort_values raw window_ms tps_window_sec !! i = Some r
    /\ tick_of r = t
    /\ window_vol r
       = match omap Volumen trailing with
         | [] => None
         | _ :: _ => Some (total_volume trailing)
         end
    /\ (total_volume trailing == total_volume_zero_filled trailing)%Q.
Proof.
  intros Hw Hmono Ht trailing. unfold df_indexed.
  destruct (window_features_total _ window_ms tps_window_sec i t Ht)
    as (r & Hr & Htick).
  exists r. split; [done|]. split; [done|].
  split; [|apply total_volume_zero_fill].
  apply lookup_window_features in Hr as (_ & Hwv & _).
  unfold window_vol_col in Hwv.
  eapply lookup_time_rolling in Hwv; [| done | unfold ns_of_ms; lia | done].
  rewrite Hwv. apply roll_sum_volumes.
Qed.

Lemma window_vol_trailing_sum_witness :
  exists r,
    df_indexed stable_sort mixed_ticks 500 10 !! 3 = Some r
    /\ tick_of r = a_tick 900000000 (Some 101%Q) (Some 4%Q)
    /\ window_vol r = Some (2 + (4 + 0))%Q.
Proof.
  destruct (window_vol_trailing_sum stable_sort mixed_ticks 500 10 3
              (a_tick 900000000 (Some 101%Q) (Some 4%Q)))
    as (r & Hr & Ht & Hv & _); [lia | reflexivity | reflexivity |].
  exists r. split; [exact Hr|]. split; [exact Ht|]. exact Hv.
Defined.

(** C6: in every row written by [process_historical_file], [factor_tps] is
    [window_vol * tps_window] rounded to 2 decimals, where [tps_window] is
    the row's rate after its own rounding to 2 decimals. *)
Theorem factor_tps_composition sort_values raw window_ms tps_window_sec i o :
  process_historical_file sort_values raw window_ms tps_window_sec !! i
    = Some o ->
  out_factor_tps o = round_2 (mul (out_window_vol o) (out_tps_window o))
  /\ exists r,
       df_indexed sort_values raw window_ms tps_window_sec !! i = Some r
       /\ o = cols_to_keep r
       /\ out_tps_window o
          = round_2 (calc_tps (window_count r) (window_duration r)).
Proof.
  unfold process_historical_file. intros Ho.
  apply list_lookup_fmap_Some in Ho as (r & -> & Hr).
  pose proof Hr as Hrow. unfold df_indexed in Hr.
  apply lookup_window_features in Hr as (_ & Hwv & Hdur & Hcnt & Htps & Hfac).
  unfold factor_tps_col in Hfac.
  apply list_lookup_fmap_Some in Hfac as (x & Hx & Hzip).
  apply lookup_zip_with_Some in Hzip as (wv & tps & -> & Hwv' & Htps').
  assert (wv = window_vol r) as -> by congruence.
  assert (tps = tps_window r) as -> by congruence.
  split; [exact Hx|].
  exists r. split; [done|]. split; [done|]. simpl.
  unfold tps_window_col in Htps.
  apply list_lookup_fmap_Some in Htps as (y & Hy & Hzip).
  apply lookup_zip_with_Some in Hzip as (cnt & dur & -> & Hcnt' & Hdur').
  assert (cnt = window_count r) as -> by congruence.
  assert (dur = window_duration r) as -> by congruence.
  exact Hy.
Qed.

Lemma factor_tps_composition_witness :
  out_factor_tps
    {| out_tick := a_tick 900000000 (Some 103%Q) (Some 8%Q);
       out_window_vol := Some (8 + (4 + (2 + 0)))%Q;
       out_tps_window := Some (444 # 100)%Q;
       out_factor_tps := Some (6216 # 100)%Q |}
  = round_2 (mul (Some (8 + (4 + (2 + 0)))%Q) (Some (444 # 100)%Q)).
Proof.
  exact (proj1 (factor_tps_composition stable_sort mixed_ticks 500 10 4 _
                  eq_refl)).
Defined.

(** What [window_count] holds on a sorted table: the number of volumes that
    are not null among the ticks, up to the current one, of the trailing
    time window. *)
Lemma window_count_counts_volumes df window_ms tps_window_sec i r :
  (0 < tps_window_sec)%Z ->
  is_monotonic_increasing (Timestamp <$> df) = true ->
  window_features df window_ms tps_window_sec !! i = Some r ->
  window_count r
  = of_nat (length (omap Volumen
      (ticks_in (Timestamp (tick_of r) - ns_of_sec tps_window_sec)
         (Timestamp (tick_of r)) (take (S i) df)))).
Proof.
  intros Hw Hmono Hr.
  apply lookup_window_features in Hr as (Ht & _ & _ & Hcnt & _).
  unfold window_count_col in Hcnt.
  eapply lookup_time_rolling in Hcnt;
    [| done | unfold ns_of_sec; lia | done].
  rewrite Hcnt. apply roll_count_volumes.
  intros Hnil.
  pose proof (current_tick_in_window df (ns_of_sec tps_window_sec) i
                (tick_of r) ltac:(unfold ns_of_sec; lia) Ht) as Hin.
  rewrite Hnil in Hin. by apply elem_of_nil in Hin.
Qed.

(** A tick whose volume is null is left out of the count: of the 4 ticks in
    the window of the fourth tick of [mixed_ticks], 3 are counted. *)
Example window_count_skips_null_volume :
  exists r,
    df_indexed stable_sort mixed_ticks 500 10 !! 3 = Some r
    /\ window_count r = of_nat 3
    /\ length (ticks_in (Timestamp (tick_of r) - ns_of_sec 10)
                 (Timestamp (tick_of r))
                 (take 4 (ordered_ticks stable_sort mixed_ticks))) = 4.
Proof. eexists. split; [reflexivity|]. split; reflexivity. Qed.

Lemma omap_all_present {A B} (f : A -> option B) (l : list A) :
  forallb (fun x => notna (f x)) l = true ->
  length (omap f l) = length l.
Proof.
  induction l as [|x l IH]; [done|]. csimpl.
  intros H. apply andb_true_iff in H as [Hx Hl].
  destruct (f x); [|done]. csimpl. by rewrite IH.
Qed.

(** C7 as stated fails: for the first of two ticks of one timestamp the
    interval (T - 10 s, T] holds 2 ticks of the table, while [window_count]
    is 1. *)
Lemma window_count_interval_counterexample :
  exists r,
    df_indexed stable_sort simultaneous_pair
      default_window_ms default_tps_window_sec !! 0 = Some r
    /\ window_count r = Some 1%Q
    /\ ~ window_count_over_interval
           (ordered_ticks stable_sort simultaneous_pair)
           default_tps_window_sec r.
Proof.
  eexists. split; [reflexivity|]. split; [reflexivity|].
  intros (c & Hc & Heq). vm_compute in Hc. injection Hc as <-.
  vm_compute in Heq. discriminate Heq.
Qed.

(** C7, amended: every tick of the ordered table gets a row; when the ticks
    at positions up to and including its own whose time lies in
    (T - tps_window_sec, T] all have a volume, the row's [window_count] is
    the number of those ticks. *)
Theorem window_count_trailing_ticks sort_values raw window_ms tps_window_sec
    i t :
  (0 < tps_window_sec)%Z ->
  is_monotonic_increasing
    (Timestamp <$> ordered_ticks sort_values raw) = true ->
  ordered_ticks sort_values raw !! i = Some t ->
  let trailing :=
    ticks_in (Timestamp t - ns_of_sec tps_window_sec) (Timestamp t)
      (take (S i) (ordered_ticks sort_values raw)) in
  forallb (fun u => notna (Volumen u)) trailing = true ->
  exists r,
    df_indexed sort_values raw window_ms tps_window_sec !! i = Some r
    /\ tick_of r = t
    /\ window_count r = of_nat (length trailing).
Proof.
  intros Hw Hmono Ht trailing Hvol. unfold df_indexed.
  destruct (window_features_total _ window_ms tps_window_sec i t Ht)
    as (r & Hr & Htick).
  exists r. split; [done|]. split; [done|].
  rewrite (window_count_counts_volumes _ _ _ _ _ Hw Hmono Hr), Htick.
  fold trailing. by rewrite omap_all_present.
Qed.

Lemma window_count_trailing_ticks_witness :
  exists r,
    df_indexed stable_sort plain_ticks 500 10 !! 3 = Some r
    /\ tick_of r = a_tick 12500000000 (Some 103%Q) (Some 8%Q)
    /\ window_count r = of_nat 2.
Proof.
  exact (window_count_trailing_ticks stable_sort plain_ticks 500 10 3
           (a_tick 12500000000 (Some 103%Q) (Some 8%Q))
           eq_refl eq_refl eq_refl eq_refl).
Defined.

End WindowEngine.

(* ===================================================================== *)
(** ** Temporal features and labels *)
(* ===================================================================== *)

Module Labeling.
Import Float Rolling Train LabelSpec FloatFacts RollingFacts.

(** *** Columns of [engineer_features] *)

Lemma lookup_shift {A} (k : nat) (col : list (option A)) i :
  i < length col ->
  shift k col !! i
  = Some (if decide (i < k) then None else mjoin (col !! (i - k))).
Proof.
  intros Hi. unfold shift. destruct (decide (i < k)) as [Hlt|Hge].
  - rewrite lookup_app_l by (rewrite length_replicate; lia).
    apply lookup_replicate_2. lia.
  - rewrite lookup_app_r by (rewrite length_replicate; lia).
    rewrite length_replicate, (Nat.min_l k) by lia.
    rewrite lookup_take_lt by lia.
    destruct (lookup_lt_is_Some_2 col (i - k) ltac:(lia)) as [x Hx].
    by rewrite Hx.
Qed.

Lemma cell_shift (k : nat) (col : list float64) i :
  i < length col ->
  cell (shift k col) i = if decide (i < k) then None else cell col (i - k).
Proof.
  intros Hi. unfold cell. rewrite lookup_shift by done. simpl.
  by destruct (decide (i < k)).
Qed.

Lemma cell_diff (k : nat) (col : list float64) i :
  i < length col ->
  cell (diff k col) i
  = if decide (i < k) then None else sub (cell col i) (cell col (i - k)).
Proof.
  intros Hi. unfold cell at 1, diff.
  destruct (lookup_lt_is_Some_2 col i Hi) as [x Hx].
  rewrite lookup_zip_with, Hx, lookup_shift by done. simpl.
  unfold cell. rewrite Hx. simpl.
  destruct (decide (i < k)); [by destruct x | done].
Qed.

Section Columns.
Variable sqrt : Q -> Q.
Variable df : list sample.

Lemma length_factor_tps_col : length (factor_tps_col df) = length df.
Proof. unfold factor_tps_col. by rewrite length_fmap. Qed.

Lemma cell_factor_tps_col i s :
  df !! i = Some s ->
  cell (factor_tps_col df) i = fillna 0 (factor_tps s).
Proof.
  intros Hs. unfold cell, factor_tps_col.
  by rewrite list_lookup_fmap, Hs.
Qed.

Lemma cell_price_col i s :
  df !! i = Some s -> cell (price_col df) i = price s.
Proof.
  intros Hs. unfold cell, price_col. by rewrite list_lookup_fmap, Hs.
Qed.

Lemma notna_fillna v a : notna (fillna v a) = true.
Proof. by destruct a. Qed.

(** A lag cell is the burst factor [k] rows earlier, nulls as 0. *)
Lemma cell_lag_col k i s :
  k <= i -> df !! (i - k) = Some s -> i < length df ->
  cell (lag_col df k) i = fillna 0 (factor_tps s).
Proof.
  intros Hk Hs Hi. unfold lag_col.
  rewrite cell_shift by (by rewrite length_factor_tps_col).
  rewrite decide_False by lia. by apply cell_factor_tps_col.
Qed.

Lemma cell_lag_col_early k i :
  i < k -> i < length df -> cell (lag_col df k) i = None.
Proof.
  intros Hk Hi. unfold lag_col.
  rewrite cell_shift by (by rewrite length_factor_tps_col).
  by rewrite decide_True by lia.
Qed.

Lemma notna_cell_lag_col k i :
  i < length df ->
  notna (cell (lag_col df k) i) = bool_decide (k <= i).
Proof.
  intros Hi. destruct (decide (k <= i)) as [Hk|Hk].
  - rewrite bool_decide_eq_true_2 by done.
    destruct (lookup_lt_is_Some_2 df (i - k) ltac:(lia)) as [s Hs].
    rewrite (cell_lag_col k i s) by done. apply notna_fillna.
  - rewrite bool_decide_eq_false_2 by done.
    by rewrite cell_lag_col_early by lia.
Qed.

Lemma lags_notna i :
  i < length df ->
  forallb notna ((fun k => cell (lag_col df k) i) <$> seq 1 5) = true
  <-> 5 <= i.
Proof.
  intros Hi. cbn [seq fmap list_fmap forallb].
  rewrite !notna_cell_lag_col by done.
  repeat case_bool_decide; simpl; split; intros; first [lia | done].
Qed.

Lemma forallb_notna_factor_tps_col s e :
  forallb notna (slice s e (factor_tps_col df)) = true.
Proof.
  apply forallb_forall. intros c Hc. apply list_elem_of_In in Hc.
  unfold slice in Hc.
  apply list_elem_of_lookup in Hc as [k Hk].
  rewrite lookup_drop in Hk. apply lookup_take_Some in Hk as [Hk _].
  unfold factor_tps_col in Hk.
  apply list_lookup_fmap_Some in Hk as (x & -> & _). apply notna_fillna.
Qed.

(** From the fifth row on the trailing mean of 5 burst factors exists. *)
Lemma notna_mean_5 i :
  4 <= i < length df -> notna (cell (mean_5_col df) i) = true.
Proof.
  intros Hi. unfold cell, mean_5_col.
  assert (Hrow : rolling_apply (fixed_window_starts 5 (length df))
                   (closed_right_ends (length df)) (roll_mean 5)
                   (factor_tps_col df) !! i
                 = Some (roll_mean 5
                           (slice (S i - 5) (S i) (factor_tps_col df)))).
  { apply lookup_rolling_apply. exists (S i - 5), (S i).
    split; [apply lookup_fixed_window_starts; lia|].
    split; [by apply lookup_closed_right_ends; split; [|lia] | done]. }
  rewrite Hrow. cbn [mjoin option_join]. unfold roll_mean.
  pose proof (length_observations_all _
                (forallb_notna_factor_tps_col (S i - 5) (S i))) as Hlen.
  rewrite length_slice, length_factor_tps_col in Hlen.
  destruct (observations (slice (S i - 5) (S i) (factor_tps_col df)))
    as [|x obs]; cbn [length] in Hlen; [lia|].
  by rewrite decide_True by lia.
Qed.

Lemma notna_std_5 i :
  i < length df -> notna (cell (std_5_col sqrt df) i) = true.
Proof.
  intros Hi. unfold cell, std_5_col.
  destruct (lookup_lt_is_Some_2
              ((fun v => fillna 0 (sqrt <$> v)) <$>
                 rolling_apply (fixed_window_starts 5 (length df))
                   (closed_right_ends (length df)) (roll_var 5)
                   (factor_tps_col df)) i) as [c Hc].
  { rewrite length_fmap, length_rolling_apply.
    unfold fixed_window_starts, closed_right_ends.
    rewrite !length_fmap, !length_seq. lia. }
  rewrite Hc. simpl.
  apply list_lookup_fmap_Some in Hc as (v & -> & _). apply notna_fillna.
Qed.

Lemma cell_price_velocity_5 i s s5 :
  5 <= i -> df !! i = Some s -> df !! (i - 5) = Some s5 ->
  cell (price_velocity_5_col df) i = sub (price s) (price s5).
Proof.
  intros Hi Hs Hs5. unfold price_velocity_5_col.
  assert (i < length df) by (by eapply lookup_lt_Some).
  rewrite cell_diff by (unfold price_col; by rewrite length_fmap).
  rewrite decide_False by lia.
  by rewrite (cell_price_col i s), (cell_price_col (i - 5) s5).
Qed.

Lemma lookup_feature_frame i r :
  feature_frame sqrt df !! i = Some r ->
  exists s, df !! i = Some s
    /\ index_label r = i
    /\ source r = zero_filled s
    /\ factor_tps_lag r = (fun k => cell (lag_col df k) i) <$> seq 1 5
    /\ factor_tps_mean_5 r = cell (mean_5_col df) i
    /\ factor_tps_std_5 r = cell (std_5_col sqrt df) i
    /\ price_velocity_5 r = cell (price_velocity_5_col df) i.
Proof.
  unfold feature_frame. rewrite list_lookup_imap. intros H.
  destruct (df !! i) as [s|] eqn:Hs; [|done].
  simpl in H. injection H as <-. exists s. simpl.
  unfold zero_filled. by rewrite (cell_factor_tps_col i s).
Qed.

Lemma others_notna_zero_filled s :
  sample_notna (zero_filled s) = others_notna s.
Proof.
  unfold zero_filled, others_notna, sample_notna, set_factor_tps. simpl.
  by rewrite notna_fillna.
Qed.

(** Which rows of the frame survive [dropna]. *)
Lemma row_kept_iff i r :
  feature_frame sqrt df !! i = Some r ->
  row_notna r = true
  <-> 5 <= i
      /\ exists s s5, df !! i = Some s /\ df !! (i - 5) = Some s5
          /\ others_notna s = true /\ notna (price s5) = true.
Proof.
  intros Hr.
  destruct (lookup_feature_frame i r Hr)
    as (s & Hs & _ & Hsrc & Hlag & Hmean & Hstd & Hvel).
  assert (Hi : i < length df) by (by eapply lookup_lt_Some).
  unfold row_notna.
  rewrite Hsrc, Hlag, Hmean, Hstd, Hvel, others_notna_zero_filled.
  rewrite (notna_std_5 i Hi), andb_true_r.
  split.
  - intros H. apply andb_true_iff in H as [H Hv].
    apply andb_true_iff in H as [H Hm].
    apply andb_true_iff in H as [Hoth Hl].
    assert (Hfive : 5 <= i) by (by apply lags_notna).
    split; [done|].
    destruct (lookup_lt_is_Some_2 df (i - 5) ltac:(lia)) as [s5 Hs5].
    exists s, s5. repeat (split; [done|]).
    rewrite (cell_price_velocity_5 i s s5) in * by done.
    destruct (price s), (price s5); done.
  - intros (H5 & s' & s5 & Hs' & Hs5 & Hoth & Hp5).
    assert (s' = s) as -> by congruence.
    rewrite Hoth, (proj2 (lags_notna i Hi) H5), notna_mean_5 by lia.
    rewrite (cell_price_velocity_5 i s s5) by done.
    assert (Hp : notna (price s) = true).
    { unfold others_notna, sample_notna in Hoth. simpl in Hoth.
      repeat (apply andb_true_iff in Hoth as [Hoth ?]). done. }
    destruct (price s), (price s5); done.
Qed.
End Columns.


Lemma sample_notna_others s :
  sample_notna s = true ->
  others_notna s = true /\ notna (price s) = true /\ zero_filled s = s.
Proof.
  unfold others_notna, zero_filled, sample_notna, set_factor_tps.
  destruct s as [ts p v sd b a wv tps f]. simpl. intros H.
  repeat (apply andb_true_iff in H as [H ?]).
  destruct f; [|done]. simpl.
  repeat split; [|done]. by repeat (apply andb_true_iff; split).
Qed.

Lemma elem_of_engineer_features sqrt df r :
  r ∈ engineer_features sqrt df
  <-> row_notna r = true
      /\ feature_frame sqrt df !! index_label r = Some r.
Proof.
  unfold engineer_features, dropna. rewrite list_elem_of_filter.
  rewrite Is_true_true. split; intros [Hk Hr]; (split; [done|]).
  - apply list_elem_of_lookup in Hr as [j Hj].
    destruct (lookup_feature_frame sqrt df j r Hj) as (_ & _ & <- & _).
    done.
  - apply list_elem_of_lookup. by exists (index_label r).
Qed.

(** On a frame without nulls [dropna] removes the first five rows and no
    other. *)
Lemma dropna_complete_frame sqrt df :
  forallb sample_notna df = true ->
  engineer_features sqrt df = drop 5 (feature_frame sqrt df).
Proof.
  intros Hall. unfold engineer_features, dropna.
  rewrite <- (take_drop 5 (feature_frame sqrt df)) at 1.
  rewrite list.filter_app.
  rewrite (filter_none _ (take 5 _)),
          (filter_all _ (drop 5 _)); [done | |].
  - apply Forall_lookup. intros k r Hk. rewrite lookup_drop in Hk.
    apply Is_true_true. apply (row_kept_iff sqrt df (5 + k) r Hk).
    split; [lia|].
    destruct (lookup_feature_frame sqrt df _ r Hk) as (s & Hs & _).
    destruct (lookup_lt_is_Some_2 df (5 + k - 5)) as [s5 Hs5].
    { apply lookup_lt_Some in Hs. lia. }
    exists s, s5. split; [done|]. split; [done|].
    rewrite forallb_forall in Hall.
    assert (Hin : forall j x, df !! j = Some x -> sample_notna x = true).
    { intros j x Hx. apply Hall. apply list_elem_of_In.
      apply list_elem_of_lookup. by exists j. }
    split.
    + by apply (sample_notna_others s (Hin _ _ Hs)).
    + by apply (sample_notna_others s5 (Hin _ _ Hs5)).
  - apply Forall_lookup. intros k r Hk.
    apply lookup_take_Some in Hk as [Hk Hlt].
    rewrite Is_true_true. intros Hkeep.
    apply (row_kept_iff sqrt df k r Hk) in Hkeep as [Hge _]. lia.
Qed.

(** C9: on a table of at least 5 rows without a null cell,
    [engineer_features] returns [N - 5] rows: the rows of the input from the
    sixth on, in order, under their old labels [5 .. N-1]; the first five
    rows are the ones removed. *)
Theorem engineer_features_drops_first_five sqrt df :
  5 <= length df ->
  forallb sample_notna df = true ->
  length (engineer_features sqrt df) = length df - 5
  /\ index_label <$> engineer_features sqrt df = seq 5 (length df - 5)
  /\ source <$> engineer_features sqrt df = drop 5 df.
Proof.
  intros Hlen Hall. rewrite (dropna_complete_frame sqrt df Hall).
  assert (Hff : length (feature_frame sqrt df) = length df).
  { unfold feature_frame. apply length_imap. }
  split; [by rewrite length_drop, Hff|].
  split.
  - apply list_eq. intros k.
    rewrite list_lookup_fmap, lookup_drop.
    destruct (decide (k < length df - 5)) as [Hk|Hk].
    + rewrite lookup_seq_lt by done.
      destruct (lookup_lt_is_Some_2 (feature_frame sqrt df) (5 + k)
                  ltac:(lia)) as [r Hr].
      rewrite Hr. simpl.
      by destruct (lookup_feature_frame sqrt df _ r Hr) as (_ & _ & -> & _).
    + rewrite lookup_seq_ge by lia.
      by rewrite (lookup_ge_None_2 (feature_frame sqrt df)) by lia.
  - apply list_eq. intros k.
    rewrite list_lookup_fmap, !lookup_drop.
    destruct (feature_frame sqrt df !! (5 + k)) as [r|] eqn:Hr.
    + destruct (lookup_feature_frame sqrt df _ r Hr)
        as (s & Hs & _ & Hsrc & _).
      rewrite Hs. simpl. rewrite Hsrc. f_equal.
      rewrite forallb_forall in Hall.
      apply sample_notna_others, Hall, list_elem_of_In, list_elem_of_lookup.
      by exists (5 + k).
    + simpl. symmetry. apply lookup_ge_None.
      apply lookup_ge_None in Hr. lia.
Qed.

Lemma engineer_features_drops_first_five_witness :
  length (engineer_features no_sqrt seven_samples) = 2
  /\ index_label <$> engineer_features no_sqrt seven_samples = [5; 6]
  /\ source <$> engineer_features no_sqrt seven_samples
     = [ a_sample (Some 105%Q) (Some 60%Q);
         a_sample (Some 106%Q) (Some 70%Q) ].
Proof.
  apply (engineer_features_drops_first_five no_sqrt seven_samples).
  - simpl. lia.
  - reflexivity.
Defined.


Lemma feature_frame_zero_filled sqrt df :
  feature_frame sqrt (zero_filled <$> df) = feature_frame sqrt df.
Proof.
  assert (Hf : factor_tps_col (zero_filled <$> df) = factor_tps_col df).
  { unfold factor_tps_col. rewrite <- list_fmap_compose.
    apply list_fmap_ext. intros _ s _. simpl. by destruct (factor_tps s). }
  assert (Hp : price_col (zero_filled <$> df) = price_col df).
  { unfold price_col. by rewrite <- list_fmap_compose. }
  unfold feature_frame, lag_col, mean_5_col, std_5_col, price_velocity_5_col.
  rewrite Hf, Hp, length_fmap, imap_fmap.
  apply imap_ext. intros i s _. simpl. f_equal.
Qed.

(** C10: a null [factor_tps] counts as 0 and never decides whether a row is
    dropped, while a null [price] removes the row.
      - The result is the one obtained from the table with every null
        [factor_tps] replaced by 0 beforehand.
      - The row of label [i] is kept exactly when [i >= 5], every column of
        row [i] other than [factor_tps] holds a value, and row [i - 5] has a
        price.
      - In a kept row, [factor_tps] and the lags 1 to 5 are the burst
        factors of the row and of the 5 rows before it, nulls read as 0.
      - No row whose price is null is kept. *)
Theorem null_factor_tps_reads_as_zero sqrt df :
  engineer_features sqrt df = engineer_features sqrt (zero_filled <$> df)
  /\ (forall i,
        (exists r, r ∈ engineer_features sqrt df /\ index_label r = i)
        <-> 5 <= i
            /\ exists s s5, df !! i = Some s /\ df !! (i - 5) = Some s5
                /\ others_notna s = true /\ notna (price s5) = true)
  /\ (forall r, r ∈ engineer_features sqrt df ->
        exists s, df !! index_label r = Some s
          /\ row_factor_tps r = fillna 0 (factor_tps s)
          /\ forall k, 1 <= k <= 5 ->
               exists sk, df !! (index_label r - k) = Some sk
                 /\ factor_tps_lag r !! (k - 1)
                    = Some (fillna 0 (factor_tps sk)))
  /\ (forall i s, df !! i = Some s -> price s = None ->
        forall r, r ∈ engineer_features sqrt df -> index_label r <> i).
Proof.
  assert (Hkept : forall i,
            (exists r, r ∈ engineer_features sqrt df /\ index_label r = i)
            <-> 5 <= i
                /\ exists s s5, df !! i = Some s /\ df !! (i - 5) = Some s5
                    /\ others_notna s = true /\ notna (price s5) = true).
  { intros i. split.
    - intros (r & Hr & <-).
      apply elem_of_engineer_features in Hr as [Hkeep Hrow].
      by apply (row_kept_iff sqrt df _ r Hrow).
    - intros (Hi & s & s5 & Hs & Hs5 & Hoth & Hp5).
      destruct (lookup_lt_is_Some_2 (feature_frame sqrt df) i) as [r Hr].
      { unfold feature_frame. rewrite length_imap.
        by eapply lookup_lt_Some. }
      exists r.
      destruct (lookup_feature_frame sqrt df i r Hr) as (_ & _ & Hlbl & _).
      split; [|done]. apply elem_of_engineer_features. rewrite Hlbl.
      split; [|done]. apply (row_kept_iff sqrt df i r Hr).
      split; [done|]. by exists s, s5. }
  split; [|split; [exact Hkept|split]].
  - unfold engineer_features. by rewrite feature_frame_zero_filled.
  - intros r Hr.
    apply elem_of_engineer_features in Hr as [Hkeep Hrow].
    pose proof (proj1 (row_kept_iff sqrt df _ r Hrow) Hkeep) as [Hi _].
    destruct (lookup_feature_frame sqrt df _ r Hrow)
      as (s & Hs & _ & Hsrc & Hlag & _).
    exists s. split; [done|]. split.
    { unfold row_factor_tps. by rewrite Hsrc. }
    intros k Hk.
    assert (Hlen : index_label r < length df) by (by eapply lookup_lt_Some).
    destruct (lookup_lt_is_Some_2 df (index_label r - k) ltac:(lia))
      as [sk Hsk].
    exists sk. split; [done|].
    rewrite Hlag, list_lookup_fmap, lookup_seq_lt by lia. simpl.
    replace (S (k - 1)) with k by lia.
    f_equal. apply cell_lag_col; [lia | done | done].
  - intros i s Hs Hp r Hr Hlbl.
    destruct (proj1 (Hkept i)) as (_ & s' & _ & Hs' & _ & Hoth & _).
    { by exists r. }
    assert (s' = s) as -> by congruence.
    unfold others_notna, sample_notna in Hoth. simpl in Hoth.
    rewrite Hp in Hoth. simpl in Hoth.
    rewrite andb_false_r in Hoth. done.
Qed.


Lemma null_factor_tps_reads_as_zero_witness :
  (exists r, r ∈ engineer_features no_sqrt holed_samples
             /\ index_label r = 5)
  /\ (forall r, r ∈ engineer_features no_sqrt holed_samples ->
        index_label r <> 6).
Proof.
  destruct (null_factor_tps_reads_as_zero no_sqrt holed_samples)
    as (_ & Hkept & _ & Hprice).
  split.
  - apply Hkept. split; [lia|].
    do 2 eexists. repeat split; reflexivity.
  - eapply Hprice; reflexivity.
Defined.

(** *** Columns of [define_labels] *)

Lemma Qmaximum_elem x l : Qmaximum x l ∈ x :: l.
Proof.
  unfold Qmaximum. induction l as [|y l IH]; simpl; [apply list_elem_of_here|].
  destruct (Qmax_cases y (foldr Qmax x l)) as [->| ->].
  - apply list_elem_of_further, list_elem_of_here.
  - apply elem_of_cons in IH as [->|IH]; [apply list_elem_of_here|].
    by do 2 apply list_elem_of_further.
Qed.

Lemma Qmaximum_upper x l q : q ∈ x :: l -> (q <= Qmaximum x l)%Q.
Proof.
  unfold Qmaximum. induction l as [|y l IH]; simpl; intros Hq.
  - apply list_elem_of_singleton in Hq as ->. apply Qle_refl.
  - apply elem_of_cons in Hq as [->|Hq].
    + eapply Qle_trans; [apply IH, list_elem_of_here | apply Q.le_max_r].
    + apply elem_of_cons in Hq as [->|Hq]; [apply Q.le_max_l|].
      eapply Qle_trans; [apply IH; by apply list_elem_of_further|].
      apply Q.le_max_r.
Qed.

Lemma Qminimum_elem x l : Qminimum x l ∈ x :: l.
Proof.
  unfold Qminimum. induction l as [|y l IH]; simpl; [apply list_elem_of_here|].
  destruct (Qmin_cases y (foldr Qmin x l)) as [->| ->].
  - apply list_elem_of_further, list_elem_of_here.
  - apply elem_of_cons in IH as [->|IH]; [apply list_elem_of_here|].
    by do 2 apply list_elem_of_further.
Qed.

Lemma Qminimum_lower x l q : q ∈ x :: l -> (Qminimum x l <= q)%Q.
Proof.
  unfold Qminimum. induction l as [|y l IH]; simpl; intros Hq.
  - apply list_elem_of_singleton in Hq as ->. apply Qle_refl.
  - apply elem_of_cons in Hq as [->|Hq].
    + eapply Qle_trans; [apply Q.le_min_r | apply IH, list_elem_of_here].
    + apply elem_of_cons in Hq as [->|Hq]; [apply Q.le_min_l|].
      eapply Qle_trans; [apply Q.le_min_r|].
      apply IH. by apply list_elem_of_further.
Qed.

Lemma roll_max_full minp (w : list float64) :
  0 < minp -> minp <= length (observations w) ->
  exists hi, roll_max minp w = Some hi /\ is_maximum_of hi w.
Proof.
  intros Hpos Hlen. unfold roll_max, is_maximum_of.
  setoid_rewrite <- elem_of_observations.
  destruct (observations w) as [|x obs]; simpl in Hlen; [lia|].
  rewrite decide_True by done. exists (Qmaximum x obs).
  split; [done|]. split; [apply Qmaximum_elem | apply Qmaximum_upper].
Qed.

Lemma roll_min_full minp (w : list float64) :
  0 < minp -> minp <= length (observations w) ->
  exists lo, roll_min minp w = Some lo /\ is_minimum_of lo w.
Proof.
  intros Hpos Hlen. unfold roll_min, is_minimum_of.
  setoid_rewrite <- elem_of_observations.
  destruct (observations w) as [|x obs]; simpl in Hlen; [lia|].
  rewrite decide_True by done. exists (Qminimum x obs).
  split; [done|]. split; [apply Qminimum_elem | apply Qminimum_lower].
Qed.

Lemma roll_max_short minp (w : list float64) :
  length (observations w) < minp -> roll_max minp w = None.
Proof.
  intros Hlen. unfold roll_max.
  destruct (observations w) as [|x obs]; [done|]. simpl in Hlen.
  by rewrite decide_False by lia.
Qed.

Lemma roll_min_short minp (w : list float64) :
  length (observations w) < minp -> roll_min minp w = None.
Proof.
  intros Hlen. unfold roll_min.
  destruct (observations w) as [|x obs]; [done|]. simpl in Hlen.
  by rewrite decide_False by lia.
Qed.

(** The cells of one labeled row. *)
Lemma lookup_define_labels df thr pthr fw i r :
  define_labels df thr pthr fw !! i = Some r ->
  df !! i = Some (features r)
  /\ future_price_max r = roll_max fw (forward_prices df i fw)
  /\ future_price_min r = roll_min fw (forward_prices df i fw)
  /\ max_future_move r
     = nanmax2 (sub (future_price_max r) (row_price (features r)))
               (sub (row_price (features r)) (future_price_min r))
  /\ is_initiation r
     = int_of_bool (gtb (row_factor_tps (features r)) (Some thr)
                    && geb (max_future_move r) (Some pthr)).
Proof.
  unfold define_labels. rewrite list_lookup_imap. intros H.
  destruct (df !! i) as [fr|] eqn:Hfr; [|done].
  simpl in H. injection H as <-. simpl.
  assert (Hi : i < length df) by (by eapply lookup_lt_Some).
  assert (Hcell : forall B (agg : list float64 -> option B),
            mjoin (rolling_apply (forward_window_starts (length df))
                     (forward_window_ends fw (length df)) agg
                     (row_price <$> df) !! i)
            = agg (forward_prices df i fw)).
  { intros B agg.
    erewrite (proj2 (lookup_rolling_apply _ _ agg _ i _)).
    2:{ exists i, ((i + fw) `min` length df).
        split; [by apply lookup_forward_window_starts|].
        split; [by apply lookup_forward_window_ends | reflexivity]. }
    simpl. unfold forward_prices.
    rewrite <- (length_fmap row_price df). by rewrite slice_clip. }
  unfold cell, future_price_max_col, future_price_min_col.
  rewrite !Hcell. done.
Qed.


Lemma length_forward_prices df i fw :
  length (forward_prices df i fw) = ((i + fw) `min` length df) - i.
Proof. unfold forward_prices. by rewrite length_slice, length_fmap. Qed.

(** C2: [define_labels] looks one row less far ahead than the claim, and
    the comment above line 97 ("in the next 'future_window' steps"), say:
    its window begins at the current row, not at the row after it.  With
    prices 100, 100, 104, 104, a burst factor of 5000 on every row and
    [future_window = 2], the window of the first row is that row and the
    next: both extrema are 100, the move is 0 and the row is labeled 0.
    The two rows after it have prices 100 and 104; over them the maximum is
    104, the minimum 100, and the move of 4 reaches the threshold of 3.5,
    so that the row would be labeled 1. *)
Theorem forward_window_stops_one_row_short :
  exists r,
    define_labels stepped_prices default_tps_threshold
      default_price_move_threshold 2 !! 0 = Some r
    /\ forward_prices stepped_prices 0 2 = [Some 100%Q; Some 100%Q]
    /\ future_price_max r = Some 100%Q
    /\ future_price_min r = Some 100%Q
    /\ (exists m, max_future_move r = Some m /\ (m == 0)%Q)
    /\ gt (row_factor_tps (features r)) (Some default_tps_threshold)
    /\ is_initiation r = 0%Z
    /\ following_prices stepped_prices 0 2 = [Some 100%Q; Some 104%Q]
    /\ is_maximum_of 104 (following_prices stepped_prices 0 2)
    /\ is_minimum_of 100 (following_prices stepped_prices 0 2)
    /\ (default_price_move_threshold <= Qmax (104 - 100) (100 - 100))%Q
    /\ ~ extrema_of_following_rows stepped_prices 2 0 r.
Proof.
  assert (Hafter : following_prices stepped_prices 0 2
                   = [Some 100%Q; Some 104%Q]) by reflexivity.
  eexists. split; [reflexivity|]. split; [reflexivity|].
  split; [reflexivity|]. split; [reflexivity|].
  split; [eexists; split; [reflexivity | by vm_compute]|].
  split; [by apply gtb_gt|]. split; [reflexivity|]. split; [exact Hafter|].
  rewrite Hafter. split; [|split; [|split]].
  - split; [apply list_elem_of_further, list_elem_of_here|].
    intros q Hq.
    apply elem_of_cons in Hq as [[= ->]|Hq]; [by vm_compute|].
    apply list_elem_of_singleton in Hq as [= ->]. by vm_compute.
  - split; [apply list_elem_of_here|].
    intros q Hq.
    apply elem_of_cons in Hq as [[= ->]|Hq]; [by vm_compute|].
    apply list_elem_of_singleton in Hq as [= ->]. by vm_compute.
  - by vm_compute.
  - intros (hi & lo & Hhi & _ & [_ Hmax] & _).
    vm_compute in Hhi. injection Hhi as <-.
    specialize (Hmax 104%Q
                  ltac:(apply list_elem_of_further, list_elem_of_here)).
    by vm_compute in Hmax.
Qed.

(** The same on falling prices: with prices 10, 1, 1 and a window of 2 the
    first row has [future_price_max = 10], its own price, while the two rows
    after it both have price 1. *)
Lemma future_extrema_counterexample :
  exists r,
    define_labels falling_prices default_tps_threshold
      default_price_move_threshold 2 !! 0 = Some r
    /\ future_price_max r = Some 10%Q
    /\ following_prices falling_prices 0 2 = [Some 1%Q; Some 1%Q]
    /\ ~ extrema_of_following_rows falling_prices 2 0 r.
Proof.
  eexists. split; [reflexivity|]. split; [reflexivity|].
  split; [reflexivity|].
  intros (hi & lo & Hhi & _ & [Hin _] & _).
  vm_compute in Hhi. injection Hhi as <-.
  change (following_prices falling_prices 0 2)
    with [Some 1%Q; Some 1%Q] in Hin.
  apply elem_of_cons in Hin as [Hin|Hin]; [discriminate Hin|].
  apply elem_of_cons in Hin as [Hin|Hin]; [discriminate Hin|].
  by apply elem_of_nil in Hin.
Qed.

(** What the code computes instead: its window is the [future_window] rows
    beginning with the row itself.  When all of them exist and have a
    price, [future_price_max] and [future_price_min] are the largest and
    the smallest price of that window, the row's own price being one of
    them, and [max_future_move] is
    [max (future_price_max - price) (price - future_price_min)].
    Otherwise all three are null. *)
Theorem future_extrema_from_current_row df thr pthr fw i r :
  0 < fw ->
  define_labels df thr pthr fw !! i = Some r ->
  let w := forward_prices df i fw in
  (fw <= length (observations w) ->
     exists hi lo p,
       row_price (features r) = Some p /\ w !! 0 = Some (Some p)
       /\ future_price_max r = Some hi /\ is_maximum_of hi w
       /\ future_price_min r = Some lo /\ is_minimum_of lo w
       /\ max_future_move r = Some (Qmax (hi - p) (p - lo)))
  /\ (length (observations w) < fw ->
       future_price_max r = None /\ future_price_min r = None
       /\ max_future_move r = None).
Proof.
  intros Hfw Hr w.
  destruct (lookup_define_labels _ _ _ _ _ _ Hr)
    as (Hrow & Hmax & Hmin & Hmove & _).
  fold w in Hmax, Hmin. split.
  - intros Hfull.
    destruct (roll_max_full fw w Hfw Hfull) as (hi & Hhi & Hhimax).
    destruct (roll_min_full fw w Hfw Hfull) as (lo & Hlo & Hlomin).
    assert (Hw0 : w !! 0 = Some (row_price (features r))).
    { unfold w, forward_prices. rewrite lookup_slice by lia.
      rewrite Nat.add_0_r, list_lookup_fmap, Hrow. done. }
    assert (Hall : w = Some <$> observations w).
    { apply observations_full.
      pose proof (length_forward_prices df i fw). fold w in H. lia. }
    destruct (row_price (features r)) as [p|] eqn:Hp.
    2:{ rewrite Hall, list_lookup_fmap in Hw0.
        by destruct (observations w !! 0). }
    exists hi, lo, p. rewrite Hmove, Hmax, Hmin, Hhi, Hlo.
    repeat (split; [done|]). reflexivity.
  - intros Hshort.
    rewrite Hmove, Hmax, Hmin.
    rewrite (roll_max_short fw w Hshort), (roll_min_short fw w Hshort).
    by destruct (row_price (features r)).
Qed.

Lemma future_extrema_from_current_row_witness :
  exists r hi lo p,
    define_labels falling_prices default_tps_threshold
      default_price_move_threshold 2 !! 0 = Some r
    /\ row_price (features r) = Some p
    /\ forward_prices falling_prices 0 2 !! 0 = Some (Some p)
    /\ future_price_max r = Some hi
    /\ is_maximum_of hi (forward_prices falling_prices 0 2)
    /\ future_price_min r = Some lo
    /\ is_minimum_of lo (forward_prices falling_prices 0 2)
    /\ max_future_move r = Some (Qmax (hi - p) (p - lo)).
Proof.
  eexists.
  destruct (future_extrema_from_current_row falling_prices
              default_tps_threshold default_price_move_threshold 2 0 _
              ltac:(lia) eq_refl) as [Hfull _].
  destruct Hfull as (hi & lo & p & H); [vm_compute; lia|].
  exists hi, lo, p. split; [reflexivity | exact H].
Defined.

(** C3 as stated fails: with 3 rows and a window of 2, both of the final 2
    rows are kept and labeled, the first of them with 1 and the last, whose
    move is null, with 0. *)
Lemma final_rows_labeled_counterexample :
  (exists r1 r2,
     define_labels short_table default_tps_threshold
       default_price_move_threshold 2 !! 1 = Some r1
     /\ is_initiation r1 = 1%Z
     /\ define_labels short_table default_tps_threshold
          default_price_move_threshold 2 !! 2 = Some r2
     /\ max_future_move r2 = None
     /\ is_initiation r2 = 0%Z)
  /\ ~ final_rows_unlabeled short_table default_tps_threshold
         default_price_move_threshold 2.
Proof.
  split.
  - do 2 eexists. repeat (split; [reflexivity|]). reflexivity.
  - intros H. destruct (H 2 _ ltac:(simpl; lia) eq_refl) as [H0 _].
    by apply H0.
Qed.

(** C3, amended: [define_labels] keeps every row.  In the final
    [future_window - 1] rows, those with fewer than [future_window] rows
    from themselves to the end, the forward extrema and [max_future_move]
    are null and [is_initiation] is 0. *)
Theorem trailing_rows_labeled_zero df thr pthr fw :
  length (define_labels df thr pthr fw) = length df
  /\ forall i r,
       define_labels df thr pthr fw !! i = Some r ->
       length df < i + fw ->
       future_price_max r = None /\ future_price_min r = None
       /\ max_future_move r = None /\ is_initiation r = 0%Z.
Proof.
  split; [unfold define_labels; apply length_imap|].
  intros i r Hr Hlate.
  destruct (lookup_define_labels _ _ _ _ _ _ Hr)
    as (Hrow & Hmax & Hmin & Hmove & Hlabel).
  assert (Hi : i < length df) by (by eapply lookup_lt_Some).
  assert (Hshort : length (observations (forward_prices df i fw)) < fw).
  { pose proof (length_observations_le (forward_prices df i fw)).
    pose proof (length_forward_prices df i fw). lia. }
  rewrite (roll_max_short _ _ Hshort) in Hmax.
  rewrite (roll_min_short _ _ Hshort) in Hmin.
  rewrite Hmax, Hmin in Hmove.
  assert (Hnull : max_future_move r = None).
  { rewrite Hmove. by destruct (row_price (features r)). }
  rewrite Hlabel, Hnull. simpl. by rewrite andb_false_r.
Qed.

Lemma trailing_rows_labeled_zero_witness :
  exists r,
    define_labels short_table default_tps_threshold
      default_price_move_threshold 2 !! 2 = Some r
    /\ future_price_max r = None /\ future_price_min r = None
    /\ max_future_move r = None /\ is_initiation r = 0%Z.
Proof.
  eexists. split; [reflexivity|].
  apply (proj2 (trailing_rows_labeled_zero short_table default_tps_threshold
                  default_price_move_threshold 2) 2 _ eq_refl).
  simpl. lia.
Defined.

(** C4: a row is labeled 1 exactly when [factor_tps > tps_threshold] and
    [max_future_move >= price_move_threshold], and 0 otherwise.  A factor
    equal to the threshold gives 0; a move equal to its threshold, under a
    factor above the threshold, gives 1. *)
Theorem is_initiation_iff df thr pthr fw i r :
  define_labels df thr pthr fw !! i = Some r ->
  (is_initiation r = 1%Z
   <-> gt (row_factor_tps (features r)) (Some thr)
       /\ ge (max_future_move r) (Some pthr))
  /\ (is_initiation r = 0%Z \/ is_initiation r = 1%Z)
  /\ (forall f, row_factor_tps (features r) = Some f -> (f == thr)%Q ->
        is_initiation r = 0%Z)
  /\ (forall m, gt (row_factor_tps (features r)) (Some thr) ->
        max_future_move r = Some m -> (m == pthr)%Q ->
        is_initiation r = 1%Z).
Proof.
  intros Hr.
  destruct (lookup_define_labels _ _ _ _ _ _ Hr) as (_ & _ & _ & _ & Hlabel).
  assert (Hiff : is_initiation r = 1%Z
                 <-> gt (row_factor_tps (features r)) (Some thr)
                     /\ ge (max_future_move r) (Some pthr)).
  { rewrite Hlabel, <- gtb_gt, <- geb_ge.
    destruct (gtb _ _), (geb _ _); simpl; split;
      first [done | by intros [? ?]]. }
  split; [exact Hiff|]. split; [|split].
  - rewrite Hlabel. destruct (gtb _ _ && geb _ _); simpl; auto.
  - intros f Hf Heq. rewrite Hlabel, Hf. unfold gtb.
    assert (Hle : Qle_bool f thr = true).
    { apply Qle_bool_iff. rewrite Heq. apply Qle_refl. }
    by rewrite Hle.
  - intros m Hgt Hm Heq. apply Hiff. split; [done|].
    exists m, pthr. rewrite Hm. repeat split. rewrite Heq. apply Qle_refl.
Qed.

Lemma is_initiation_iff_witness :
  exists r m,
    define_labels boundary_table default_tps_threshold
      default_price_move_threshold 2 !! 1 = Some r
    /\ row_factor_tps (features r) = Some 4001%Q
    /\ max_future_move r = Some m
    /\ (m == default_price_move_threshold)%Q
    /\ is_initiation r = 1%Z.
Proof.
  do 2 eexists. split; [reflexivity|]. split; [reflexivity|].
  split; [reflexivity|].
  assert (Heq : (Qmax ((1035 # 10) - (1035 # 10)) ((1035 # 10) - 100)
                 == default_price_move_threshold)%Q) by reflexivity.
  split; [exact Heq|].
  eapply (proj2 (proj2 (proj2
            (is_initiation_iff boundary_table default_tps_threshold
               default_price_move_threshold 2 1 _ eq_refl)))).
  - exists 4001%Q, default_tps_threshold. repeat split.
  - reflexivity.
  - exact Heq.
Defined.

End Labeling.

(* ===================================================================== *)
(** ** Further properties of the window engine *)
(* ===================================================================== *)

Module WindowProps.
Import Float Rolling CleanData WindowSpec FloatFacts RollingFacts Ingestion
  WindowEngine.

(** *** Causality: a row depends on no later row *)

Lemma first_inside_range idx bound fuel : forall j,
  j <= first_inside idx bound j fuel <= j + fuel.
Proof.
  induction fuel as [|fuel IH]; intros j; simpl; [lia|].
  destruct (idx !! j) as [t|]; [|lia].
  destruct (bound <? t)%Z; [lia|]. specialize (IH (S j)). lia.
Qed.

Lemma first_inside_take idx n bound fuel : forall j,
  j + fuel <= n ->
  first_inside (take n idx) bound j fuel = first_inside idx bound j fuel.
Proof.
  induction fuel as [|fuel IH]; intros j Hn; simpl; [done|].
  rewrite lookup_take_lt by lia.
  destruct (idx !! j) as [t|]; [|done].
  destruct (bound <? t)%Z; [done|]. apply IH. lia.
Qed.

Lemma starts_from_take idx n window todo : forall prev i m,
  prev <= i -> i + m <= n ->
  starts_from (take n idx) window prev i (take m todo)
  = take m (starts_from idx window prev i todo).
Proof.
  induction todo as [|t todo IH]; intros prev i m Hprev Hn.
  - cbn [starts_from]. by rewrite !take_nil.
  - destruct m as [|m]; [done|]. cbn [take starts_from].
    rewrite first_inside_take by lia. f_equal.
    pose proof (first_inside_range idx (t - window) (i - prev) prev).
    apply IH; lia.
Qed.

Lemma variable_window_starts_take idx window n :
  variable_window_starts (take n idx) window
  = take n (variable_window_starts idx window).
Proof.
  destruct idx as [|t todo].
  { rewrite take_nil. cbn [variable_window_starts]. by rewrite take_nil. }
  destruct n as [|n]; [done|].
  cbn [take variable_window_starts]. f_equal.
  apply (starts_from_take (t :: todo) (S n) window todo 0 1 n); lia.
Qed.

Lemma closed_right_ends_take len n :
  closed_right_ends (n `min` len) = take n (closed_right_ends len).
Proof. unfold closed_right_ends. by rewrite <- fmap_take, take_seq. Qed.

Lemma rolling_apply_take {A B} starts ends (agg : list A -> B) values n :
  (forall i e, ends !! i = Some e -> i < n -> e <= n) ->
  rolling_apply (take n starts) (take n ends) agg (take n values)
  = take n (rolling_apply starts ends agg values).
Proof.
  intros Hends. apply list_eq. intros i.
  unfold rolling_apply. rewrite lookup_take, !lookup_zip_with, !lookup_take.
  case_decide as Hi; [|done].
  destruct (starts !! i) as [s|]; [|done]. simpl.
  destruct (ends !! i) as [e|] eqn:He; [|done]. simpl.
  do 2 f_equal. unfold slice.
  rewrite take_take, Nat.min_l by (eapply Hends; done). done.
Qed.

Lemma time_rolling_take {B} (df : list tick) window
    (agg : list float64 -> B) (col : tick -> float64) n :
  rolling_apply (variable_window_starts (Timestamp <$> take n df) window)
    (closed_right_ends (length (take n df))) agg (col <$> take n df)
  = take n (rolling_apply (variable_window_starts (Timestamp <$> df) window)
              (closed_right_ends (length df)) agg (col <$> df)).
Proof.
  rewrite !fmap_take, variable_window_starts_take, length_take,
    closed_right_ends_take.
  apply rolling_apply_take.
  intros i e He Hi. apply lookup_closed_right_ends in He as [-> _]. lia.
Qed.

(** X1: the rows computed for the first [n] ticks alone are the first [n]
    rows computed for the whole table: no window column of a tick depends
    on a tick that comes after it. *)
Theorem window_features_prefix df window_ms tps_window_sec n :
  window_features (take n df) window_ms tps_window_sec
  = take n (window_features df window_ms tps_window_sec).
Proof.
  assert (Hvol : window_vol_col (take n df) window_ms
                 = take n (window_vol_col df window_ms)).
  { apply time_rolling_take. }
  assert (Hcnt : window_count_col (take n df) tps_window_sec
                 = take n (window_count_col df tps_window_sec)).
  { apply time_rolling_take. }
  assert (Hts : ts_series (take n df) = take n (ts_series df)).
  { unfold ts_series. by rewrite !fmap_take. }
  assert (Hmin : min_ts_in_window (take n df) tps_window_sec
                 = take n (min_ts_in_window df tps_window_sec)).
  { unfold min_ts_in_window, ts_series. rewrite <- !list_fmap_compose.
    apply time_rolling_take. }
  assert (Hdur : duration_sec (take n df) tps_window_sec
                 = take n (duration_sec df tps_window_sec)).
  { unfold duration_sec. by rewrite Hts, Hmin, zip_with_take. }
  assert (Htps : tps_window_col (take n df) tps_window_sec
                 = take n (tps_window_col df tps_window_sec)).
  { unfold tps_window_col. by rewrite Hcnt, Hdur, <- zip_with_take, fmap_take. }
  assert (Hfac : factor_tps_col (take n df) window_ms tps_window_sec
                 = take n (factor_tps_col df window_ms tps_window_sec)).
  { unfold factor_tps_col. by rewrite Hvol, Htps, <- zip_with_take, fmap_take. }
  unfold window_features.
  rewrite Hvol, Hdur, Hcnt, Htps, Hfac.
  by rewrite !zip_with_take.
Qed.


(** *** Rows of the output *)

Lemma tick_of_window_features df window_ms tps_window_sec :
  tick_of <$> window_features df window_ms tps_window_sec = df.
Proof.
  apply list_eq. intros i. rewrite list_lookup_fmap.
  destruct (df !! i) as [t|] eqn:Ht.
  - destruct (window_features_total df window_ms tps_window_sec i t Ht)
      as (r & -> & <-). done.
  - rewrite (lookup_ge_None_2 (window_features _ _ _)); [done|].
    rewrite length_window_features. by apply lookup_ge_None.
Qed.

Lemma length_dropna_Timestamp raw :
  length (dropna_Timestamp raw)
  = length (filter (fun r => is_Some (raw_Timestamp r)) raw).
Proof.
  unfold dropna_Timestamp. induction raw as [|r raw IH]; [done|].
  csimpl. destruct (raw_Timestamp r) as [t|] eqn:Ht; csimpl.
  - rewrite filter_cons_True by (rewrite Ht; by eexists).
    simpl. by rewrite IH.
  - rewrite filter_cons_False by (rewrite Ht; by intros [? ?]). exact IH.
Qed.

Lemma ordered_ticks_perm sort_values raw :
  (forall l, sort_values l ≡ₚ l) ->
  ordered_ticks sort_values raw ≡ₚ dropna_Timestamp raw.
Proof.
  intros Hperm. unfold ordered_ticks, sort_index.
  destruct (is_monotonic_increasing _); by rewrite ?Hperm.
Qed.

(** X2: when [sort_values] rearranges its rows into time order, the output
    holds exactly the input rows whose timestamp parsed, each once, in
    non-decreasing time order; a row is dropped for no other reason. *)
Theorem output_is_the_valid_rows_in_time_order sort_values raw
    window_ms tps_window_sec :
  (forall l, sort_values l ≡ₚ l) ->
  (forall l, is_monotonic_increasing (Timestamp <$> sort_values l) = true) ->
  let out := process_historical_file sort_values raw window_ms tps_window_sec in
  out_tick <$> out ≡ₚ dropna_Timestamp raw
  /\ is_monotonic_increasing (Timestamp <$> (out_tick <$> out)) = true
  /\ length out = length (filter (fun r => is_Some (raw_Timestamp r)) raw).
Proof.
  intros Hperm Hsort out.
  assert (Hticks : out_tick <$> out = ordered_ticks sort_values raw).
  { unfold out, process_historical_file, df_indexed.
    rewrite <- list_fmap_compose.
    rewrite <- (tick_of_window_features (ordered_ticks sort_values raw)
                  window_ms tps_window_sec) at 2.
    by apply list_fmap_ext. }
  rewrite Hticks. split; [by apply ordered_ticks_perm|].
  split; [by apply ordered_ticks_monotonic|].
  rewrite <- length_dropna_Timestamp, <- (length_fmap out_tick), Hticks.
  by rewrite (ordered_ticks_perm sort_values raw Hperm).
Qed.

Lemma output_is_the_valid_rows_in_time_order_witness :
  let out := process_historical_file stable_sort mixed_ticks 500 10 in
  out_tick <$> out ≡ₚ dropna_Timestamp mixed_ticks
  /\ is_monotonic_increasing (Timestamp <$> (out_tick <$> out)) = true
  /\ length out
     = length (filter (fun r => is_Some (raw_Timestamp r)) mixed_ticks).
Proof.
  exact (output_is_the_valid_rows_in_time_order stable_sort mixed_ticks 500 10
           stable_sort_perm stable_sort_monotonic).
Defined.


(** *** Duration, count and rate of a row *)

Lemma omap_Some_fmap {A B} (f : A -> B) (l : list A) :
  omap (fun x => Some (f x)) l = f <$> l.
Proof. induction l as [|x l IH]; [done|]. csimpl. by rewrite IH. Qed.

(** A non-empty window has an oldest tick. *)
Lemma oldest_tick (trailing : list tick) :
  trailing <> [] ->
  exists oldest,
    oldest ∈ trailing
    /\ forall u, u ∈ trailing -> (Timestamp oldest <= Timestamp u)%Z.
Proof.
  induction trailing as [|u0 rest IH]; [done|]. intros _.
  destruct rest as [|u1 rest].
  - exists u0. split; [apply list_elem_of_here|].
    intros u Hu. apply list_elem_of_singleton in Hu as ->. lia.
  - destruct (IH ltac:(done)) as (o & Ho & Hleast).
    destruct (Z_le_gt_dec (Timestamp u0) (Timestamp o)) as [Hle|Hgt].
    + exists u0. split; [apply list_elem_of_here|].
      intros u Hu. apply elem_of_cons in Hu as [->|Hu]; [lia|].
      specialize (Hleast u Hu). lia.
    + exists o. split; [by apply list_elem_of_further|].
      intros u Hu. apply elem_of_cons in Hu as [->|Hu]; [lia|].
      by apply Hleast.
Qed.

(** The least of the cast timestamps is the cast of the least timestamp. *)
Lemma Qminimum_cast u0 rest oldest :
  oldest ∈ u0 :: rest ->
  (forall u, u ∈ u0 :: rest -> (Timestamp oldest <= Timestamp u)%Z) ->
  Qminimum (inject_Z (float64_of_int64 (Timestamp u0)))
    ((fun u => inject_Z (float64_of_int64 (Timestamp u))) <$> rest)
  = inject_Z (float64_of_int64 (Timestamp oldest)).
Proof.
  intros Hold Hleast.
  set (g := fun u => inject_Z (float64_of_int64 (Timestamp u))).
  pose proof (Labeling.Qminimum_elem (g u0) (g <$> rest)) as Hel.
  change (g u0 :: (g <$> rest)) with (g <$> (u0 :: rest)) in Hel.
  apply list_elem_of_fmap in Hel as (low & Hm & Hlow).
  pose proof (Labeling.Qminimum_lower (g u0) (g <$> rest) (g oldest)) as Hle.
  change (g u0 :: (g <$> rest)) with (g <$> (u0 :: rest)) in Hle.
  specialize (Hle (list_elem_of_fmap_2 g _ _ Hold)).
  change (Qminimum (g u0) (g <$> rest) = g oldest).
  rewrite Hm in Hle |- *. unfold g in Hle |- *.
  rewrite <- Zle_Qle in Hle.
  pose proof (CastFacts.float64_of_int64_mono _ _ (Hleast low Hlow)).
  f_equal. lia.
Qed.

(** The rolling minimum of the time index is the float64 of the time of the
    oldest tick of the trailing window. *)
Lemma min_ts_trailing df tps_window_sec i t mn :
  is_monotonic_increasing (Timestamp <$> df) = true ->
  (0 < tps_window_sec)%Z ->
  df !! i = Some t ->
  min_ts_in_window df tps_window_sec !! i = Some mn ->
  exists oldest,
    oldest ∈ ticks_in (Timestamp t - ns_of_sec tps_window_sec) (Timestamp t)
               (take (S i) df)
    /\ (forall u,
          u ∈ ticks_in (Timestamp t - ns_of_sec tps_window_sec) (Timestamp t)
                (take (S i) df) ->
          (Timestamp oldest <= Timestamp u)%Z)
    /\ mn = Some (inject_Z (float64_of_int64 (Timestamp oldest))).
Proof.
  intros Hmono Hw Ht Hmn.
  unfold min_ts_in_window, ts_series in Hmn.
  rewrite <- list_fmap_compose in Hmn.
  eapply lookup_time_rolling in Hmn;
    [| done | unfold ns_of_sec; lia | done].
  pose proof (current_tick_in_window df (ns_of_sec tps_window_sec) i t
                ltac:(unfold ns_of_sec; lia) Ht) as Hin.
  set (trailing := ticks_in _ _ _) in *.
  unfold roll_min in Hmn. rewrite observations_fmap in Hmn.
  change (omap (astype_float64 ∘ Timestamp) trailing)
    with (omap (fun u => Some (inject_Z (float64_of_int64 (Timestamp u))))
            trailing) in Hmn.
  rewrite omap_Some_fmap in Hmn.
  destruct (oldest_tick trailing) as (oldest & Hold & Hleast).
  { intros Hnil. rewrite Hnil in Hin. by apply elem_of_nil in Hin. }
  exists oldest. split; [done|]. split; [done|].
  destruct trailing as [|u0 rest]; [by apply elem_of_nil in Hin|].
  rewrite fmap_cons in Hmn. rewrite decide_True in Hmn by (simpl; lia).
  by rewrite Hmn, (Qminimum_cast u0 rest oldest Hold Hleast).
Qed.

Lemma elem_of_ticks_in lo hi df u :
  u ∈ ticks_in lo hi df <-> (lo < Timestamp u <= hi)%Z /\ u ∈ df.
Proof. unfold ticks_in. by rewrite list_elem_of_filter. Qed.

(** The duration cell of a row, from the oldest tick of its window. *)
Lemma duration_of_row df window_ms tps_window_sec i r :
  is_monotonic_increasing (Timestamp <$> df) = true ->
  (0 < tps_window_sec)%Z ->
  window_features df window_ms tps_window_sec !! i = Some r ->
  exists oldest,
    oldest ∈ ticks_in (Timestamp (tick_of r) - ns_of_sec tps_window_sec)
               (Timestamp (tick_of r)) (take (S i) df)
    /\ (forall u,
          u ∈ ticks_in (Timestamp (tick_of r) - ns_of_sec tps_window_sec)
                (Timestamp (tick_of r)) (take (S i) df) ->
          (Timestamp oldest <= Timestamp u)%Z)
    /\ window_duration r
       = Some ((inject_Z (float64_of_int64 (Timestamp (tick_of r)))
                - inject_Z (float64_of_int64 (Timestamp oldest)))
               / inject_Z 1000000000)%Q.
Proof.
  intros Hmono Hw Hr.
  apply lookup_window_features in Hr as (Ht & _ & Hdur & _).
  unfold duration_sec in Hdur.
  apply lookup_zip_with_Some in Hdur as (cur & mn & Hd & Hcur & Hmn).
  destruct (min_ts_trailing df tps_window_sec i _ mn Hmono Hw Ht Hmn)
    as (oldest & Hold & Hleast & ->).
  unfold ts_series in Hcur.
  rewrite list_lookup_fmap, Ht in Hcur. simpl in Hcur.
  injection Hcur as <-. by exists oldest.
Qed.

(** The cast keeps the order of two timestamps, so a duration is never
    negative. *)
Lemma cast_span_nonneg (T told : Z) :
  (told <= T)%Z ->
  (0 <= (inject_Z (float64_of_int64 T) - inject_Z (float64_of_int64 told))
        / inject_Z 1000000000)%Q.
Proof.
  intros Hle. pose proof (CastFacts.float64_of_int64_mono _ _ Hle) as Hm.
  apply Qle_shift_div_l; [reflexivity|].
  rewrite Qmult_0_l. rewrite Zle_Qle in Hm. lra.
Qed.

Lemma span_in_seconds (T told sec : Z) :
  (T - sec * 1000000000 < told <= T)%Z ->
  ((inject_Z T - inject_Z told) / inject_Z 1000000000
     == inject_Z (T - told) / 1000000000)%Q
  /\ (0 <= (inject_Z T - inject_Z told) / inject_Z 1000000000)%Q
  /\ ((inject_Z T - inject_Z told) / inject_Z 1000000000 < inject_Z sec)%Q.
Proof.
  intros Hrange.
  assert (Hdiff : (inject_Z T - inject_Z told == inject_Z (T - told))%Q).
  { unfold Z.sub. rewrite inject_Z_plus, inject_Z_opp. reflexivity. }
  split; [by rewrite Hdiff|]. rewrite Hdiff.
  set (dz := (T - told)%Z) in *.
  assert (0 <= dz < sec * 1000000000)%Z as [Hlo Hhi] by lia.
  unfold Qdiv, Qmult, Qinv, Qle, Qlt, inject_Z. simpl. lia.
Qed.

(** Within the int64 range the cast moves a time span by at most 1024 ns. *)
Lemma cast_span_error (T told : Z) :
  (- 2 ^ 63 <= T <= 2 ^ 63)%Z -> (- 2 ^ 63 <= told <= 2 ^ 63)%Z ->
  (Qabs ((inject_Z (float64_of_int64 T) - inject_Z (float64_of_int64 told))
         / inject_Z 1000000000
         - inject_Z (T - told) / 1000000000)
   <= 1024 # 1000000000)%Q.
Proof.
  intros HT Hold.
  pose proof (CastFacts.float64_of_int64_error T HT) as HeT.
  pose proof (CastFacts.float64_of_int64_error told Hold) as Heo.
  set (a := float64_of_int64 T) in *. set (b := float64_of_int64 told) in *.
  apply Qabs_Qle_condition.
  assert (Hdiff : ((inject_Z a - inject_Z b) / inject_Z 1000000000
                   - inject_Z (T - told) / 1000000000
                   == inject_Z (a - b - (T - told)) / 1000000000)%Q).
  { unfold Qeq, Qdiv, Qmult, Qinv, Qminus, Qplus, Qopp, inject_Z. simpl.
    lia. }
  rewrite Hdiff.
  set (dz := (a - b - (T - told))%Z).
  assert (- 1024 <= dz <= 1024)%Z as [Hlo Hhi] by lia.
  unfold Qdiv, Qmult, Qinv, Qle, Qopp, inject_Z. simpl. lia.
Qed.

(** X3: [window_duration] is, in seconds, the distance between the float64
    values of two timestamps: the row's own and that of the oldest tick of
    its trailing tick-rate window.  It is never negative.  It is the time
    between the two ticks exactly when both timestamps are below [2^53] ns
    in magnitude, and is then shorter than the window; for any int64
    timestamps it is within 1024 ns of that time (the cast rounds the
    timestamps of this century to multiples of 256 ns). *)
Theorem window_duration_spans_window df window_ms tps_window_sec i r :
  is_monotonic_increasing (Timestamp <$> df) = true ->
  (0 < tps_window_sec)%Z ->
  window_features df window_ms tps_window_sec !! i = Some r ->
  let T := Timestamp (tick_of r) in
  let trailing := ticks_in (T - ns_of_sec tps_window_sec) T (take (S i) df) in
  exists oldest d,
    oldest ∈ trailing
    /\ (forall u, u ∈ trailing -> (Timestamp oldest <= Timestamp u)%Z)
    /\ window_duration r = Some d
    /\ (d == inject_Z (float64_of_int64 T
                       - float64_of_int64 (Timestamp oldest)) / 1000000000)%Q
    /\ (0 <= d)%Q
    /\ ((Z.abs T < 2 ^ 53)%Z -> (Z.abs (Timestamp oldest) < 2 ^ 53)%Z ->
        (d == inject_Z (T - Timestamp oldest) / 1000000000)%Q
        /\ (d < inject_Z tps_window_sec)%Q)
    /\ ((- 2 ^ 63 <= T <= 2 ^ 63)%Z ->
        (- 2 ^ 63 <= Timestamp oldest <= 2 ^ 63)%Z ->
        (Qabs (d - inject_Z (T - Timestamp oldest) / 1000000000)
         <= 1024 # 1000000000)%Q).
Proof.
  intros Hmono Hw Hr T trailing.
  destruct (duration_of_row _ _ _ _ _ Hmono Hw Hr)
    as (oldest & Hold & Hleast & Hd).
  fold T in Hold, Hleast, Hd. fold trailing in Hold, Hleast.
  apply elem_of_ticks_in in Hold as Hrange. destruct Hrange as [Hrange _].
  exists oldest, ((inject_Z (float64_of_int64 T)
                   - inject_Z (float64_of_int64 (Timestamp oldest)))
                  / inject_Z 1000000000)%Q.
  split; [done|]. split; [done|]. split; [exact Hd|].
  split; [|split; [|split]].
  - unfold Z.sub. rewrite inject_Z_plus, inject_Z_opp. reflexivity.
  - apply cast_span_nonneg. lia.
  - intros HT Holdest.
    rewrite (CastFacts.float64_of_int64_small T HT).
    rewrite (CastFacts.float64_of_int64_small _ Holdest).
    destruct (span_in_seconds T (Timestamp oldest) tps_window_sec Hrange)
      as (Hspan & _ & Hshort).
    by split.
  - intros HT Holdest. by apply cast_span_error.
Qed.

Lemma window_duration_spans_window_witness :
  exists r oldest d,
    window_features (ordered_ticks stable_sort ticks_of_2025) 500 10 !! 1
      = Some r
    /\ oldest ∈ ticks_in (Timestamp (tick_of r) - ns_of_sec 10)
                 (Timestamp (tick_of r))
                 (take 2 (ordered_ticks stable_sort ticks_of_2025))
    /\ window_duration r = Some d
    /\ (d == 1000192 # 1000000000)%Q
    /\ (0 <= d)%Q.
Proof.
  eexists.
  destruct (window_duration_spans_window
              (ordered_ticks stable_sort ticks_of_2025) 500 10 1 _
              eq_refl eq_refl eq_refl)
    as (oldest & d & Hold & _ & Hd & _ & Hlo & _).
  exists oldest, d. split; [reflexivity|]. split; [exact Hold|].
  split; [exact Hd|]. split; [|exact Hlo].
  injection Hd as <-. vm_compute. reflexivity.
Defined.


(** *** Rounding *)

Lemma rint_close (x : Q) :
  (inject_Z (rint x) - x <= 1 # 2)%Q /\ (x - inject_Z (rint x) <= 1 # 2)%Q.
Proof.
  unfold rint. pose proof (Qfloor_le x) as Hlo. pose proof (Qlt_floor x) as Hhi.
  rewrite inject_Z_plus in Hhi. change (inject_Z 1) with 1%Q in Hhi.
  set (f := Qfloor x) in *.
  destruct (Qcompare_spec (x - inject_Z f) (1 # 2)) as [Heq|Hlt|Hgt].
  - destruct (Z.even f); [|rewrite inject_Z_plus; change (inject_Z 1) with 1%Q];
      split; lra.
  - split; lra.
  - rewrite inject_Z_plus. change (inject_Z 1) with 1%Q. split; lra.
Qed.

Lemma hundredths (z : Z) : (z # 100 == inject_Z z * (1 # 100))%Q.
Proof. unfold Qeq. simpl. lia. Qed.

Lemma round2_close (q : Q) :
  (round2 q - q <= 1 # 200)%Q /\ (q - round2 q <= 1 # 200)%Q.
Proof.
  unfold round2. rewrite hundredths.
  destruct (rint_close (q * 100)) as [H1 H2]. split; lra.
Qed.

Lemma rint_nonneg (x : Q) : (0 <= x)%Q -> (0 <= rint x)%Z.
Proof.
  intros Hx. pose proof (Qfloor_resp_le 0 x Hx) as Hf.
  change (Qfloor 0) with 0%Z in Hf. unfold rint.
  destruct (_ ?= _)%Q; [destruct (Z.even _)| |]; lia.
Qed.

Lemma round2_nonneg (q : Q) : (0 <= q)%Q -> (0 <= round2 q)%Q.
Proof.
  intros Hq. unfold round2.
  pose proof (rint_nonneg (q * 100) ltac:(lra)) as Hr.
  unfold Qle. simpl. lia.
Qed.

Lemma round2_zero (x : Q) : (x == 0)%Q -> round2 x = (0 # 100)%Q.
Proof.
  intros Hx. unfold round2, rint.
  assert (H100 : (x * 100 == 0)%Q) by (rewrite Hx; reflexivity).
  assert (Hf : Qfloor (x * 100) = 0%Z) by (by rewrite H100).
  rewrite Hf.
  assert (Hc : (x * 100 - inject_Z 0 ?= 1 # 2)%Q = Lt).
  { rewrite <- Qlt_alt. change (inject_Z 0) with 0%Q. lra. }
  by rewrite Hc.
Qed.

(** *** The rate of a row *)

Lemma row_composition df window_ms tps_window_sec i r :
  window_features df window_ms tps_window_sec !! i = Some r ->
  tps_window r = round_2 (calc_tps (window_count r) (window_duration r))
  /\ factor_tps r = round_2 (mul (window_vol r) (tps_window r)).
Proof.
  intros Hr.
  apply lookup_window_features in Hr as (_ & Hwv & Hdur & Hcnt & Htps & Hfac).
  split.
  - unfold tps_window_col in Htps.
    apply list_lookup_fmap_Some in Htps as (y & -> & Hzip).
    apply lookup_zip_with_Some in Hzip as (cnt & dur & -> & Hcnt' & Hdur').
    congruence.
  - unfold factor_tps_col in Hfac.
    apply list_lookup_fmap_Some in Hfac as (y & -> & Hzip).
    apply lookup_zip_with_Some in Hzip as (wv & tps & -> & Hwv' & Htps').
    congruence.
Qed.

Lemma calc_tps_of_count (k : nat) (d : Q) :
  (0 <= d)%Q ->
  calc_tps (of_nat k) (Some d) = Some (unrounded_rate k d)
  /\ (0 <= unrounded_rate k d)%Q.
Proof.
  intros Hd. unfold unrounded_rate.
  assert (Hk : (0 <= inject_Z (Z.of_nat k))%Q).
  { rewrite <- (Zle_Qle 0). lia. }
  destruct (decide (k <= 1)) as [Hle|Hgt].
  - split; [|lra]. apply calc_tps_single.
    change 1%Q with (inject_Z 1). rewrite <- Zle_Qle. lia.
  - assert (Hone : (1 < inject_Z (Z.of_nat k))%Q).
    { change 1%Q with (inject_Z 1). rewrite <- Zlt_Qlt. lia. }
    destruct (Qle_bool d (1 # 1000)) eqn:Hshort.
    + split; [|done]. apply calc_tps_short_window; [done|].
      by apply Qle_bool_iff.
    + assert (Hlong : (1 # 1000 < d)%Q).
      { apply Qnot_le_lt. intros Hc. apply Qle_bool_iff in Hc. congruence. }
      split; [by apply calc_tps_rate|].
      apply Qle_shift_div_l; lra.
Qed.


Lemma length_omap_le {A B} (f : A -> option B) (l : list A) :
  length (omap f l) <= length l.
Proof.
  induction l as [|x l IH]; [done|]. csimpl. destruct (f x); csimpl; lia.
Qed.

(** Count, duration and rate of one row of a sorted table. *)
Lemma rate_of_row df window_ms tps_window_sec i r :
  is_monotonic_increasing (Timestamp <$> df) = true ->
  (0 < tps_window_sec)%Z ->
  window_features df window_ms tps_window_sec !! i = Some r ->
  exists k d,
    k = length (omap Volumen
          (ticks_in (Timestamp (tick_of r) - ns_of_sec tps_window_sec)
             (Timestamp (tick_of r)) (take (S i) df)))
    /\ window_count r = of_nat k
    /\ window_duration r = Some d /\ (0 <= d)%Q
    /\ tps_window r = Some (round2 (unrounded_rate k d))
    /\ (0 <= unrounded_rate k d)%Q.
Proof.
  intros Hmono Hw Hr.
  destruct (duration_of_row _ _ _ _ _ Hmono Hw Hr) as (oldest & Hold & _ & Hd).
  apply elem_of_ticks_in in Hold as [Hrange _]. unfold ns_of_sec in Hrange.
  pose proof (cast_span_nonneg (Timestamp (tick_of r)) (Timestamp oldest)
                ltac:(lia)) as Hlo.
  pose proof (window_count_counts_volumes _ _ _ _ _ Hw Hmono Hr) as Hcnt.
  destruct (row_composition _ _ _ _ _ Hr) as [Htps _].
  eexists _, _. split; [reflexivity|]. split; [exact Hcnt|].
  split; [exact Hd|]. split; [exact Hlo|].
  rewrite Htps, Hcnt, Hd.
  destruct (calc_tps_of_count
              (length (omap Volumen
                 (ticks_in (Timestamp (tick_of r) - tps_window_sec * 1000000000)
                    (Timestamp (tick_of r)) (take (S i) df)))) _ Hlo)
    as [Hcalc Hnonneg].
  unfold ns_of_sec. rewrite Hcalc. done.
Qed.

(** X4: the rate of a row follows three cases on the number [k] of ticks
    with a volume in its trailing window and the window's duration [d]:
    0.00 for [k <= 1]; the count [k] itself, to 2 decimals, for [k > 1] and
    [d <= 0.001]; and [k / d] rounded to 2 decimals otherwise. *)
Theorem tps_window_three_cases df window_ms tps_window_sec i r :
  is_monotonic_increasing (Timestamp <$> df) = true ->
  (0 < tps_window_sec)%Z ->
  window_features df window_ms tps_window_sec !! i = Some r ->
  exists k d,
    window_count r = of_nat k /\ window_duration r = Some d
    /\ (k <= 1 -> tps_window r = Some (0 # 100)%Q)
    /\ (1 < k -> (d <= 1 # 1000)%Q ->
        tps_window r = Some (round2 (inject_Z (Z.of_nat k))))
    /\ (1 < k -> (1 # 1000 < d)%Q ->
        tps_window r = Some (round2 (inject_Z (Z.of_nat k) / d))).
Proof.
  intros Hmono Hw Hr.
  destruct (rate_of_row _ _ _ _ _ Hmono Hw Hr)
    as (k & d & _ & Hcnt & Hd & _ & Htps & _).
  exists k, d. split; [done|]. split; [done|].
  unfold unrounded_rate in Htps. repeat split.
  - intros Hk. by rewrite decide_True in Htps by done.
  - intros Hk Hshort. rewrite decide_False in Htps by lia.
    apply Qle_bool_iff in Hshort. by rewrite Hshort in Htps.
  - intros Hk Hlong. rewrite decide_False in Htps by lia.
    destruct (Qle_bool d (1 # 1000)) eqn:E; [|done].
    apply Qle_bool_iff in E. lra.
Qed.

Lemma tps_window_three_cases_witness :
  exists r k d,
    window_features (ordered_ticks stable_sort mixed_ticks) 500 10 !! 4
      = Some r
    /\ window_count r = of_nat k /\ window_duration r = Some d
    /\ (k <= 1 -> tps_window r = Some (0 # 100)%Q)
    /\ (1 < k -> (d <= 1 # 1000)%Q ->
        tps_window r = Some (round2 (inject_Z (Z.of_nat k))))
    /\ (1 < k -> (1 # 1000 < d)%Q ->
        tps_window r = Some (round2 (inject_Z (Z.of_nat k) / d))).
Proof.
  eexists.
  destruct (tps_window_three_cases
              (ordered_ticks stable_sort mixed_ticks) 500 10 4 _
              eq_refl eq_refl eq_refl) as (k & d & H).
  exists k, d. split; [reflexivity | exact H].
Defined.

(** X5: no row has a null count or a null rate: [window_count] is a whole
    number of at most [i + 1], at least 1 when the row's own tick has a
    volume, and [tps_window] is never negative. *)
Theorem count_and_rate_ranges df window_ms tps_window_sec i r :
  is_monotonic_increasing (Timestamp <$> df) = true ->
  (0 < tps_window_sec)%Z ->
  window_features df window_ms tps_window_sec !! i = Some r ->
  exists k q,
    window_count r = of_nat k /\ k <= S i
    /\ (is_Some (Volumen (tick_of r)) -> 1 <= k)
    /\ tps_window r = Some q /\ (0 <= q)%Q.
Proof.
  intros Hmono Hw Hr.
  destruct (rate_of_row _ _ _ _ _ Hmono Hw Hr)
    as (k & d & Hk & Hcnt & _ & _ & Htps & Hrate).
  exists k, (round2 (unrounded_rate k d)).
  split; [done|]. split; [|split; [|split; [done | by apply round2_nonneg]]].
  - rewrite Hk. etrans; [apply length_omap_le|]. unfold ticks_in.
    etrans; [apply length_filter|]. rewrite length_take. lia.
  - intros [v Hv]. rewrite Hk.
    apply lookup_window_features in Hr as (Ht & _).
    pose proof (current_tick_in_window df (ns_of_sec tps_window_sec) i _
                  ltac:(unfold ns_of_sec; lia) Ht) as Hin.
    assert (Hel : v ∈ omap Volumen
              (ticks_in (Timestamp (tick_of r) - ns_of_sec tps_window_sec)
                 (Timestamp (tick_of r)) (take (S i) df))).
    { apply list_elem_of_omap. by exists (tick_of r). }
    destruct (omap Volumen _); [by apply elem_of_nil in Hel | simpl; lia].
Qed.

Lemma count_and_rate_ranges_witness :
  exists r k q,
    window_features (ordered_ticks stable_sort mixed_ticks) 500 10 !! 1
      = Some r
    /\ window_count r = of_nat k /\ k <= 2
    /\ (is_Some (Volumen (tick_of r)) -> 1 <= k)
    /\ tps_window r = Some q /\ (0 <= q)%Q.
Proof.
  eexists.
  destruct (count_and_rate_ranges
              (ordered_ticks stable_sort mixed_ticks) 500 10 1 _
              eq_refl eq_refl eq_refl) as (k & q & H).
  exists k, q. split; [reflexivity | exact H].
Defined.


(** The volume cell of one row of a sorted table. *)
Lemma window_vol_of_row df window_ms tps_window_sec i r :
  is_monotonic_increasing (Timestamp <$> df) = true ->
  (0 < window_ms)%Z ->
  window_features df window_ms tps_window_sec !! i = Some r ->
  window_vol r
  = match omap Volumen
            (ticks_in (Timestamp (tick_of r) - ns_of_ms window_ms)
               (Timestamp (tick_of r)) (take (S i) df)) with
    | [] => None
    | _ :: _ =>
        Some (total_volume
                (ticks_in (Timestamp (tick_of r) - ns_of_ms window_ms)
                   (Timestamp (tick_of r)) (take (S i) df)))
    end.
Proof.
  intros Hmono Hw Hr.
  apply lookup_window_features in Hr as (Ht & Hwv & _).
  unfold window_vol_col in Hwv.
  eapply lookup_time_rolling in Hwv; [| done | unfold ns_of_ms; lia | done].
  rewrite Hwv. apply roll_sum_volumes.
Qed.

Lemma trailing_of_isolated_tick (df : list tick) i t window :
  (0 < window)%Z ->
  df !! i = Some t ->
  forallb (fun u => (Timestamp u <=? Timestamp t - window)%Z) (take i df)
    = true ->
  ticks_in (Timestamp t - window) (Timestamp t) (take (S i) df) = [t].
Proof.
  intros Hw Ht Hold. unfold ticks_in.
  rewrite (take_S_r df i t Ht), list.filter_app.
  rewrite filter_none.
  - rewrite filter_cons_True by lia. done.
  - apply Forall_forall. intros u Hu [Hlo _].
    rewrite forallb_forall in Hold.
    apply Hold in Hu. apply Z.leb_le in Hu. lia.
Qed.

(** X6: a tick with no earlier tick inside its tick-rate window has
    [tps_window = 0.00], and its [factor_tps] is 0.00, or null when its
    volume window holds no volume. *)
Theorem isolated_tick_has_zero_rate df window_ms tps_window_sec i r :
  is_monotonic_increasing (Timestamp <$> df) = true ->
  (0 < tps_window_sec)%Z ->
  window_features df window_ms tps_window_sec !! i = Some r ->
  forallb (fun u => (Timestamp u
                     <=? Timestamp (tick_of r) - ns_of_sec tps_window_sec)%Z)
    (take i df) = true ->
  tps_window r = Some (0 # 100)%Q
  /\ factor_tps r = (fun _ => (0 # 100)%Q) <$> window_vol r.
Proof.
  intros Hmono Hw Hr Hold.
  destruct (rate_of_row _ _ _ _ _ Hmono Hw Hr)
    as (k & d & Hk & _ & _ & _ & Htps & _).
  destruct (row_composition _ _ _ _ _ Hr) as [_ Hfac].
  pose proof Hr as Hrow.
  apply lookup_window_features in Hrow as (Ht & _).
  rewrite (trailing_of_isolated_tick df i _ (ns_of_sec tps_window_sec)) in Hk;
    [| unfold ns_of_sec; lia | done | done].
  assert (Hone : k <= 1).
  { rewrite Hk. csimpl. destruct (Volumen (tick_of r)); simpl; lia. }
  unfold unrounded_rate in Htps. rewrite decide_True in Htps by done.
  change (round2 0) with (0 # 100)%Q in Htps.
  split; [exact Htps|].
  rewrite Hfac, Htps. destruct (window_vol r) as [v|]; [|done].
  simpl. f_equal. apply round2_zero. lra.
Qed.

Lemma isolated_tick_has_zero_rate_witness :
  exists r,
    window_features (ordered_ticks stable_sort plain_ticks) 500 10 !! 2
      = Some r
    /\ tps_window r = Some (0 # 100)%Q
    /\ factor_tps r = (fun _ => (0 # 100)%Q) <$> window_vol r.
Proof.
  eexists. split; [reflexivity|].
  exact (isolated_tick_has_zero_rate
           (ordered_ticks stable_sort plain_ticks) 500 10 2 _
           eq_refl eq_refl eq_refl eq_refl).
Defined.

(** X7: rounding moves the rate and the burst factor by at most 0.005:
    [tps_window] lies within 0.005 of the rate [calc_tps] returns, and
    [factor_tps] within 0.005 of [window_vol * tps_window]. *)
Theorem rounded_columns_are_close df window_ms tps_window_sec i r :
  is_monotonic_increasing (Timestamp <$> df) = true ->
  (0 < tps_window_sec)%Z ->
  window_features df window_ms tps_window_sec !! i = Some r ->
  exists rate t,
    calc_tps (window_count r) (window_duration r) = Some rate
    /\ tps_window r = Some t
    /\ (Qabs (t - rate) <= 1 # 200)%Q
    /\ forall v, window_vol r = Some v ->
         exists f, factor_tps r = Some f
                   /\ (Qabs (f - v * t) <= 1 # 200)%Q.
Proof.
  intros Hmono Hw Hr.
  destruct (rate_of_row _ _ _ _ _ Hmono Hw Hr)
    as (k & d & _ & Hcnt & Hd & Hlo & Htps & _).
  destruct (row_composition _ _ _ _ _ Hr) as [_ Hfac].
  destruct (calc_tps_of_count k d Hlo) as [Hcalc _].
  exists (unrounded_rate k d), (round2 (unrounded_rate k d)).
  split; [by rewrite Hcnt, Hd|]. split; [done|]. split.
  - apply Qabs_Qle_condition.
    destruct (round2_close (unrounded_rate k d)). split; lra.
  - intros v Hv. exists (round2 (v * round2 (unrounded_rate k d))).
    split; [by rewrite Hfac, Hv, Htps|].
    apply Qabs_Qle_condition.
    destruct (round2_close (v * round2 (unrounded_rate k d))). split; lra.
Qed.

Lemma rounded_columns_are_close_witness :
  exists r rate t,
    window_features (ordered_ticks stable_sort mixed_ticks) 500 10 !! 3
      = Some r
    /\ calc_tps (window_count r) (window_duration r) = Some rate
    /\ tps_window r = Some t
    /\ (Qabs (t - rate) <= 1 # 200)%Q
    /\ forall v, window_vol r = Some v ->
         exists f, factor_tps r = Some f
                   /\ (Qabs (f - v * t) <= 1 # 200)%Q.
Proof.
  eexists.
  destruct (rounded_columns_are_close
              (ordered_ticks stable_sort mixed_ticks) 500 10 3 _
              eq_refl eq_refl eq_refl) as (rate & t & H).
  exists rate, t. split; [reflexivity | exact H].
Defined.






(** X9: [factor_tps] is null exactly when [window_vol] is, which is exactly
    when no tick of the row's volume window has a volume. *)
Theorem factor_tps_null_iff_no_volume df window_ms tps_window_sec i r :
  is_monotonic_increasing (Timestamp <$> df) = true ->
  (0 < window_ms)%Z -> (0 < tps_window_sec)%Z ->
  window_features df window_ms tps_window_sec !! i = Some r ->
  (factor_tps r = None <-> window_vol r = None)
  /\ (window_vol r = None
      <-> omap Volumen
            (ticks_in (Timestamp (tick_of r) - ns_of_ms window_ms)
               (Timestamp (tick_of r)) (take (S i) df)) = []).
Proof.
  intros Hmono Hwms Hsec Hr.
  pose proof (window_vol_of_row _ _ _ _ _ Hmono Hwms Hr) as Hwv.
  destruct (rate_of_row _ _ _ _ _ Hmono Hsec Hr)
    as (k & d & _ & _ & _ & _ & Htps & _).
  destruct (row_composition _ _ _ _ _ Hr) as [_ Hfac].
  split.
  - rewrite Hfac, Htps. by destruct (window_vol r).
  - rewrite Hwv. by destruct (omap Volumen _).
Qed.

Lemma factor_tps_null_iff_no_volume_witness :
  exists r,
    window_features (ordered_ticks stable_sort lone_null_volume) 500 10 !! 0
      = Some r
    /\ (factor_tps r = None <-> window_vol r = None)
    /\ (window_vol r = None
        <-> omap Volumen
              (ticks_in (Timestamp (tick_of r) - ns_of_ms 500)
                 (Timestamp (tick_of r))
                 (take 1 (ordered_ticks stable_sort lone_null_volume))) = []).
Proof.
  eexists. split; [reflexivity|].
  exact (factor_tps_null_iff_no_volume
           (ordered_ticks stable_sort lone_null_volume) 500 10 0 _
           eq_refl eq_refl eq_refl eq_refl).
Defined.

End WindowProps.

(* ===================================================================== *)
(** ** Further properties of the feature builder and the labels *)
(* ===================================================================== *)

Module FeatureProps.
Import Float Rolling Train LabelSpec FloatFacts RollingFacts Labeling.

(** *** [engineer_features] *)

Lemma length_feature_frame sqrt df :
  length (feature_frame sqrt df) = length df.
Proof. unfold feature_frame. apply length_imap. Qed.

Lemma labels_of_feature_frame sqrt df :
  index_label <$> feature_frame sqrt df = seq 0 (length df).
Proof.
  apply list_eq. intros i. rewrite list_lookup_fmap.
  destruct (feature_frame sqrt df !! i) as [r|] eqn:Hr.
  - destruct (lookup_feature_frame sqrt df i r Hr) as (s & Hs & Hl & _).
    simpl. rewrite Hl. symmetry. apply lookup_seq. split; [done|].
    by eapply lookup_lt_Some.
  - simpl. symmetry. apply lookup_seq_ge.
    apply lookup_ge_None in Hr. by rewrite length_feature_frame in Hr.
Qed.

Lemma seq_strongly_sorted j n : StronglySorted lt (seq j n).
Proof.
  revert j. induction n as [|n IH]; intros j; simpl; constructor; [apply IH|].
  apply Forall_forall. intros k Hk. apply in_seq in Hk. lia.
Qed.

Lemma filter_fmap_strongly_sorted {A B} (R : relation B) (f : A -> B)
    (P : A -> Prop) `{forall x, Decision (P x)} (l : list A) :
  StronglySorted R (f <$> l) -> StronglySorted R (f <$> filter P l).
Proof.
  induction l as [|x l IH]; [done|]. csimpl. intros Hs.
  apply StronglySorted_inv in Hs as [Hl Hx].
  destruct (decide (P x)) as [Hp|Hp].
  - rewrite filter_cons_True by done. csimpl. constructor; [by apply IH|].
    apply Forall_forall. intros y Hy.
    rewrite Forall_forall in Hx. apply Hx.
    rewrite <- list_elem_of_In in *.
    apply list_elem_of_fmap in Hy as (z & -> & Hz).
    apply list_elem_of_filter in Hz as [_ Hz].
    by apply list_elem_of_fmap_2.
  - rewrite filter_cons_False by done. by apply IH.
Qed.

(** The first five rows of the frame never survive. *)
Lemma dropna_skips_first_five sqrt df :
  engineer_features sqrt df
  = filter (fun r => Is_true (row_notna r)) (drop 5 (feature_frame sqrt df)).
Proof.
  unfold engineer_features, dropna.
  rewrite <- (take_drop 5 (feature_frame sqrt df)) at 1.
  rewrite list.filter_app, filter_none; [done|].
  apply Forall_lookup. intros k r Hk.
  apply lookup_take_Some in Hk as [Hk Hlt].
  rewrite Is_true_true. intros Hkeep.
  apply (row_kept_iff sqrt df k r Hk) in Hkeep as [Hge _]. lia.
Qed.

(** X10: a table of at most 5 rows yields no feature row at all. *)
Theorem engineer_features_of_short_table sqrt df :
  length df <= 5 -> engineer_features sqrt df = [].
Proof.
  intros Hlen. rewrite dropna_skips_first_five.
  rewrite drop_ge; [done|]. by rewrite length_feature_frame.
Qed.

Lemma engineer_features_of_short_table_witness :
  engineer_features no_sqrt (take 5 seven_samples) = [].
Proof.
  apply (engineer_features_of_short_table no_sqrt (take 5 seven_samples)).
  simpl. lia.
Defined.

(** X11: the rows [engineer_features] returns are complete and keep their
    order: no cell of a returned row is null, the labels of the returned
    rows increase strictly and lie in [5, N), and at most [N - 5] rows are
    returned. *)
Theorem engineer_features_rows_complete_and_ordered sqrt df :
  Forall (fun r => row_notna r = true /\ 5 <= index_label r < length df)
    (engineer_features sqrt df)
  /\ StronglySorted lt (index_label <$> engineer_features sqrt df)
  /\ length (engineer_features sqrt df) <= length df - 5.
Proof.
  split; [|split].
  - apply Forall_forall. intros r Hr. rewrite <- list_elem_of_In in Hr.
    apply elem_of_engineer_features in Hr as [Hkeep Hrow].
    split; [done|].
    pose proof (proj1 (row_kept_iff sqrt df _ r Hrow) Hkeep) as [Hge _].
    apply lookup_lt_Some in Hrow. rewrite length_feature_frame in Hrow. lia.
  - unfold engineer_features, dropna.
    apply filter_fmap_strongly_sorted.
    rewrite labels_of_feature_frame. apply seq_strongly_sorted.
  - rewrite dropna_skips_first_five.
    etrans; [apply length_filter|].
    by rewrite length_drop, length_feature_frame.
Qed.


Lemma fillna_default v a : fillna v a = Some (default v a).
Proof. by destruct a. Qed.

Lemma cell_mean_5 df i :
  i < length df ->
  cell (mean_5_col df) i
  = roll_mean 5 (slice (S i - 5) (S i) (factor_tps_col df)).
Proof.
  intros Hi. unfold cell, mean_5_col.
  erewrite (proj2 (lookup_rolling_apply _ _ (roll_mean 5) _ i _)); [done|].
  exists (S i - 5), (S i).
  split; [by apply lookup_fixed_window_starts|].
  split; [by apply lookup_closed_right_ends | done].
Qed.

Lemma slice_five {A} (l : list A) i x4 x3 x2 x1 x0 :
  4 <= i ->
  l !! (i - 4) = Some x4 -> l !! (i - 3) = Some x3 ->
  l !! (i - 2) = Some x2 -> l !! (i - 1) = Some x1 -> l !! i = Some x0 ->
  slice (S i - 5) (S i) l = [x4; x3; x2; x1; x0].
Proof.
  intros Hi H4 H3 H2 H1 H0. apply list_eq. intros j.
  destruct (decide (j < 5)) as [Hj|Hj].
  - rewrite lookup_slice by lia.
    destruct j as [|[|[|[|[|j]]]]]; try lia; simpl.
    + rewrite <- H4. f_equal. lia.
    + rewrite <- H3. f_equal. lia.
    + rewrite <- H2. f_equal. lia.
    + rewrite <- H1. f_equal. lia.
    + rewrite <- H0. f_equal. lia.
  - unfold slice. rewrite lookup_drop, lookup_take_ge by lia.
    destruct j as [|[|[|[|[|j]]]]]; try lia. done.
Qed.

Lemma roll_mean_five (a b c d e : Q) :
  roll_mean 5 [Some a; Some b; Some c; Some d; Some e]
  = Some ((a + (b + (c + (d + (e + 0))))) / 5)%Q.
Proof. reflexivity. Qed.

(** X12: in every returned row [factor_tps_mean_5] is the average of the
    row's own [factor_tps] and its lags 1 to 4. *)
Theorem mean_5_averages_row_and_lags sqrt df r :
  r ∈ engineer_features sqrt df ->
  exists f l1 l2 l3 l4 m,
    row_factor_tps r = Some f
    /\ factor_tps_lag r !! 0 = Some (Some l1)
    /\ factor_tps_lag r !! 1 = Some (Some l2)
    /\ factor_tps_lag r !! 2 = Some (Some l3)
    /\ factor_tps_lag r !! 3 = Some (Some l4)
    /\ factor_tps_mean_5 r = Some m
    /\ (m == (f + l1 + l2 + l3 + l4) / 5)%Q.
Proof.
  intros Hr. apply elem_of_engineer_features in Hr as [Hkeep Hrow].
  pose proof (proj1 (row_kept_iff sqrt df _ r Hrow) Hkeep) as [Hge _].
  destruct (lookup_feature_frame sqrt df _ r Hrow)
    as (s0 & Hs0 & _ & Hsrc & Hlag & Hmean & _).
  set (i := index_label r) in *.
  assert (Hi : i < length df) by (by eapply lookup_lt_Some).
  destruct (lookup_lt_is_Some_2 df (i - 1) ltac:(lia)) as [s1 Hs1].
  destruct (lookup_lt_is_Some_2 df (i - 2) ltac:(lia)) as [s2 Hs2].
  destruct (lookup_lt_is_Some_2 df (i - 3) ltac:(lia)) as [s3 Hs3].
  destruct (lookup_lt_is_Some_2 df (i - 4) ltac:(lia)) as [s4 Hs4].
  assert (Hcol : forall j s, df !! j = Some s ->
            factor_tps_col df !! j = Some (Some (default 0%Q (factor_tps s)))).
  { intros j s Hs. unfold factor_tps_col.
    by rewrite list_lookup_fmap, Hs, <- fillna_default. }
  assert (Hlagk : forall k s, 1 <= k <= 4 -> df !! (i - k) = Some s ->
            factor_tps_lag r !! (k - 1)
            = Some (Some (default 0%Q (factor_tps s)))).
  { intros k s Hk Hs.
    rewrite Hlag, list_lookup_fmap, lookup_seq_lt by lia. simpl.
    replace (S (k - 1)) with k by lia.
    rewrite (cell_lag_col df k i s) by (done || lia).
    by rewrite fillna_default. }
  exists (default 0%Q (factor_tps s0)), (default 0%Q (factor_tps s1)),
    (default 0%Q (factor_tps s2)), (default 0%Q (factor_tps s3)),
    (default 0%Q (factor_tps s4)).
  eexists.
  split. { unfold row_factor_tps. rewrite Hsrc. simpl. apply fillna_default. }
  split. { apply (Hlagk 1 s1); [lia | done]. }
  split. { apply (Hlagk 2 s2); [lia | done]. }
  split. { apply (Hlagk 3 s3); [lia | done]. }
  split. { apply (Hlagk 4 s4); [lia | done]. }
  rewrite Hmean, cell_mean_5 by done.
  rewrite (slice_five (factor_tps_col df) i _ _ _ _ _ ltac:(lia)
             (Hcol _ _ Hs4) (Hcol _ _ Hs3) (Hcol _ _ Hs2) (Hcol _ _ Hs1)
             (Hcol _ _ Hs0)).
  rewrite roll_mean_five. split; [reflexivity|]. field.
Qed.

Lemma mean_5_averages_row_and_lags_witness :
  exists r f l1 l2 l3 l4 m,
    r ∈ engineer_features no_sqrt holed_samples
    /\ row_factor_tps r = Some f
    /\ factor_tps_lag r !! 0 = Some (Some l1)
    /\ factor_tps_lag r !! 1 = Some (Some l2)
    /\ factor_tps_lag r !! 2 = Some (Some l3)
    /\ factor_tps_lag r !! 3 = Some (Some l4)
    /\ factor_tps_mean_5 r = Some m
    /\ (m == (f + l1 + l2 + l3 + l4) / 5)%Q.
Proof.
  assert (Hin : {r | r ∈ engineer_features no_sqrt holed_samples}).
  { eexists. apply list_elem_of_here. }
  destruct Hin as [r Hin]. exists r.
  destruct (mean_5_averages_row_and_lags no_sqrt holed_samples r Hin)
    as (f & l1 & l2 & l3 & l4 & m & H).
  by exists f, l1, l2, l3, l4, m.
Defined.

(** X13: in every returned row [price_velocity_5] is the row's price minus
    the price five rows earlier in the input, both of which are known. *)
Theorem price_velocity_is_five_row_difference sqrt df r :
  r ∈ engineer_features sqrt df ->
  exists s5 p p5,
    df !! (index_label r - 5) = Some s5
    /\ row_price r = Some p /\ price s5 = Some p5
    /\ price_velocity_5 r = Some (p - p5)%Q.
Proof.
  intros Hr. apply elem_of_engineer_features in Hr as [Hkeep Hrow].
  destruct (proj1 (row_kept_iff sqrt df _ r Hrow) Hkeep)
    as (Hge & s & s5 & Hs & Hs5 & Hoth & Hp5).
  destruct (lookup_feature_frame sqrt df _ r Hrow)
    as (s' & Hs' & _ & Hsrc & _ & _ & _ & Hvel).
  assert (s' = s) as -> by congruence.
  assert (Hp : notna (price s) = true).
  { unfold others_notna, sample_notna in Hoth. simpl in Hoth.
    repeat (apply andb_true_iff in Hoth as [Hoth ?]). done. }
  destruct (price s) as [p|] eqn:Ep; [|done].
  destruct (price s5) as [p5|] eqn:Ep5; [|done].
  exists s5, p, p5. split; [done|].
  split. { unfold row_price. rewrite Hsrc. simpl. exact Ep. }
  split; [done|].
  rewrite Hvel, (cell_price_velocity_5 df _ s s5) by done.
  by rewrite Ep, Ep5.
Qed.


Lemma price_velocity_is_five_row_difference_witness :
  exists r s5 p p5,
    r ∈ engineer_features no_sqrt holed_samples
    /\ holed_samples !! (index_label r - 5) = Some s5
    /\ row_price r = Some p /\ price s5 = Some p5
    /\ price_velocity_5 r = Some (p - p5)%Q.
Proof.
  assert (Hin : {r | r ∈ engineer_features no_sqrt holed_samples}).
  { eexists. apply list_elem_of_here. }
  destruct Hin as [r Hin]. exists r.
  destruct (price_velocity_is_five_row_difference no_sqrt holed_samples r Hin)
    as (s5 & p & p5 & H).
  by exists s5, p, p5.
Defined.


(** *** [define_labels] *)

Lemma lookup_define_labels_moves df thr pthr fw i r :
  define_labels df thr pthr fw !! i = Some r ->
  price_move_up r = sub (future_price_max r) (row_price (features r))
  /\ price_move_down r = sub (row_price (features r)) (future_price_min r).
Proof.
  unfold define_labels. rewrite list_lookup_imap. intros H.
  destruct (df !! i) as [fr|]; [|done].
  simpl in H. by injection H as <-.
Qed.

(** The row's own price belongs to its forward window. *)
Lemma own_price_in_forward_window df i fw fr p :
  df !! i = Some fr -> row_price fr = Some p ->
  observations (forward_prices df i fw) <> [] ->
  p ∈ observations (forward_prices df i fw).
Proof.
  intros Hfr Hp Hobs. apply elem_of_observations.
  assert (Hfw : 0 < fw).
  { destruct fw as [|fw]; [|lia]. exfalso. apply Hobs.
    pose proof (length_forward_prices df i 0) as Hlen.
    replace ((i + 0) `min` length df - i) with 0 in Hlen by lia.
    by destruct (forward_prices df i 0). }
  apply list_elem_of_lookup. exists 0.
  unfold forward_prices. rewrite lookup_slice by lia.
  by rewrite Nat.add_0_r, list_lookup_fmap, Hfr, <- Hp.
Qed.

(** X14: the moves of a labeled row are never negative: where they are
    known, [price_move_up], [price_move_down] and [max_future_move] are at
    least 0, because the forward window holds the row's own price. *)
Theorem future_moves_are_nonnegative df thr pthr fw i r :
  define_labels df thr pthr fw !! i = Some r ->
  (forall u, price_move_up r = Some u -> (0 <= u)%Q)
  /\ (forall d, price_move_down r = Some d -> (0 <= d)%Q)
  /\ (forall m, max_future_move r = Some m -> (0 <= m)%Q).
Proof.
  intros Hr.
  destruct (lookup_define_labels _ _ _ _ _ _ Hr)
    as (Hrow & Hmax & Hmin & Hmove & _).
  destruct (lookup_define_labels_moves _ _ _ _ _ _ Hr) as [Hup Hdown].
  set (w := forward_prices df i fw) in *.
  assert (Hu : forall u, price_move_up r = Some u -> (0 <= u)%Q).
  { intros u Hu. rewrite Hup, Hmax in Hu. unfold roll_max in Hu.
    destruct (row_price (features r)) as [p|] eqn:Hp;
      [|by destruct (observations w) as [|? ?]; [|case_decide]].
    destruct (observations w) as [|x obs] eqn:Hobs; [done|].
    case_decide; [|done]. simpl in Hu. injection Hu as <-.
    pose proof (own_price_in_forward_window df i fw _ p Hrow Hp) as Hin.
    fold w in Hin. rewrite Hobs in Hin.
    pose proof (Qmaximum_upper x obs p (Hin ltac:(done))). lra. }
  assert (Hd : forall d, price_move_down r = Some d -> (0 <= d)%Q).
  { intros d Hd. rewrite Hdown, Hmin in Hd. unfold roll_min in Hd.
    destruct (row_price (features r)) as [p|] eqn:Hp; [|done].
    destruct (observations w) as [|x obs] eqn:Hobs; [done|].
    case_decide; [|done]. simpl in Hd. injection Hd as <-.
    pose proof (own_price_in_forward_window df i fw _ p Hrow Hp) as Hin.
    fold w in Hin. rewrite Hobs in Hin.
    pose proof (Qminimum_lower x obs p (Hin ltac:(done))). lra. }
  split; [exact Hu|]. split; [exact Hd|].
  intros m Hm. rewrite Hmove, <- Hup, <- Hdown in Hm.
  destruct (price_move_up r) as [u|], (price_move_down r) as [d|];
    simpl in Hm; try done; injection Hm as <-.
  - destruct (Qmax_cases u d) as [-> | ->]; [by apply Hu | by apply Hd].
  - by apply Hu.
  - by apply Hd.
Qed.

Lemma future_moves_are_nonnegative_witness :
  exists r,
    define_labels falling_prices default_tps_threshold
      default_price_move_threshold 2 !! 0 = Some r
    /\ (forall u, price_move_up r = Some u -> (0 <= u)%Q)
    /\ (forall d, price_move_down r = Some d -> (0 <= d)%Q)
    /\ (forall m, max_future_move r = Some m -> (0 <= m)%Q).
Proof.
  eexists. split; [reflexivity|].
  exact (future_moves_are_nonnegative falling_prices default_tps_threshold
           default_price_move_threshold 2 0 _ eq_refl).
Defined.

(** X15: raising a threshold never adds a label: a row labeled 1 under
    thresholds [thr'] and [pthr'] is labeled 1 under any thresholds that
    are not higher. *)
Theorem lower_thresholds_keep_labels df thr thr' pthr pthr' fw i r r' :
  (thr <= thr')%Q -> (pthr <= pthr')%Q ->
  define_labels df thr pthr fw !! i = Some r ->
  define_labels df thr' pthr' fw !! i = Some r' ->
  is_initiation r' = 1%Z -> is_initiation r = 1%Z.
Proof.
  intros Hthr Hpthr Hr Hr' Hone.
  destruct (lookup_define_labels _ _ _ _ _ _ Hr)
    as (Hrow & Hmax & Hmin & Hmove & Hlabel).
  destruct (lookup_define_labels _ _ _ _ _ _ Hr')
    as (Hrow' & Hmax' & Hmin' & Hmove' & Hlabel').
  assert (features r' = features r) as Hsame by congruence.
  assert (max_future_move r' = max_future_move r) as Hm.
  { rewrite Hmove, Hmove', Hmax, Hmax', Hmin, Hmin', Hsame. done. }
  rewrite Hlabel' in Hone. rewrite Hlabel.
  rewrite Hsame, Hm in Hone.
  destruct (gtb (row_factor_tps (features r)) (Some thr')) eqn:Hg;
    [|done].
  destruct (geb (max_future_move r) (Some pthr')) eqn:Hge; [|done].
  apply gtb_gt in Hg as (f & t & Hf & Ht & Hlt).
  apply geb_ge in Hge as (m & p & Hm' & Hp & Hle).
  injection Ht as <-. injection Hp as <-.
  assert (Hg' : gtb (row_factor_tps (features r)) (Some thr) = true).
  { apply gtb_gt. exists f, thr. repeat split; [done|]. lra. }
  assert (Hge' : geb (max_future_move r) (Some pthr) = true).
  { apply geb_ge. exists m, pthr. repeat split; [done|]. lra. }
  by rewrite Hg', Hge'.
Qed.

Lemma lower_thresholds_keep_labels_witness :
  exists r r',
    define_labels short_table 3000 2 2 !! 0 = Some r
    /\ define_labels short_table default_tps_threshold
         default_price_move_threshold 2 !! 0 = Some r'
    /\ is_initiation r = 1%Z.
Proof.
  do 2 eexists. split; [reflexivity|]. split; [reflexivity|].
  eapply (lower_thresholds_keep_labels short_table 3000
            default_tps_threshold 2 default_price_move_threshold 2 0);
    [ | | reflexivity | reflexivity | reflexivity].
  - unfold default_tps_threshold. lra.
  - unfold default_price_move_threshold. lra.
Defined.

Lemma slice_one {A} (l : list A) i x :
  l !! i = Some x -> slice i (i + 1) l = [x].
Proof.
  intros Hx. unfold slice. rewrite Nat.add_1_r, (take_S_r l i x Hx).
  rewrite drop_app_length'; [done|].
  rewrite length_take. apply lookup_lt_Some in Hx. lia.
Qed.

(** X16: with [future_window = 1] the forward window is the row alone:
    both extrema are the row's own price, every known [max_future_move]
    is 0, and with a positive [price_move_threshold] no row is labeled. *)
Theorem window_of_one_row_sees_no_move df thr pthr i r :
  define_labels df thr pthr 1 !! i = Some r ->
  future_price_max r = row_price (features r)
  /\ future_price_min r = row_price (features r)
  /\ (forall m, max_future_move r = Some m -> (m == 0)%Q)
  /\ ((0 < pthr)%Q -> is_initiation r = 0%Z).
Proof.
  intros Hr.
  destruct (lookup_define_labels _ _ _ _ _ _ Hr)
    as (Hrow & Hmax & Hmin & Hmove & Hlabel).
  assert (Hw : forward_prices df i 1 = [row_price (features r)]).
  { unfold forward_prices. apply slice_one.
    by rewrite list_lookup_fmap, Hrow. }
  rewrite Hw in Hmax, Hmin.
  assert (Hmax' : future_price_max r = row_price (features r)).
  { rewrite Hmax. by destruct (row_price (features r)). }
  assert (Hmin' : future_price_min r = row_price (features r)).
  { rewrite Hmin. by destruct (row_price (features r)). }
  assert (Hzero : forall m, max_future_move r = Some m -> (m == 0)%Q).
  { intros m Hm. rewrite Hmove, Hmax', Hmin' in Hm.
    destruct (row_price (features r)) as [p|]; [|done].
    simpl in Hm. injection Hm as <-.
    destruct (Qmax_cases (p - p) (p - p)) as [-> | ->]; lra. }
  split; [done|]. split; [done|]. split; [done|].
  intros Hpos. rewrite Hlabel.
  destruct (geb (max_future_move r) (Some pthr)) eqn:Hge;
    [|by rewrite andb_false_r].
  apply geb_ge in Hge as (m & p & Hm & Hp & Hle).
  injection Hp as <-. specialize (Hzero m Hm). lra.
Qed.

Lemma window_of_one_row_sees_no_move_witness :
  exists r,
    define_labels short_table default_tps_threshold
      default_price_move_threshold 1 !! 1 = Some r
    /\ future_price_max r = row_price (features r)
    /\ future_price_min r = row_price (features r)
    /\ (forall m, max_future_move r = Some m -> (m == 0)%Q)
    /\ ((0 < default_price_move_threshold)%Q -> is_initiation r = 0%Z).
Proof.
  eexists. split; [reflexivity|].
  exact (window_of_one_row_sees_no_move short_table default_tps_threshold
           default_price_move_threshold 1 _ eq_refl).
Defined.

End FeatureProps.

(* ===================================================================== *)
(** ** The scripts: training decision, feature selection, signals, names *)
(* ===================================================================== *)

Module PipelineProps.
Import Float Rolling Train Visualize LabelSpec PipelineSpec FloatFacts
  RollingFacts Labeling FeatureProps.

(** *** The branch taken by the script of [train_initiation_model.py] *)

Lemma label_is_bit df thr pthr fw i r :
  define_labels df thr pthr fw !! i = Some r ->
  is_initiation r = 0%Z \/ is_initiation r = 1%Z.
Proof.
  intros Hr.
  destruct (lookup_define_labels _ _ _ _ _ _ Hr) as (_ & _ & _ & _ & ->).
  destruct (_ && _); [by right | by left].
Qed.

Lemma label_one_iff df thr pthr fw i r :
  define_labels df thr pthr fw !! i = Some r ->
  is_initiation r = 1%Z
  <-> gt (row_factor_tps (features r)) (Some thr)
      /\ ge (max_future_move r) (Some pthr).
Proof.
  intros Hr.
  destruct (lookup_define_labels _ _ _ _ _ _ Hr) as (_ & _ & _ & _ & ->).
  rewrite <- gtb_gt, <- geb_ge.
  destruct (gtb _ _), (geb _ _); simpl; split; try done; intros []; done.
Qed.

(** A row with fewer than [fw] rows from itself to the end has no move. *)
Lemma late_row_has_no_move df thr pthr fw i r :
  define_labels df thr pthr fw !! i = Some r ->
  length df < i + fw ->
  max_future_move r = None.
Proof.
  intros Hr Hlate.
  destruct (lookup_define_labels _ _ _ _ _ _ Hr)
    as (Hrow & Hmax & Hmin & Hmove & _).
  assert (Hshort : length (observations (forward_prices df i fw)) < fw).
  { pose proof (length_observations_le (forward_prices df i fw)).
    pose proof (length_forward_prices df i fw).
    assert (i < length df) by (by eapply lookup_lt_Some). lia. }
  rewrite (roll_max_short _ _ Hshort) in Hmax.
  rewrite (roll_min_short _ _ Hshort) in Hmin.
  rewrite Hmove, Hmax, Hmin. by destruct (row_price (features r)).
Qed.

Lemma label_sum_cons r l :
  label_sum (r :: l) = (is_initiation r + label_sum l)%Z.
Proof. reflexivity. Qed.

Lemma label_sum_positive (l : list labeled_row) :
  Forall (fun r => is_initiation r = 0%Z \/ is_initiation r = 1%Z) l ->
  (0 <= label_sum l)%Z
  /\ ((0 < label_sum l)%Z <-> Exists (fun r => is_initiation r = 1%Z) l).
Proof.
  induction 1 as [|r l Hr _ [IHnn IH]].
  - split; [done|]. rewrite Exists_nil. unfold label_sum. simpl. lia.
  - rewrite label_sum_cons, Exists_cons. split; [lia|].
    rewrite <- IH. lia.
Qed.

Lemma labels_are_bits df thr pthr fw :
  Forall (fun r => is_initiation r = 0%Z \/ is_initiation r = 1%Z)
         (define_labels df thr pthr fw).
Proof.
  apply Forall_lookup. intros i r Hr. by eapply label_is_bit.
Qed.

Lemma main_calls_train_model sqrt df :
  main sqrt (Some df) = CallsTrainModel
  <-> Exists (fun r => is_initiation r = 1%Z)
        (define_labels (engineer_features sqrt df) default_tps_threshold
           default_price_move_threshold default_future_window).
Proof.
  unfold main.
  destruct (label_sum_positive _
              (labels_are_bits (engineer_features sqrt df)
                 default_tps_threshold default_price_move_threshold
                 default_future_window)) as [_ <-].
  destruct (Z.ltb_spec 0 (label_sum
              (define_labels (engineer_features sqrt df)
                 default_tps_threshold default_price_move_threshold
                 default_future_window))); split; try done; lia.
Qed.

Lemma length_engineer_features sqrt df :
  length (engineer_features sqrt df) <= length df - 5.
Proof.
  rewrite dropna_skips_first_five.
  etrans; [apply length_filter|].
  by rewrite length_drop, length_feature_frame.
Qed.


(** Sixteen rows with one burst reach [train_model].  Only one of their
    rows is labeled 1, the case in which the stratified split of
    [train_model] raises: the call is made and no model is saved. *)
Example bursting_samples_reach_train_model :
  main no_sqrt (Some bursting_samples) = CallsTrainModel
  /\ label_sum
       (define_labels (engineer_features no_sqrt bursting_samples)
          default_tps_threshold default_price_move_threshold
          default_future_window) = 1%Z.
Proof. split; vm_compute; reflexivity. Qed.

(** X18: a loaded table of fewer than fifteen rows never leads to a
    model: five rows go to the lags and the last nine of the rest have no
    complete forward window. *)
Theorem fewer_than_fifteen_rows_never_train sqrt df :
  length df < 15 -> main sqrt (Some df) = NoInitiation.
Proof.
  intros Hlen.
  assert (Hnot : main sqrt (Some df) <> CallsTrainModel).
  { rewrite main_calls_train_model, Exists_exists. intros (r & Hin & Hone).
    apply list_elem_of_In, list_elem_of_lookup in Hin as [i Hi].
    apply (label_one_iff _ _ _ _ _ _ Hi) in Hone as [_ Hge].
    pose proof (length_engineer_features sqrt df) as Hshort.
    rewrite (late_row_has_no_move _ _ _ _ _ _ Hi) in Hge.
    - by destruct Hge as (? & ? & ? & _).
    - unfold default_future_window. lia. }
  revert Hnot. unfold main. by destruct (0 <? _)%Z.
Qed.

Lemma fewer_than_fifteen_rows_never_train_witness :
  main no_sqrt (Some seven_samples) = NoInitiation.
Proof.
  apply (fewer_than_fifteen_rows_never_train no_sqrt seven_samples).
  simpl. lia.
Defined.

(** *** Column names: what is written, loaded and fed to the model *)

Lemma has_column_elem c columns :
  CleanData.has_column c columns = true <-> c ∈ columns.
Proof.
  unfold CleanData.has_column. rewrite existsb_exists, list_elem_of_In.
  split.
  - intros (x & Hin & Heq). apply String.eqb_eq in Heq. by subst.
  - intros Hin. exists c. split; [done | apply String.eqb_refl].
Qed.

Lemma filter_nine {A} (f : A -> bool) a1 a2 a3 a4 a5 a6 a7 a8 a9 :
  List.filter f [a1; a2; a3; a4; a5; a6; a7; a8; a9]
  = (if f a1 then [a1] else []) ++ (if f a2 then [a2] else [])
    ++ (if f a3 then [a3] else []) ++ (if f a4 then [a4] else [])
    ++ (if f a5 then [a5] else []) ++ (if f a6 then [a6] else [])
    ++ (if f a7 then [a7] else []) ++ (if f a8 then [a8] else [])
    ++ (if f a9 then [a9] else []).
Proof.
  simpl.
  destruct (f a1), (f a2), (f a3), (f a4), (f a5), (f a6), (f a7), (f a8),
    (f a9); reflexivity.
Qed.

(** A name is looked for among the raw columns and the five assigned. *)
Lemma has_result_column c input :
  CleanData.has_column c (CleanData.df_result_columns input)
  = CleanData.has_column c input
    || CleanData.has_column c
         ["window_vol"; "window_duration"; "window_count"; "tps_window";
          "factor_tps"]%string.
Proof.
  unfold CleanData.has_column, CleanData.df_result_columns.
  apply existsb_app.
Qed.

(** The header of a written file is fixed by which of the four optional
    columns the raw file has. *)
Lemma written_columns_cases input written :
  CleanData.written_columns input = Some written ->
  written
  = ["Timestamp"%string]
    ++ (if CleanData.has_column "Precio" input then ["Precio"%string] else [])
    ++ ["Volumen"%string]
    ++ (if CleanData.has_column "Lado" input then ["Lado"%string] else [])
    ++ (if CleanData.has_column "Bid" input then ["Bid"%string] else [])
    ++ (if CleanData.has_column "Ask" input then ["Ask"%string] else [])
    ++ computed_names.
Proof.
  unfold CleanData.written_columns.
  destruct (CleanData.has_column "Timestamp" input) eqn:Ht; [|done].
  destruct (CleanData.has_column "Volumen" input) eqn:Hv; [|done].
  cbn [andb]. intros Heq.
  assert (Hw : written
               = List.filter
                   (fun c => CleanData.has_column c
                               (CleanData.df_result_columns input))
                   CleanData.cols_to_keep_names) by congruence.
  rewrite Hw. unfold CleanData.cols_to_keep_names.
  rewrite filter_nine, !has_result_column, Ht, Hv.
  repeat match goal with
         | |- context [CleanData.has_column ?c (?x :: ?l)] =>
             let t := eval vm_compute in (CleanData.has_column c (x :: l)) in
             change (CleanData.has_column c (x :: l)) with t
         end.
  rewrite !orb_false_r, !orb_true_r. reflexivity.
Qed.

(** X19: the header of the file [process_historical_file] writes.  It is
    Timestamp, Precio, Volumen, Lado, Bid, Ask, window_vol, tps_window,
    factor_tps in this order, where Precio, Lado, Bid and Ask appear exactly
    when the raw file has them; every other raw column is dropped, and the
    helper columns window_count and window_duration are never written. *)
Theorem written_header input written :
  CleanData.written_columns input = Some written ->
  written
  = ["Timestamp"%string]
    ++ (if CleanData.has_column "Precio" input then ["Precio"%string] else [])
    ++ ["Volumen"%string]
    ++ (if CleanData.has_column "Lado" input then ["Lado"%string] else [])
    ++ (if CleanData.has_column "Bid" input then ["Bid"%string] else [])
    ++ (if CleanData.has_column "Ask" input then ["Ask"%string] else [])
    ++ computed_names
  /\ ("window_count"%string ∉ written)
  /\ ("window_duration"%string ∉ written)
  /\ forall c, c ∈ written ->
       c ∈ computed_names \/ (c ∈ input /\ c ∈ raw_header).
Proof.
  intros H. pose proof (written_columns_cases _ _ H) as Hw.
  split; [done|].
  assert (Hin : forall c, c ∈ written ->
            c ∈ computed_names \/ (c ∈ input /\ c ∈ raw_header)).
  { assert (Hreq : "Timestamp"%string ∈ input /\ "Volumen"%string ∈ input).
    { rewrite <- !has_column_elem. revert H.
      unfold CleanData.written_columns.
      destruct (CleanData.has_column "Timestamp" input),
        (CleanData.has_column "Volumen" input); done. }
    destruct Hreq as [Ht Hv].
    pose proof (proj1 (has_column_elem "Precio" input)) as Hp.
    pose proof (proj1 (has_column_elem "Lado" input)) as Hl.
    pose proof (proj1 (has_column_elem "Bid" input)) as Hb.
    pose proof (proj1 (has_column_elem "Ask" input)) as Ha.
    intros c Hc. rewrite Hw in Hc. clear Hw H.
    unfold computed_names, raw_header in *.
    destruct (CleanData.has_column "Precio" input),
      (CleanData.has_column "Lado" input),
      (CleanData.has_column "Bid" input),
      (CleanData.has_column "Ask" input); simpl in Hc;
      repeat (apply elem_of_cons in Hc as [->|Hc]);
      try (by apply elem_of_nil in Hc);
      first [ left; solve [repeat first [apply list_elem_of_here | apply list_elem_of_further]]
            | right; split; [auto|]; solve [repeat first [apply list_elem_of_here | apply list_elem_of_further]] ]. }
  split; [|split; [|done]].
  - intros Hc. destruct (Hin _ Hc) as [Hc'|[_ Hc']];
      unfold computed_names, raw_header in Hc';
      repeat (apply elem_of_cons in Hc' as [Hc'|Hc']);
      try discriminate Hc'; by apply elem_of_nil in Hc'.
  - intros Hc. destruct (Hin _ Hc) as [Hc'|[_ Hc']];
      unfold computed_names, raw_header in Hc';
      repeat (apply elem_of_cons in Hc' as [Hc'|Hc']);
      try discriminate Hc'; by apply elem_of_nil in Hc'.
Qed.

Lemma written_header_witness :
  exists written,
    CleanData.written_columns bare_header = Some written
    /\ written = ["Timestamp"; "Volumen"; "window_vol"; "tps_window";
                  "factor_tps"]%string
    /\ ("window_count"%string ∉ written).
Proof.
  eexists. split; [reflexivity|].
  destruct (written_header bare_header _ eq_refl) as (Hw & Hcount & _).
  split; [exact Hw | exact Hcount].
Defined.

(** X20: a file written by [process_historical_file] is read back by
    [load_data] with one name per written column and exactly one
    [timestamp]; it passes the required-column check of
    [visualize_signals] exactly when the raw file had a Precio column. *)
Theorem written_file_loads input written :
  CleanData.written_columns input = Some written ->
  exists loaded,
    load_columns written = Some loaded
    /\ length loaded = length written
    /\ count_column "timestamp" loaded = 1
    /\ (missing_cols loaded = [] <-> "Precio"%string ∈ input).
Proof.
  intros H. rewrite (written_columns_cases _ _ H).
  pose proof (has_column_elem "Precio" input) as Hp.
  destruct (CleanData.has_column "Precio" input),
    (CleanData.has_column "Lado" input),
    (CleanData.has_column "Bid" input),
    (CleanData.has_column "Ask" input);
    (eexists; split; [vm_compute; reflexivity|];
     split; [reflexivity|]; split; [reflexivity|];
     rewrite <- Hp; vm_compute; split; congruence).
Qed.

Lemma written_file_loads_witness :
  exists loaded,
    load_columns
      ["Timestamp"; "Volumen"; "window_vol"; "tps_window";
       "factor_tps"]%string = Some loaded
    /\ length loaded = 5
    /\ count_column "timestamp" loaded = 1
    /\ (missing_cols loaded = [] <-> "Precio"%string ∈ bare_header).
Proof.
  exact (written_file_loads bare_header _ eq_refl).
Defined.

(** X21: on a file written by [process_historical_file] from a raw file
    with a Precio column, the columns [train_model] and [visualize_signals]
    give to the model are the burst factor, its five lags, its rolling mean
    and its rolling deviation, in this order; no price, no label and no
    forward-looking column is among them. *)
Theorem model_reads_eight_features input written loaded :
  CleanData.written_columns input = Some written ->
  load_columns written = Some loaded ->
  missing_cols loaded = [] ->
  feature_columns (labeled_columns loaded) = model_features.
Proof.
  intros H. rewrite (written_columns_cases _ _ H). clear H.
  destruct (CleanData.has_column "Precio" input),
    (CleanData.has_column "Lado" input),
    (CleanData.has_column "Bid" input),
    (CleanData.has_column "Ask" input);
    intros Hload Hmiss; vm_compute in Hload; injection Hload as <-;
    first [ discriminate Hmiss | vm_compute; reflexivity ].
Qed.

Lemma model_reads_eight_features_witness :
  feature_columns
    (labeled_columns
       ["timestamp"; "price"; "volume"; "side"; "bid"; "ask"; "window_vol";
        "tps_window"; "factor_tps"]%string)
  = model_features.
Proof.
  exact (model_reads_eight_features raw_header _ _ eq_refl eq_refl eq_refl).
Defined.

Lemma foldl_assign names : forall columns,
  distinct names = true ->
  foldl assign columns names
  = columns
    ++ List.filter (fun n => negb (CleanData.has_column n columns)) names.
Proof.
  induction names as [|n rest IH]; intros columns Hd.
  - simpl. by rewrite app_nil_r.
  - simpl in Hd. apply andb_true_iff in Hd as [Hn Hd].
    apply negb_true_iff in Hn.
    cbn [foldl List.filter]. unfold assign at 2.
    fold (CleanData.has_column n columns).
    destruct (CleanData.has_column n columns) eqn:Hc; simpl.
    + by apply IH.
    + rewrite (IH _ Hd), <- app_assoc. simpl. do 2 f_equal.
      apply filter_ext_in. intros m Hm. f_equal.
      unfold CleanData.has_column. rewrite existsb_app. simpl.
      rewrite orb_false_r.
      destruct (String.eqb_spec m n) as [->|_]; [|by rewrite orb_false_r].
      apply list_elem_of_In, has_column_elem in Hm. congruence.
Qed.

Lemma filter_filter_comm {A} (f g : A -> bool) l :
  List.filter f (List.filter g l) = List.filter g (List.filter f l).
Proof.
  induction l as [|x l IH]; [done|]. simpl.
  destruct (f x) eqn:Hf, (g x) eqn:Hg; simpl; rewrite ?Hf, ?Hg;
    by rewrite IH.
Qed.

(** X22: on any loaded frame with a [factor_tps] and a [price] column the
    model is given, first, every column of the file whose name contains
    lag, mean or std (or is factor_tps), in file order, and then those of
    the eight engineered features the file did not already name.  A column
    of the file called Flag is thus a feature; the label and the
    forward-looking columns never are. *)
Theorem features_of_any_frame columns :
  "factor_tps"%string ∈ columns -> "price"%string ∈ columns ->
  feature_columns (labeled_columns columns)
  = feature_columns columns
    ++ List.filter (fun n => negb (CleanData.has_column n columns))
         model_features.
Proof.
  intros _ _. unfold labeled_columns, feature_columns.
  rewrite <- foldl_app, foldl_assign by reflexivity.
  rewrite List.filter_app, filter_filter_comm. done.
Qed.

Lemma features_of_any_frame_witness :
  feature_columns (labeled_columns flagged_header)
  = "Flag"%string :: model_features.
Proof.
  rewrite (features_of_any_frame flagged_header).
  - reflexivity.
  - unfold flagged_header. solve [repeat first [apply list_elem_of_here | apply list_elem_of_further]].
  - unfold flagged_header. solve [repeat first [apply list_elem_of_here | apply list_elem_of_further]].
Defined.

(** *** [visualize_signals]: the predicted signals and their direction *)

Lemma filter_iff_elem {A} (P Q : A -> Prop) `{!forall x, Decision (P x)}
    `{!forall x, Decision (Q x)} (l : list A) :
  (forall x, x ∈ l -> P x <-> Q x) -> filter P l = filter Q l.
Proof.
  induction l as [|x l IH]; intros Hiff; [done|].
  rewrite !filter_cons.
  rewrite IH by (intros y Hy; apply Hiff; by apply list_elem_of_further).
  pose proof (Hiff x (list_elem_of_here x l)) as Hx.
  destruct (decide (P x)), (decide (Q x)); tauto.
Qed.

Lemma elem_of_signals predict_proba frame s :
  s ∈ signals predict_proba frame ->
  labeled s ∈ frame /\ pred_initiation s = 1%Z.
Proof.
  unfold signals, score. rewrite list_elem_of_filter, list_elem_of_fmap.
  intros [Hpred (r & -> & Hr)]. by split.
Qed.

(** Every row that leaves [engineer_features] has a price velocity. *)
Lemma engineered_velocity sqrt df thr pthr fw r :
  r ∈ define_labels (engineer_features sqrt df) thr pthr fw ->
  exists v, price_velocity_5 (features r) = Some v.
Proof.
  intros Hr. apply list_elem_of_lookup in Hr as [i Hi].
  destruct (lookup_define_labels _ _ _ _ _ _ Hi) as (Hrow & _).
  apply list_elem_of_lookup_2, elem_of_engineer_features in Hrow as [Hk _].
  unfold row_notna in Hk. apply andb_true_iff in Hk as [_ Hv].
  destruct (price_velocity_5 (features r)) as [v|]; [by exists v | done].
Qed.

Lemma up_or_down (v : Q) :
  Is_true (leb (Some v) (Some 0%Q)) <-> ~ Is_true (gtb (Some v) (Some 0%Q)).
Proof.
  unfold leb, gtb. destruct (Qle_bool v 0); simpl; tauto.
Qed.

(** X23: in [visualize_signals], where the frame comes from
    [engineer_features] and [define_labels], every predicted signal is
    drawn exactly once, as an up marker or as a down marker: the two
    selections share no row and together are the predicted signals.  A row
    without a price velocity would be drawn as neither. *)
Theorem every_signal_is_up_or_down sqrt predict_proba df thr pthr fw :
  signals_up predict_proba
    (define_labels (engineer_features sqrt df) thr pthr fw)
  ++ signals_down predict_proba
       (define_labels (engineer_features sqrt df) thr pthr fw)
  ≡ₚ signals predict_proba
       (define_labels (engineer_features sqrt df) thr pthr fw)
  /\ (forall s,
        s ∈ signals_up predict_proba
              (define_labels (engineer_features sqrt df) thr pthr fw) ->
        s ∉ signals_down predict_proba
              (define_labels (engineer_features sqrt df) thr pthr fw))
  /\ (forall frame s,
        s ∈ signals predict_proba frame -> velocity s = None ->
        (s ∉ signals_up predict_proba frame)
        /\ (s ∉ signals_down predict_proba frame)).
Proof.
  set (frame := define_labels (engineer_features sqrt df) thr pthr fw).
  assert (Hdown : signals_down predict_proba frame
                  = filter (fun s => ~ Is_true (gtb (velocity s) (Some 0%Q)))
                      (signals predict_proba frame)).
  { unfold signals_down. apply filter_iff_elem. intros s Hs.
    apply elem_of_signals in Hs as [Hs _].
    destruct (engineered_velocity _ _ _ _ _ _ Hs) as [v Hv].
    unfold velocity. rewrite Hv. apply up_or_down. }
  split; [|split].
  - rewrite Hdown. unfold signals_up. apply filter_app_complement.
  - intros s Hup. rewrite Hdown. unfold signals_up in Hup.
    apply list_elem_of_filter in Hup as [Hup _].
    rewrite list_elem_of_filter. tauto.
  - intros frame' s _ Hnull. unfold signals_up, signals_down.
    rewrite !list_elem_of_filter, Hnull. simpl. tauto.
Qed.

(** With a model that is sure of every row, each of the eleven rows that
    survive the feature builder is a signal; the burst row, five rows after
    an unchanged price, is drawn as a down marker. *)
Example eager_signals :
  length (signals eager_model
            (define_labels (engineer_features no_sqrt bursting_samples)
               default_tps_threshold default_price_move_threshold
               default_future_window)) = 11
  /\ length (signals_down eager_model
               (define_labels (engineer_features no_sqrt bursting_samples)
                  default_tps_threshold default_price_move_threshold
                  default_future_window)) = 1.
Proof. split; vm_compute; reflexivity. Qed.

(** *** The name of the chart *)

Lemma leading_digits_Some n : forall s d,
  leading_digits n s = Some d
  <-> exists post,
        s = d ++ post /\ length d = n /\ forallb is_digit d = true.
Proof.
  induction n as [|n IH]; intros s d; simpl.
  - split.
    + intros [= <-]. by exists s.
    + intros (post & _ & Hlen & _). by destruct d.
  - destruct s as [|c rest].
    + split; [done|]. intros (post & Hs & Hlen & _). by destruct d.
    + destruct (is_digit c) eqn:Hc.
      * rewrite fmap_Some. setoid_rewrite IH. split.
        -- intros (d' & (post & -> & Hlen & Hd) & ->).
           exists post. simpl. rewrite Hc, Hlen. by split.
        -- intros (post & Hs & Hlen & Hd). destruct d as [|c' d']; [done|].
           simpl in *. injection Hs as <- ->. injection Hlen as Hlen.
           apply andb_true_iff in Hd as [_ Hd].
           exists d'. split; [|done]. by exists post.
      * split; [done|]. intros (post & Hs & Hlen & Hd).
        destruct d as [|c' d']; [done|]. simpl in *.
        injection Hs as <- _. by rewrite Hc in Hd.
Qed.

Lemma search_digits_unfold n s :
  search_digits n s
  = match leading_digits n s with
    | Some d => Some d
    | None => match s with [] => None | _ :: rest => search_digits n rest end
    end.
Proof. by destruct s. Qed.

Lemma search_digits_Some n : forall s d,
  search_digits n s = Some d -> leftmost_digit_run n s d.
Proof.
  induction s as [|c rest IH]; intros d; rewrite search_digits_unfold;
    destruct (leading_digits n _) as [d0|] eqn:Hlead; try done.
  - intros [= ->]. apply leading_digits_Some in Hlead as (post & Hs & Hl & Hd).
    exists [], post. repeat split; try done. simpl. lia.
  - intros [= ->]. apply leading_digits_Some in Hlead as (post & Hs & Hl & Hd).
    exists [], post. repeat split; try done. simpl. lia.
  - intros Hrest. destruct (IH _ Hrest) as (pre & post & Hs & Hl & Hd & Hleft).
    exists (c :: pre), post. split; [by rewrite Hs|]. split; [done|].
    split; [done|]. intros pre' d' post' Hs' Hl' Hd'.
    destruct pre' as [|c' pre'].
    + assert (leading_digits n (c :: rest) = Some d') as Hfound.
      { apply leading_digits_Some. by exists post'. }
      congruence.
    + simpl in Hs'. injection Hs' as _ Hs'. simpl.
      specialize (Hleft pre' d' post' Hs' Hl' Hd'). lia.
Qed.

Lemma search_digits_None n : forall s,
  search_digits n s = None -> no_digit_run n s.
Proof.
  induction s as [|c rest IH]; rewrite search_digits_unfold;
    destruct (leading_digits n _) as [d0|] eqn:Hlead; try done;
    intros Hrest pre d post Hs Hl;
    destruct (forallb is_digit d) eqn:Hd; try done; exfalso.
  - destruct pre; [|done].
    assert (leading_digits n [] = Some d) as Hfound
      by (apply leading_digits_Some; by exists post).
    congruence.
  - destruct pre as [|c' pre].
    + assert (leading_digits n (c :: rest) = Some d) as Hfound
        by (apply leading_digits_Some; by exists post).
      congruence.
    + simpl in Hs. injection Hs as _ Hs.
      pose proof (IH Hrest pre d post Hs Hl). congruence.
Qed.

(** X24: the chart and the signal file are named [ai_signals_] followed by
    the leftmost run of eight consecutive digits of the file name, and
    [ai_signals_chart] when the name has no such run (or no path was
    given). *)
Theorem chart_name_is_leftmost_date f :
  chart_base_name None = "ai_signals_chart"%string
  /\ ((exists d,
         leftmost_digit_run 8 (list_ascii_of_string f) d
         /\ chart_base_name (Some f)
            = ("ai_signals_" ++ string_of_list_ascii d)%string)
      \/ (no_digit_run 8 (list_ascii_of_string f)
          /\ chart_base_name (Some f) = "ai_signals_chart"%string)).
Proof.
  split; [reflexivity|]. unfold chart_base_name.
  destruct (search_digits 8 (list_ascii_of_string f)) as [d|] eqn:Hs.
  - left. exists d. split; [|done]. by apply search_digits_Some.
  - right. split; [|done]. by apply search_digits_None.
Qed.

Lemma leading_digits_nondigit n c s :
  is_digit c = false -> leading_digits (S n) (c :: s) = None.
Proof. intros Hc. simpl. by rewrite Hc. Qed.

Lemma search_digits_skip n pre s :
  Forall (fun c => is_digit c = false) pre ->
  search_digits (S n) (pre ++ s) = search_digits (S n) s.
Proof.
  intros Hpre. induction Hpre as [|c pre Hc _ IH]; [done|].
  rewrite <- IH. change ((c :: pre) ++ s) with (c :: (pre ++ s)).
  rewrite (search_digits_unfold _ (c :: _)).
  by rewrite leading_digits_nondigit.
Qed.

Lemma leading_digits_suffix n post : forall s,
  Forall (fun c => is_digit c = false) post ->
  leading_digits n (s ++ post) = leading_digits n s.
Proof.
  induction n as [|n IH]; intros s Hpost; [done|].
  destruct s as [|c rest].
  - simpl. destruct Hpost as [|c post Hc _]; [done|]. by rewrite Hc.
  - simpl. destruct (is_digit c); [|done]. by rewrite IH.
Qed.

Lemma search_digits_nondigits n post :
  Forall (fun c => is_digit c = false) post ->
  search_digits (S n) post = None.
Proof.
  induction 1 as [|c post Hc _ IH]; [done|].
  rewrite search_digits_unfold. by rewrite leading_digits_nondigit.
Qed.

Lemma search_digits_suffix n post : forall s,
  Forall (fun c => is_digit c = false) post ->
  search_digits (S n) (s ++ post) = search_digits (S n) s.
Proof.
  intros s Hpost. induction s as [|c rest IH].
  - simpl. by rewrite search_digits_nondigits.
  - change ((c :: rest) ++ post) with (c :: (rest ++ post)).
    rewrite !(search_digits_unfold _ (c :: _)).
    change (c :: (rest ++ post)) with ((c :: rest) ++ post).
    rewrite leading_digits_suffix by done. by rewrite IH.
Qed.

Lemma list_ascii_of_string_app (a b : string) :
  list_ascii_of_string (a ++ b)
  = list_ascii_of_string a ++ list_ascii_of_string b.
Proof. induction a as [|c a IH]; [done|]. simpl. by rewrite IH. Qed.

(** X25: in a forward test the chart is named after the date in the file
    name it was given: the prefix [tps_] of the processed file and the
    extension [.csv] play no part, so the raw and the processed file of one
    day give the same chart name. *)
Theorem forward_test_chart_name csv_file_name :
  chart_base_name (Some (tps_file_name csv_file_name))
  = chart_base_name (Some csv_file_name)
  /\ chart_base_name (Some (raw_file_name csv_file_name))
     = chart_base_name (Some csv_file_name).
Proof.
  assert (Hext : Forall (fun c => is_digit c = false)
                   (list_ascii_of_string ".csv")).
  { repeat constructor. }
  assert (Hpre : Forall (fun c => is_digit c = false)
                   (list_ascii_of_string "tps_")).
  { repeat constructor. }
  unfold chart_base_name, tps_file_name, raw_file_name.
  rewrite !list_ascii_of_string_app.
  rewrite (search_digits_skip 7 (list_ascii_of_string "tps_")) by done.
  rewrite !(search_digits_suffix 7 _ _ Hext). done.
Qed.


Example chart_name_of_processed_file :
  chart_base_name (Some "tps_time_and_sales_nq_20251104.csv"%string)
  = "ai_signals_20251104"%string.
Proof. vm_compute. reflexivity. Qed.
(** *** [load_data]: names are stripped, then translated *)

Lemma lstrip_fixed c l : is_space c = false -> lstrip (c :: l) = c :: l.
Proof. intros Hc. cbn [lstrip]. by rewrite Hc. Qed.

Lemma lstrip_idem l : lstrip (lstrip l) = lstrip l.
Proof.
  induction l as [|c l IH]; [done|]. cbn [lstrip].
  destruct (is_space c) eqn:Hc; [done|]. by apply lstrip_fixed.
Qed.

(** Stripping the front leaves a last character that is no space. *)
Lemma lstrip_keeps_last l c :
  is_space c = false -> exists u, lstrip (l ++ [c]) = u ++ [c].
Proof.
  intros Hc. induction l as [|x l IH].
  - exists []. by apply lstrip_fixed.
  - cbn [app lstrip]. destruct (is_space x); [done|]. by exists (x :: l).
Qed.

(** Stripping the back of a text stripped at the front keeps the front
    stripped. *)
Lemma lstrip_of_stripped l :
  lstrip (rev (lstrip (rev (lstrip l)))) = rev (lstrip (rev (lstrip l))).
Proof.
  assert (Hhead : lstrip l = []
                  \/ exists c t, lstrip l = c :: t /\ is_space c = false).
  { induction l as [|c l IH]; [by left|]. cbn [lstrip].
    destruct (is_space c) eqn:Hc; [done|]. right. by exists c, l. }
  destruct Hhead as [-> | (c & t & -> & Hc)]; [done|].
  change (rev (c :: t)) with (rev t ++ [c]).
  destruct (lstrip_keeps_last (rev t) c Hc) as [u ->].
  rewrite List.rev_app_distr. change (rev [c] ++ rev u) with (c :: rev u).
  by apply lstrip_fixed.
Qed.

Lemma strip_idem s : strip (strip s) = strip s.
Proof.
  unfold strip. rewrite list_ascii_of_string_of_list_ascii.
  rewrite (lstrip_of_stripped (list_ascii_of_string s)).
  by rewrite List.rev_involutive, lstrip_idem.
Qed.

(** A translated name is left alone by a second translation, and has no
    blanks around it if the name had none. *)
Lemma rename_column_fixed c :
  rename_column (rename_column c) = rename_column c
  /\ (strip c = c -> strip (rename_column c) = rename_column c).
Proof.
  unfold rename_column at 2 3 4 5.
  destruct (List.find _ column_mapping) as [kv|] eqn:Hfind.
  - apply List.find_some in Hfind as [Hin _].
    unfold column_mapping in Hin. simpl in Hin.
    destruct Hin as [<-|[<-|[<-|[<-|[<-|[<-|[<-|[<-|[<-|[]]]]]]]]]];
      split; intros; vm_compute; reflexivity.
  - split; [|done]. unfold rename_column. by rewrite Hfind.
Qed.

(** X26: every column name of a loaded frame is free of surrounding
    whitespace and is left alone by the translation of lines 25-36, so none
    of Timestamp, Precio, Volumen, Lado, Bid and Ask names a loaded column.
    The loaded frame has one name for each column of the frame read, and
    exactly one of them is timestamp. *)
Theorem loaded_names_are_stripped_and_translated df_columns columns :
  load_columns df_columns = Some columns ->
  Forall (fun c => strip c = c /\ rename_column c = c) columns
  /\ Forall (fun c => c ∉ replaced_names) columns
  /\ length columns = length df_columns
  /\ count_column "timestamp" columns = 1.
Proof.
  unfold load_columns.
  destruct (Nat.eqb _ 1) eqn:Hcount; [|done]. intros [= <-].
  assert (Hstable : Forall (fun c => strip c = c /\ rename_column c = c)
                      ((fun c => rename_column (strip c)) <$> df_columns)).
  { apply Forall_fmap, Forall_forall. intros c _. simpl.
    destruct (rename_column_fixed (strip c)) as [Hr Hs].
    split; [apply Hs, strip_idem | exact Hr]. }
  split; [done|]. split; [|split].
  - eapply Forall_impl; [|exact Hstable].
    intros c [_ Hfixed] Hin. unfold replaced_names in Hin.
    repeat (apply elem_of_cons in Hin as [->|Hin]);
      try (by apply elem_of_nil in Hin); by vm_compute in Hfixed.
  - by rewrite length_fmap.
  - by apply Nat.eqb_eq.
Qed.

Lemma loaded_names_are_stripped_and_translated_witness :
  exists columns,
    load_columns padded_header = Some columns
    /\ columns = ["timestamp"; "price"; "factor_tps"]%string
    /\ Forall (fun c => strip c = c /\ rename_column c = c) columns
    /\ Forall (fun c => c ∉ replaced_names) columns.
Proof.
  eexists. split; [reflexivity|]. split; [reflexivity|].
  destruct (loaded_names_are_stripped_and_translated padded_header _ eq_refl)
    as (Hfixed & Hnone & _).
  split; [exact Hfixed | exact Hnone].
Defined.

End PipelineProps.
